(** * zfs.util: the disk-arbitration probe helper and the pool import from
    the cache file

    A shallow embedding of [cmd/zfs_util/zfs_util.c].  C strings are
    [string]s (byte sequences, a NUL-terminated string being the bytes before
    its terminator), C integers are [Z] with the width-dependent steps written
    out, the calls into the host and into libzfs are answers read from an
    explicit environment, and the stateful import code runs in a small
    state-and-abort monad. *)

From Stdlib Require Import ZArith List String Ascii Bool Lia.
Import ListNotations.

Local Open Scope string_scope.
Local Open Scope Z_scope.

(** ** C strings *)

Module CStr.

(** The NUL byte. *)
Definition NUL : ascii := Ascii.zero.

(** [strlen]: the number of bytes of the string, as a C integer. *)
Definition strlen (s : string) : Z := Z.of_nat (String.length s).

(** [*s]: the first byte of a NUL-terminated string (the terminator itself
    when the string is empty). *)
Definition deref (s : string) : ascii :=
  match s with
  | EmptyString => NUL
  | String c _ => c
  end.

(** [s + 1] for a pointer [s] to a non-terminator byte. *)
Definition advance (s : string) : string :=
  match s with
  | EmptyString => EmptyString
  | String _ t => t
  end.

(** [s[n]] when every byte before index [n] is not the terminator; the
    terminator when the string ends at [n]. *)
Definition index (s : string) (n : nat) : ascii :=
  match String.get n s with
  | Some c => c
  | None => NUL
  end.

(** [strrchr s c] for [c] other than NUL: the suffix of [s] that starts at
    the last occurrence of [c], or [None] (the null pointer). *)
Fixpoint strrchr (s : string) (c : ascii) : option string :=
  match s with
  | EmptyString => None
  | String a t =>
      match strrchr t c with
      | Some r => Some r
      | None => if Ascii.eqb a c then Some s else None
      end
  end.

(** [strcmp]: the difference of the first pair of differing bytes, as
    unsigned chars, the terminator counting as 0. *)
Fixpoint strcmp (s t : string) : Z :=
  match s, t with
  | EmptyString, EmptyString => 0
  | EmptyString, String b _ => 0 - Z.of_nat (nat_of_ascii b)
  | String a _, EmptyString => Z.of_nat (nat_of_ascii a)
  | String a s', String b t' =>
      if Ascii.eqb a b then strcmp s' t'
      else Z.of_nat (nat_of_ascii a) - Z.of_nat (nat_of_ascii b)
  end.

(** [snprintf(dst, size, "<prefix>%s", arg)] into a buffer of [size] bytes:
    the first [size - 1] bytes of the formatted text. *)
Definition snprintf_s (size : nat) (prefix arg : string) : string :=
  String.substring 0 (size - 1) (prefix ++ arg).

(** Does the byte [c] occur in [s]? *)
Fixpoint occurs (c : ascii) (s : string) : bool :=
  match s with
  | EmptyString => false
  | String a t => Ascii.eqb a c || occurs c t
  end.

(** [s] begins with the byte [c]. *)
Definition begins_with (c : ascii) (s : string) : bool :=
  match s with
  | EmptyString => false
  | String a _ => Ascii.eqb a c
  end.

End CStr.

Import CStr.

(** ** Device-name normalizer ([main], lines 489-494) *)

(** [devname = argv[1]; cp = strrchr(devname, '/'); if (cp != 0) devname =
    cp + 1; if ( *devname == 'r') devname++;] *)
Definition normalize_devname (token : string) : string :=
  let devname := token in
  let cp := strrchr devname "/" in
  let devname := match cp with
                 | Some p => advance p
                 | None => devname
                 end in
  if Ascii.eqb (deref devname) "r" then advance devname else devname.

(** The last path component of the token: what follows its last ['/']. *)
Definition last_component (token : string) : string :=
  match strrchr token "/" with
  | Some p => advance p
  | None => token
  end.

(** ** Host interface

    What [zfs_util.c] takes from the headers of the host
    ([<sys/loadable_fs.h>], [<sys/param.h>], [<sys/attr.h>],
    [<libkern/OSByteOrder.h>]): these are not part of the file, so the model
    is parametrized by them. *)

(** [attrreference_t]: the two fields the code reads. *)
Record attrreference_t := {
  attr_dataoffset : Z;
  attr_length : Z
}.

Class Host := {
  (** [<sys/param.h>] *)
  MAXPATHLEN : nat;
  (** [<sys/loadable_fs.h>]: the exit statuses and the action letters the
      file does not define itself *)
  FSUR_RECOGNIZED : Z;
  FSUR_UNRECOGNIZED : Z;
  FSUR_IO_SUCCESS : Z;
  FSUR_IO_FAIL : Z;
  FSUR_INVAL : Z;
  FSUC_PROBE : ascii;
  FSUC_MOUNT : ascii;
  FSUC_UNMOUNT : ascii;
  (** [<sys/attr.h>]: [sizeof (attrreference_t)] and the bytes an
      [attrreference_t] and a [uint32_t] occupy in memory *)
  sizeof_attrreference : Z;
  repr_attrreference : attrreference_t -> string;
  repr_uint32 : Z -> string;
  (** byte order of the host, for [OSSwapBigToHostInt32] *)
  host_big_endian : bool
}.

(** Lines 59-65: the two action letters the file defines itself (unless a
    header of the host does). *)
Definition FSUC_GETUUID : ascii := "k".
Definition FSUC_SETUUID : ascii := "s".

(** [INT_MAX] *)
Definition INT_MAX : Z := 2147483647.

(** [sizeof (uint32_t)] *)
Definition sizeof_uint32 : Z := 4.

(** A 32-bit unsigned value. *)
Definition is_u32 (x : Z) : Prop := 0 <= x < 4294967296.

(** ** Mount-table scanner ([main], lines 517-542) *)

(** [struct statfs]: the two fields the code reads. *)
Record statfs := {
  f_mntfromname : string;
  f_mntonname : string
}.

(** The entry read at an index outside the table. *)
Definition no_statfs : statfs :=
  {| f_mntfromname := ""; f_mntonname := "" |}.

(** The [for] loop of lines 526-536 from index [i] on, over the entries not
    yet visited: [(is_mounted, i)] when the loop is left. *)
Fixpoint scan_from (len : Z) (blockdevice : string) (rest : list statfs)
    (i : nat) : bool * nat :=
  match rest with
  | [] => (false, i)
  | e :: rest' =>
      if (strlen (f_mntfromname e) =? len) &&
         (strcmp (f_mntfromname e) blockdevice =? 0)
      then (true, i)
      else scan_from len blockdevice rest' (S i)
  end.

(** The [do { } while (0)] block.  [getmntinfo] hands back the mount table
    and its length [num]; a failed call reports [num <= 0]. *)
Definition scan_mounts (blockdevice : string) (mounts : list statfs)
    : bool * nat :=
  let num := Z.of_nat (List.length mounts) in
  if num <=? 0 then (false, O)
  else
    let len := strlen blockdevice in
    scan_from len blockdevice mounts O.

(** A source path that is a strict prefix of the block path. *)
Definition strict_prefix (s t : string) : bool :=
  String.prefix s t && negb (String.eqb s t).

(** ** UUID words ([main], lines 744-781) *)

(** [OSSwapInt32]: the four bytes of a 32-bit word in reverse order. *)
Definition OSSwapInt32 (x : Z) : Z :=
  Z.lor (Z.lor (Z.shiftl (Z.land x 255) 24)
               (Z.shiftl (Z.land x 65280) 8))
        (Z.lor (Z.shiftr (Z.land x 16711680) 8)
               (Z.shiftr (Z.land x 4278190080) 24)).

(** [OSSwapBigToHostInt32] *)
Definition OSSwapBigToHostInt32 {host : Host} (x : Z) : Z :=
  if host_big_endian then x else OSSwapInt32 x.

(** Line 758: [buf[2] != ((buf[2] & 0xFFFF0FFF) | 0x00003000)] is false. *)
Definition version3_ok (w2 : Z) : bool :=
  w2 =? Z.lor (Z.land w2 4294905855) 12288.

(** Line 763: [buf[3] != ((buf[3] & 0x3FFFFFFF) | 0x80000000)] is false. *)
Definition variant_ok (w3 : Z) : bool :=
  w3 =? Z.lor (Z.land w3 1073741823) 2147483648.

(** The version nibble: bits 12-15 of the second word. *)
Definition version_nibble (w2 : Z) : Z := Z.land (Z.shiftr w2 12) 15.

(** The variant bits: bits 30-31 of the third word. *)
Definition variant_bits (w3 : Z) : Z := Z.land (Z.shiftr w3 30) 3.

(** *** [printf]'s [%0<width>X] *)

Definition hex_digit (d : Z) : ascii :=
  index "0123456789ABCDEF" (Z.to_nat d).

(** The hexadecimal digits of [v], most significant first, in front of [acc]. *)
Fixpoint hex_digits (fuel : nat) (v : Z) (acc : string) : string :=
  match fuel with
  | O => acc
  | S fuel' =>
      let acc' := String (hex_digit (v mod 16)) acc in
      if v / 16 =? 0 then acc' else hex_digits fuel' (v / 16) acc'
  end.

(** [%X]: no leading zero, one digit for 0. *)
Definition to_hex (v : Z) : string :=
  hex_digits (S (Z.to_nat (Z.log2 v))) v "".

(** [n] copies of the byte [c]. *)
Fixpoint fill (c : ascii) (n : nat) : string :=
  match n with
  | O => ""
  | S n' => String c (fill c n')
  end.

(** [%0<width>X]: padded with zeros on the left up to [width] bytes. *)
Definition fmt_X (width : nat) (v : Z) : string :=
  let digits := to_hex v in
  fill "0" (width - String.length digits) ++ digits.

(** Lines 779-781: ["%08X-%04X-%04X-%04X-%04X%08X"] of the four words. *)
Definition format_uuid (b1 b2 b3 b4 : Z) : string :=
  fmt_X 8 b1 ++ "-" ++
  fmt_X 4 (Z.shiftr (Z.land b2 4294901760) 16) ++ "-" ++
  fmt_X 4 (Z.land b2 65535) ++ "-" ++
  fmt_X 4 (Z.shiftr (Z.land b3 4294901760) 16) ++ "-" ++
  fmt_X 4 (Z.land b3 65535) ++
  fmt_X 8 b4.

(** The value of an uppercase hexadecimal digit (0 for any other byte). *)
Definition hex_digit_value (c : ascii) : Z :=
  match String.index 0 (String c "") "0123456789ABCDEF" with
  | Some k => Z.of_nat k
  | None => 0
  end.

(** The number that [acc] followed by the digits of [s] denotes. *)
Fixpoint hex_value_from (acc : Z) (s : string) : Z :=
  match s with
  | EmptyString => acc
  | String c t => hex_value_from (16 * acc + hex_digit_value c) t
  end.

(** The number a string of hexadecimal digits denotes. *)
Definition hex_value (s : string) : Z := hex_value_from 0 s.

(** An uppercase hexadecimal digit. *)
Definition is_upper_hex (c : ascii) : bool := occurs c "0123456789ABCDEF".

(** Every byte of [s] satisfies [p]. *)
Fixpoint all_bytes (p : ascii -> bool) (s : string) : bool :=
  match s with
  | EmptyString => true
  | String c t => p c && all_bytes p t
  end.

(** [hex_run n s]: what is left of [s] after [n] uppercase hexadecimal
    digits, [None] when [s] does not begin with that many. *)
Fixpoint hex_run (n : nat) (s : string) : option string :=
  match n with
  | O => Some s
  | S n' =>
      match s with
      | String c t => if is_upper_hex c then hex_run n' t else None
      | EmptyString => None
      end
  end.

(** [dash s]: what is left of [s] after a ['-'], [None] when [s] does not
    begin with one. *)
Definition dash (s : option string) : option string :=
  match s with
  | Some (String c t) => if Ascii.eqb c "-" then Some t else None
  | _ => None
  end.

(** The canonical 8-4-4-4-12 form in uppercase hexadecimal digits: 36
    bytes and nothing after them. *)
Definition is_canonical_uuid (s : string) : bool :=
  match dash (hex_run 8 s) with
  | Some s1 =>
      match dash (hex_run 4 s1) with
      | Some s2 =>
          match dash (hex_run 4 s2) with
          | Some s3 =>
              match dash (hex_run 4 s3) with
              | Some s4 =>
                  match hex_run 12 s4 with
                  | Some EmptyString => true
                  | _ => false
                  end
              | None => false
              end
          | None => false
          end
      | None => false
      end
  | None => false
  end.

(** The line feed. *)
Definition LF : ascii := ascii_of_nat 10.

(** ** Volume-name attribute buffer (lines 448-452 and 578-594) *)

Module NameBuf.

(** [struct attrNameBuf], packed and aligned to 4 bytes. *)
Record t := {
  length : Z;
  nameRef : attrreference_t;
  name : string
}.

Section Layout.
Context {host : Host}.

(** [offsetof (struct attrNameBuf, name)]: the struct is packed. *)
Definition offsetof_name : Z := sizeof_uint32 + sizeof_attrreference.

(** [sizeof (nameBuf)]: the members, rounded up to the alignment of 4. *)
Definition sizeof_nameBuf : Z :=
  (offsetof_name + Z.of_nat MAXPATHLEN + 3) / 4 * 4.

(** The bytes of the struct in memory. *)
Definition image (b : t) : string :=
  repr_uint32 (length b) ++ repr_attrreference (nameRef b) ++ name b.

End Layout.
End NameBuf.

(** The NUL-terminated string that starts at the head of [s]; [None] when no
    terminator is found before the bytes end. *)
Fixpoint cstring_of (s : string) : option string :=
  match s with
  | EmptyString => None
  | String c t =>
      if Ascii.eqb c NUL then Some EmptyString
      else match cstring_of t with
           | Some r => Some (String c r)
           | None => None
           end
  end.

(** [s + n] for a pointer to the first of the bytes [s]. *)
Fixpoint skip (n : nat) (s : string) : string :=
  match n, s with
  | O, _ => s
  | S n', String _ t => skip n' t
  | S _, EmptyString => EmptyString
  end.

(** The NUL-terminated string at byte offset [pos] of an object whose bytes
    are [img]; [None] when the pointer or the string leaves the object. *)
Definition cstring_at (img : string) (pos : Z) : option string :=
  if (0 <=? pos) && (pos <? strlen img)
  then cstring_of (skip (Z.to_nat pos) img)
  else None.

Section Probe.
Context {host : Host}.

(** Lines 565 and 589-591: [volname] after [bzero] and
    [snprintf(volname, nameBuf.nameRef.attr_length, "%s",
    ((char * )&nameBuf.nameRef) + nameBuf.nameRef.attr_dataoffset)].
    [None] where C fixes no result: the source string is not inside
    [nameBuf], the size is above [INT_MAX], or the copy does not fit
    [volname]. *)
Definition copy_volname (nameBuf : NameBuf.t) : option string :=
  let n := attr_length (NameBuf.nameRef nameBuf) in
  let pos := sizeof_uint32 +
             attr_dataoffset (NameBuf.nameRef nameBuf) in
  match cstring_at (NameBuf.image nameBuf) pos with
  | None => None
  | Some src =>
      if n =? 0 then Some (fill NUL MAXPATHLEN)
      else if n >? INT_MAX then None
      else
        let k := Nat.min (String.length src) (Z.to_nat (n - 1)) in
        if (MAXPATHLEN <=? k)%nat then None
        else Some (String.substring 0 k src ++ fill NUL (MAXPATHLEN - k))
  end.

End Probe.

(** ** The action dispatcher ([main]) *)

(** What the host answers to the calls of [main]. *)
Record os_env := {
  (** [stat(path, &sb)] *)
  stat : string -> Z;
  (** [getmntinfo(&statfs, MNT_NOWAIT)]: the mount table, [num] being its
      length (0 on failure) *)
  getmntinfo : list statfs;
  (** [getattrlist] of a mount point for [ATTR_CMN_NAME]: the return value
      and the buffer it filled *)
  getattrlist_name : string -> Z * NameBuf.t;
  (** [getattrlist] of a mount point for [ATTR_VOL_INFO | ATTR_VOL_UUID]:
      the return value and the five words of [buf] *)
  getattrlist_uuid : string -> Z * list Z
}.

(** How [main] ends: [exit(ret)] with the bytes written to file descriptor 1,
    or no result fixed by C.  The log lines ([printf] is [zfs_util_log],
    line 78) and [usage] go to stderr and syslog and are not kept. *)
Inductive outcome :=
| Exit (ret : Z) (out : string)
| Undefined.

Section Main.
Context {host : Host}.

(** [statfs[i].f_mntonname] *)
Definition mntonname_at (env : os_env) (i : nat) : string :=
  f_mntonname (nth i (getmntinfo env) no_statfs).

(** [case FSUC_PROBE], lines 546-596. *)
Definition probe (env : os_env) (is_mounted : bool) (i : nat) : outcome :=
  if negb is_mounted then Exit FSUR_UNRECOGNIZED ""
  else
    let '(ret, nameBuf) := getattrlist_name env (mntonname_at env i) in
    if negb (ret =? 0) then Exit FSUR_UNRECOGNIZED ""
    else if NameBuf.length nameBuf <? NameBuf.offsetof_name
    then Exit FSUR_UNRECOGNIZED ""
    else if NameBuf.length nameBuf >? NameBuf.sizeof_nameBuf
    then Exit FSUR_UNRECOGNIZED ""
    else
      match copy_volname nameBuf with
      | None => Undefined
      | Some volname =>
          (* write(1, volname, sizeof(volname)) *)
          Exit FSUR_RECOGNIZED volname
      end.

(** [case FSUC_GETUUID], lines 651-784. *)
Definition getuuid (env : os_env) (is_mounted : bool) (i : nat) : outcome :=
  if negb is_mounted then Exit FSUR_IO_FAIL ""
  else
    let '(ret, buf) := getattrlist_uuid env (mntonname_at env i) in
    if negb (ret =? 0) then Exit FSUR_IO_FAIL ""
    else if nth 0 buf 0 <? 5 * sizeof_uint32 then Exit FSUR_IO_FAIL ""
    else
      let b1 := OSSwapBigToHostInt32 (nth 1 buf 0) in
      let b2 := OSSwapBigToHostInt32 (nth 2 buf 0) in
      let b3 := OSSwapBigToHostInt32 (nth 3 buf 0) in
      let b4 := OSSwapBigToHostInt32 (nth 4 buf 0) in
      let ret := if negb (version3_ok b2) then FSUR_IO_FAIL else ret in
      let ret := if negb (variant_ok b3) then FSUR_IO_FAIL else ret in
      if ret =? FSUR_IO_FAIL then Exit ret ""
      else Exit FSUR_IO_SUCCESS (format_uuid b1 b2 b3 b4).

(** The [switch] of lines 545-804. *)
Definition dispatch (what : ascii) (env : os_env) (is_mounted : bool)
    (i : nat) : outcome :=
  if Ascii.eqb what FSUC_PROBE then probe env is_mounted i
  else if Ascii.eqb what FSUC_GETUUID then getuuid env is_mounted i
  else if Ascii.eqb what FSUC_SETUUID then Exit FSUR_INVAL ""
  else if Ascii.eqb what FSUC_MOUNT then Exit FSUR_IO_FAIL ""
  else if Ascii.eqb what FSUC_UNMOUNT then Exit FSUR_IO_FAIL ""
  else Exit FSUR_INVAL "".

(** Line 505: [blockdevice] for a device token. *)
Definition blockdevice_of (token : string) : string :=
  snprintf_s MAXPATHLEN "/dev/" (normalize_devname token).

(** Line 504: [rawdevice] for a device token. *)
Definition rawdevice_of (token : string) : string :=
  snprintf_s MAXPATHLEN "/dev/r" (normalize_devname token).

(** [main], with [argv] holding the program name first. *)
Definition main (argv : list string) (env : os_env) : outcome :=
  let ret := FSUR_INVAL in
  (* save & strip off program name *)
  let argc := Z.of_nat (List.length argv) - 1 in
  let argv := tl argv in
  if (argc <? 2) || negb (Ascii.eqb (index (nth 0 argv "") 0) "-")
  then Exit ret ""
  else
    let what := index (nth 0 argv "") 1 in
    let rawdevice := rawdevice_of (nth 1 argv "") in
    let blockdevice := blockdevice_of (nth 1 argv "") in
    if negb (stat env blockdevice =? 0) then Exit ret ""
    else
      let '(is_mounted, i) := scan_mounts blockdevice (getmntinfo env) in
      dispatch what env is_mounted i.

(** [main] is called with the action [-<what>] for a device that [stat]
    finds and that the mount table lists at index [i]. *)
Definition on_mounted_volume (argv : list string) (env : os_env)
    (what : ascii) (i : nat) : Prop :=
  exists progname action token flags,
    argv = progname :: action :: token :: flags /\
    index action 0 = "-"%char /\
    index action 1 = what /\
    stat env (blockdevice_of token) = 0 /\
    scan_mounts (blockdevice_of token) (getmntinfo env) = (true, i).

End Main.

(** ** A concrete host

    The values of the Darwin SDK, to run the model on concrete inputs. *)

(** A 32-bit word as its four bytes, least significant first. *)
Definition le32 (x : Z) : string :=
  String (ascii_of_nat (Z.to_nat (Z.land x 255)))
 (String (ascii_of_nat (Z.to_nat (Z.land (Z.shiftr x 8) 255)))
 (String (ascii_of_nat (Z.to_nat (Z.land (Z.shiftr x 16) 255)))
 (String (ascii_of_nat (Z.to_nat (Z.land (Z.shiftr x 24) 255))) ""))).

Definition darwin : Host := {|
  MAXPATHLEN := 1024;
  FSUR_RECOGNIZED := -1;
  FSUR_UNRECOGNIZED := -2;
  FSUR_IO_SUCCESS := -3;
  FSUR_IO_FAIL := -4;
  FSUR_INVAL := -6;
  FSUC_PROBE := "p";
  FSUC_MOUNT := "m";
  FSUC_UNMOUNT := "u";
  sizeof_attrreference := 8;
  repr_attrreference :=
    fun r => le32 (attr_dataoffset r) ++ le32 (attr_length r);
  repr_uint32 := le32;
  host_big_endian := false
|}.

(** ** Concrete inputs *)

Module Scenario.

(** [zfs.util -<what> disk3s1] *)
Definition argv_for (what : ascii) : list string :=
  ["zfs.util"; String "-" (String what ""); "disk3s1"].

(** A mount table that lists [/dev/disk3s1] on [/Volumes/Data], after a
    source path that is a prefix of it. *)
Definition mount_table : list statfs :=
  [ {| f_mntfromname := "/dev/disk1s1"; f_mntonname := "/" |};
    {| f_mntfromname := "/dev/disk3"; f_mntonname := "/Volumes/Other" |};
    {| f_mntfromname := "/dev/disk3s1"; f_mntonname := "/Volumes/Data" |} ].

(** The buffer [getattrlist] fills for a volume name [nm] on Darwin: the
    name and its terminator right after the reference, [length] counting
    the bytes returned. *)
Definition name_buf (nm : string) : NameBuf.t :=
  {| NameBuf.length := 12 + (strlen nm + 1);
     NameBuf.nameRef := {| attr_dataoffset := 8;
                           attr_length := strlen nm + 1 |};
     NameBuf.name := nm ++ fill NUL (1024 - String.length nm) |}.

(** A buffer that returns the fixed prefix and no name bytes. *)
Definition prefix_only_buf : NameBuf.t :=
  {| NameBuf.length := 12;
     NameBuf.nameRef := {| attr_dataoffset := 8; attr_length := 0 |};
     NameBuf.name := fill NUL 1024 |}.

(** A host that finds every device, with the mount table above, answering
    the name request with [nb] and the UUID request with the words [ws]. *)
Definition env_of (nb : NameBuf.t) (ws : list Z) : os_env :=
  {| stat := fun _ => 0;
     getmntinfo := mount_table;
     getattrlist_name := fun _ => (0, nb);
     getattrlist_uuid := fun _ => (0, ws) |}.

(** The five words of a UUID answer, in memory order on a little-endian
    host: a version-3 UUID, and the same with version nibble 4. *)
Definition uuid_v3 : list Z :=
  [20; 3721182122; 1144201745; 3148519816; 4022250974].
Definition uuid_v4 : list Z :=
  [20; 3721182122; 1145250321; 3148519816; 4022250974].

End Scenario.

(** ** Name-value lists

    libnvpair is not part of [zfs_util.c].  The spec describes its lists as
    keyed containers of typed values, read through typed accessors for which
    a missing key is a plain failure, and iterated in the order of their
    entries; a nested record is a value of a type of its own. *)

(** Modelled from the spec: the values and the entries of a name-value
    list ([nvlist_t], [nvpair_t]), with the types the code reads and one
    case for every other type. *)
Inductive nvvalue :=
| NvUint32 (v : Z)
| NvUint64 (v : Z)
| NvString (s : string)
| NvNvlist (l : list nvpair)
| NvOther
with nvpair :=
| Nvpair (name : string) (value : nvvalue).

Definition nvlist : Type := list nvpair.

(** Modelled from the spec: [nvpair_name], the key of an entry. *)
Definition nvpair_name (p : nvpair) : string :=
  match p with
  | Nvpair name _ => name
  end.

(** Modelled from the spec: the typed value of an entry. *)
Definition nvpair_value (p : nvpair) : nvvalue :=
  match p with
  | Nvpair _ value => value
  end.

(** Modelled from the spec: [nvpair_type(p) == DATA_TYPE_NVLIST], the value
    is a nested record. *)
Definition nvpair_is_nvlist (p : nvpair) : bool :=
  match nvpair_value p with
  | NvNvlist _ => true
  | _ => false
  end.

(** Modelled from the spec: [nvpair_value_nvlist], the nested record of an
    entry; [None] for a non-zero return. *)
Definition nvpair_value_nvlist (p : nvpair) : option nvlist :=
  match nvpair_value p with
  | NvNvlist l => Some l
  | _ => None
  end.

(** Modelled from the spec: [nvlist_lookup_uint64], the typed accessor for
    64-bit values: the first entry of that name and type; [None] for a
    non-zero return (the key is missing). *)
Fixpoint nvlist_lookup_uint64 (nvl : nvlist) (name : string) : option Z :=
  match nvl with
  | [] => None
  | Nvpair n (NvUint64 v) :: rest =>
      if String.eqb n name then Some v else nvlist_lookup_uint64 rest name
  | _ :: rest => nvlist_lookup_uint64 rest name
  end.

(** Modelled from the spec: [nvlist_lookup_string], the typed accessor for
    strings. *)
Fixpoint nvlist_lookup_string (nvl : nvlist) (name : string)
    : option string :=
  match nvl with
  | [] => None
  | Nvpair n (NvString v) :: rest =>
      if String.eqb n name then Some v else nvlist_lookup_string rest name
  | _ :: rest => nvlist_lookup_string rest name
  end.

(** Modelled from the spec: a successful [nvlist_add_*] on a keyed
    container: an entry of that name is replaced, the new one going last. *)
Definition nvlist_add (nvl : nvlist) (name : string) (v : nvvalue) : nvlist :=
  (filter (fun p => negb (String.eqb (nvpair_name p) name)) nvl
   ++ [Nvpair name v])%list.

(** ** Constants of the ZFS headers

    [zfs_util.c] takes these from [<libzfs.h>] and [<sys/fs/zfs.h>], which
    are not at hand: the model is parametrized by them. *)
Class ZfsAbi := {
  POOL_STATE_EXPORTED : Z;
  POOL_STATE_DESTROYED : Z;
  POOL_STATE_UNAVAIL : Z;
  ZFS_IMPORT_NORMAL : Z;
  ZFS_IMPORT_ANY_HOST : Z;
  ZFS_IMPORT_ONLY : Z;
  ZPOOL_NO_REWIND : Z;
  SPA_VERSION_IS_SUPPORTED : Z -> bool;
  ZPOOL_CONFIG_POOL_NAME : string;
  ZPOOL_CONFIG_POOL_STATE : string;
  ZPOOL_CONFIG_POOL_GUID : string;
  ZPOOL_CONFIG_VERSION : string;
  ZPOOL_CONFIG_HOSTID : string;
  ZPOOL_CONFIG_HOSTNAME : string;
  ZPOOL_CONFIG_TIMESTAMP : string;
  ZPOOL_REWIND_POLICY : string;
  ZPOOL_REWIND_REQUEST_TXG : string;
  ZPOOL_REWIND_REQUEST : string
}.

(** ** The collaborators of the import path

    The calls into libzfs, libnvpair's allocator and the host, as answers
    that may depend on, and change, a state [W] of the outside world. *)
Class Collaborators (W : Type) := {
  (** [libzfs_init() != NULL] *)
  libzfs_init : W -> bool * W;
  (** the return value of the next allocating libnvpair call
      ([nvlist_alloc], [nvlist_add_*]): 0, or an error number *)
  nv_alloc : W -> Z * W;
  (** [priv_ineffect(PRIV_SYS_CONFIG)] *)
  priv_ineffect : W -> bool * W;
  (** [zpool_search_import(g_zfs, &idata)] for [idata.guid]: the candidate
      list ([None] for [NULL]) and [idata.exists] *)
  zpool_search_import : Z -> W -> (option nvlist * bool) * W;
  (** [gethostid()] *)
  gethostid : W -> Z * W;
  (** [zpool_import_props(g_zfs, config, newname, props, flags)] *)
  zpool_import_props :
    nvlist -> option string -> option nvlist -> Z -> W -> Z * W;
  (** [zpool_open_canfail(g_zfs, name) != NULL] *)
  zpool_open_canfail : string -> W -> bool * W;
  (** [zpool_get_state(zhp)] for the pool opened under that name *)
  zpool_get_state : string -> W -> Z * W;
  (** [zpool_enable_datasets(zhp, mntopts, 0)] *)
  zpool_enable_datasets : string -> option string -> W -> Z * W;
  (** [open(ZPOOL_CACHE, O_RDONLY)] *)
  open_cache : W -> Z * W;
  (** [fstat(fd, &stbf)]: the return value and [stbf.st_size] *)
  fstat : W -> (Z * Z) * W;
  (** [kmem_alloc(size, 0) != NULL] *)
  kmem_alloc : Z -> W -> bool * W;
  (** [read(fd, buf, size)] *)
  read : Z -> W -> Z * W;
  (** [nvlist_unpack(buf, size, &nvlist, KM_PUSHPAGE)]: the return value and
      the unpacked list *)
  nvlist_unpack : W -> (Z * nvlist) * W
}.

(** ** Resources, log lines and events *)

(** What the import path acquires and has to give back. *)
Inductive resource :=
| Res_libzfs_handle
| Res_policy
| Res_pools
| Res_zpool_handle
| Res_cache_fd
| Res_cache_buf
| Res_manifest.

Definition resource_eqb (a b : resource) : bool :=
  match a, b with
  | Res_libzfs_handle, Res_libzfs_handle
  | Res_policy, Res_policy
  | Res_pools, Res_pools
  | Res_zpool_handle, Res_zpool_handle
  | Res_cache_fd, Res_cache_fd
  | Res_cache_buf, Res_cache_buf
  | Res_manifest, Res_manifest => true
  | _, _ => false
  end.

(** The calls of [printf], which is [zfs_util_log] (line 78), by format.
    [zfs_util_log] writes the line to stderr and to syslog when
    [zfs_util_debug] is set and nothing otherwise (lines 88-89); the event
    is the call. *)
Inductive message :=
| Msg_unsupported_version (name : string)
| Msg_in_use_by_host (name hostname : string) (hostid timestamp : Z)
| Msg_in_use (name : string)
| Msg_use_f
| Msg_permission_denied
| Msg_already_imported (guid : Z)
| Msg_no_such_pool (guid : Z)
| Msg_reading_cachefile
| Msg_cachefile_has_pool (name : string)
| Msg_cachefile_has_pool_guid (name : string) (guid : Z)
| Msg_import_error (importrc : Z).

(** What the import path does that can be observed from outside. *)
Inductive event :=
| Log (m : message)
| Import_by_guid (guid : Z)
| Import_props (config : nvlist) (flags : Z)
| Enable_datasets (name : string).

(** The GUIDs of the import attempts among the events, in order. *)
Definition attempts (evs : list event) : list Z :=
  flat_map (fun e => match e with
                     | Import_by_guid g => [g]
                     | _ => []
                     end) evs.

(** Is the event a call of the library's import entry point? *)
Definition is_import_props (e : event) : bool :=
  match e with
  | Import_props _ _ => true
  | _ => false
  end.

(** Is the event a log line? *)
Definition is_log (e : event) : bool :=
  match e with
  | Log _ => true
  | _ => false
  end.



(** ** The monad of the import path: state, events and abort *)

Section Monad.
Context {W : Type}.

(** The outside world and the resources held. *)
Record state := {
  world : W;
  live : list resource
}.

(** A computation ends by returning a value in a state, or in [abort()]
    (a failed [verify]). *)
Inductive ending (A : Type) :=
| Returned (a : A) (s : state)
| Aborted.

Arguments Returned {A} a s.
Arguments Aborted {A}.

(** A computation: from a state, the events in order and the ending. *)
Definition M (A : Type) : Type := state -> list event * ending A.

Definition ret {A : Type} (a : A) : M A := fun s => ([], Returned a s).

Definition bind {A B : Type} (m : M A) (k : A -> M B) : M B :=
  fun s =>
    match m s with
    | (evs, Returned a s') =>
        let '(evs', e) := k a s' in ((evs ++ evs')%list, e)
    | (evs, Aborted) => (evs, Aborted)
    end.

(** [abort()] *)
Definition abort {A : Type} : M A := fun _ => ([], Aborted).

(** One event. *)
Definition emit (e : event) : M unit := fun s => ([e], Returned tt s).

(** A call of a collaborator. *)
Definition call {A : Type} (f : W -> A * W) : M A :=
  fun s =>
    let '(a, w) := f (world s) in
    ([], Returned a {| world := w; live := live s |}).

(** A resource is acquired. *)
Definition acquire (r : resource) : M unit :=
  fun s => ([], Returned tt {| world := world s; live := r :: live s |}).

(** One occurrence of [r] among the resources held, removed. *)
Fixpoint remove_one (r : resource) (l : list resource) : list resource :=
  match l with
  | [] => []
  | x :: l' => if resource_eqb x r then l' else x :: remove_one r l'
  end.

(** A resource is given back. *)
Definition release (r : resource) : M unit :=
  fun s =>
    ([], Returned tt {| world := world s; live := remove_one r (live s) |}).

(** The events of a run. *)
Definition events {A : Type} (run : list event * ending A) : list event :=
  fst run.

(** The ending of a run. *)
Definition ending_of {A : Type} (run : list event * ending A) : ending A :=
  snd run.

End Monad.

Arguments state W : clear implicits.
Arguments ending W A : clear implicits.
Arguments M W A : clear implicits.
Arguments Returned {W A} a s.
Arguments Aborted {W A}.

Declare Scope import_scope.
Delimit Scope import_scope with import.
Notation "x <- m ;; k" := (bind m (fun x => k))
  (at level 61, m at next level, right associativity) : import_scope.
Notation "m ;;; k" := (bind m (fun _ => k))
  (at level 61, right associativity) : import_scope.

(** ** The pool importer *)

(** [(unsigned long)x]: 64 bits on the LP64 hosts the tool is built for. *)
Definition to_ulong (x : Z) : Z := x mod 18446744073709551616.

(** [B_TRUE] as an [int]. *)
Definition B_TRUE_int : Z := 1.

Section Importer.
Context {W : Type} {C : Collaborators W} {abi : ZfsAbi}.

Local Open Scope import_scope.

(** [verify(e)]: [abort()] unless [e] holds. *)
Definition verify (e : bool) : M W unit :=
  if e then ret tt else abort.

(** [verify(lookup(..., &x) == 0)]: the value looked up, [abort()] when the
    lookup fails. *)
Definition verify_lookup {A : Type} (found : option A) : M W A :=
  match found with
  | Some a => ret a
  | None => abort
  end.

(** [printf(...)], which is [zfs_util_log]. *)
Definition log (m : message) : M W unit := emit (Log m).

(** [nvlist_free(p)] for the list held as resource [r]; nothing for a null
    pointer. *)
Definition nvlist_free (p : option nvlist) (r : resource) : M W unit :=
  match p with
  | Some _ => release r
  | None => ret tt
  end.

(** Lines 186-203: the import itself and the mount of the datasets. *)
Definition import_and_mount (config : nvlist) (name : string)
    (newname mntopts : option string) (props : option nvlist) (flags : Z)
    : M W Z :=
  emit (Import_props config flags) ;;;
  rc <- call (zpool_import_props config newname props flags) ;;
  if negb (rc =? 0) then ret 1
  else
    let name := match newname with
                | Some n => n
                | None => name
                end in
    zhp <- call (zpool_open_canfail name) ;;
    if negb zhp then ret 1
    else
      acquire Res_zpool_handle ;;;
      pool_state <- call (zpool_get_state name) ;;
      failed <-
        (if negb (pool_state =? POOL_STATE_UNAVAIL) &&
            (Z.land flags ZFS_IMPORT_ONLY =? 0)
         then
           emit (Enable_datasets name) ;;;
           rc <- call (zpool_enable_datasets name mntopts) ;;
           ret (negb (rc =? 0))
         else ret false) ;;
      if failed then
        (* zpool_close(zhp) *)
        release Res_zpool_handle ;;; ret 1
      else
        release Res_zpool_handle ;;; ret 0.

(** Lines 152-184: the check against use by another host; [true] when the
    import is refused. *)
Definition foreign_host_check (config : nvlist) (name : string)
    (state flags : Z) : M W bool :=
  if negb (state =? POOL_STATE_EXPORTED) &&
     (Z.land flags ZFS_IMPORT_ANY_HOST =? 0)
  then
    match nvlist_lookup_uint64 config ZPOOL_CONFIG_HOSTID with
    | Some hostid =>
        h <- call gethostid ;;
        let system_hostid := to_ulong (Z.land h 4294967295) in
        if negb (to_ulong hostid =? system_hostid) then
          hostname <-
            verify_lookup (nvlist_lookup_string config ZPOOL_CONFIG_HOSTNAME) ;;
          timestamp <-
            verify_lookup
              (nvlist_lookup_uint64 config ZPOOL_CONFIG_TIMESTAMP) ;;
          log (Msg_in_use_by_host name hostname (to_ulong hostid) timestamp) ;;;
          log Msg_use_f ;;;
          ret true
        else ret false
    | None =>
        log (Msg_in_use name) ;;;
        log Msg_use_f ;;;
        ret true
    end
  else ret false.

(** [do_import], lines 132-204. *)
Definition do_import (config : nvlist) (newname mntopts : option string)
    (props : option nvlist) (flags : Z) : M W Z :=
  name <- verify_lookup (nvlist_lookup_string config ZPOOL_CONFIG_POOL_NAME) ;;
  state <-
    verify_lookup (nvlist_lookup_uint64 config ZPOOL_CONFIG_POOL_STATE) ;;
  version <- verify_lookup (nvlist_lookup_uint64 config ZPOOL_CONFIG_VERSION) ;;
  if negb (SPA_VERSION_IS_SUPPORTED version) then
    log (Msg_unsupported_version name) ;;;
    ret 1
  else
    refused <- foreign_host_check config name state flags ;;
    if refused then ret 1
    else import_and_mount config name newname mntopts props flags.

(** Lines 232-234: the rewind policy; the list as far as it was built
    ([None] for a null pointer) and whether every call returned 0. *)
Definition build_policy (txg rewind_policy : Z)
    : M W (option nvlist * bool) :=
  rc <- call nv_alloc ;;
  if negb (rc =? 0) then ret (None, false)
  else
    acquire Res_policy ;;;
    let policy := [] in
    rc <- call nv_alloc ;;
    if negb (rc =? 0) then ret (Some policy, false)
    else
      let policy :=
        nvlist_add policy ZPOOL_REWIND_REQUEST_TXG (NvUint64 txg) in
      rc <- call nv_alloc ;;
      if negb (rc =? 0) then ret (Some policy, false)
      else
        let policy :=
          nvlist_add policy ZPOOL_REWIND_REQUEST (NvUint32 rewind_policy) in
        ret (Some policy, true).

(** The [while] loop of lines 270-292 over the candidates not yet visited:
    [found_config] when the loop is left. *)
Fixpoint select_config (searchguid : Z) (policy : nvlist) (pools : nvlist)
    (found_config : option nvlist) : M W (option nvlist) :=
  match pools with
  | [] => ret found_config
  | elem :: rest =>
      config <- verify_lookup (nvpair_value_nvlist elem) ;;
      pool_state <-
        verify_lookup (nvlist_lookup_uint64 config ZPOOL_CONFIG_POOL_STATE) ;;
      if pool_state =? POOL_STATE_DESTROYED then
        select_config searchguid policy rest found_config
      else
        rc <- call nv_alloc ;;
        verify (rc =? 0) ;;;
        let config := nvlist_add config ZPOOL_REWIND_POLICY (NvNvlist policy) in
        guid <-
          verify_lookup (nvlist_lookup_uint64 config ZPOOL_CONFIG_POOL_GUID) ;;
        select_config searchguid policy rest
          (if guid =? searchguid then Some config else found_config)
  end.

(** The [error:] label, lines 317-322. *)
Definition import_cleanup (pools policy : option nvlist) (err : Z) : M W Z :=
  nvlist_free pools Res_pools ;;;
  nvlist_free policy Res_policy ;;;
  (* libzfs_fini(g_zfs) *)
  release Res_libzfs_handle ;;;
  ret (if err =? 0 then 0 else 1).

(** [zpool_import_by_guid], lines 206-323. *)
Definition zpool_import_by_guid (searchguid : Z) : M W Z :=
  let flags := ZFS_IMPORT_NORMAL in
  let rewind_policy := ZPOOL_NO_REWIND in
  let txg := 18446744073709551615 in
  g_zfs <- call libzfs_init ;;
  if negb g_zfs then ret 1
  else
    acquire Res_libzfs_handle ;;;
    built <- build_policy txg rewind_policy ;;
    let '(policy, ok) := built in
    if negb ok then import_cleanup None policy 0
    else
      priv <- call priv_ineffect ;;
      if negb priv then
        log Msg_permission_denied ;;;
        nvlist_free policy Res_policy ;;;
        ret 1
      else
        found <- call (zpool_search_import searchguid) ;;
        let '(pools, idata_exists) := found in
        match pools with
        | None =>
            (if idata_exists
             then log (Msg_already_imported searchguid)
             else log (Msg_no_such_pool searchguid)) ;;;
            nvlist_free policy Res_policy ;;;
            ret 1
        | Some candidates =>
            acquire Res_pools ;;;
            found_config <-
              select_config searchguid
                (match policy with Some p => p | None => [] end)
                candidates None ;;
            err <-
              match found_config with
              | None =>
                  log (Msg_no_such_pool searchguid) ;;;
                  ret B_TRUE_int
              | Some config =>
                  rc <- do_import config None None None flags ;;
                  ret (Z.lor 0 rc)
              end ;;
            import_cleanup pools policy err
        end.

(** ** The cache reader *)

(** The body of the [while] loop of lines 420-437 for one entry. *)
Definition cachefile_entry (nvp : nvpair) : M W unit :=
  if negb (nvpair_is_nvlist nvp) then ret tt
  else
    child <- verify_lookup (nvpair_value_nvlist nvp) ;;
    log (Msg_cachefile_has_pool (nvpair_name nvp)) ;;;
    match nvlist_lookup_uint64 child ZPOOL_CONFIG_POOL_GUID with
    | Some guid =>
        log (Msg_cachefile_has_pool_guid (nvpair_name nvp) guid) ;;;
        emit (Import_by_guid guid) ;;;
        importrc <- zpool_import_by_guid guid ;;
        log (Msg_import_error importrc)
    | None => ret tt
    end.

(** The [while] loop of lines 419-437 over the entries not yet visited. *)
Fixpoint cachefile_walk (manifest : nvlist) : M W unit :=
  match manifest with
  | [] => ret tt
  | nvp :: rest => cachefile_entry nvp ;;; cachefile_walk rest
  end.

(** [zpool_read_cachefile], lines 389-445. *)
Definition zpool_read_cachefile : M W unit :=
  log Msg_reading_cachefile ;;;
  fd <- call open_cache ;;
  if fd <? 0 then ret tt
  else
    acquire Res_cache_fd ;;;
    st <- call fstat ;;
    let '(rc, st_size) := st in
    buf <-
      (if negb (rc =? 0) || (st_size =? 0) then ret false
       else
         buf <- call (kmem_alloc st_size) ;;
         if negb buf then ret false
         else
           acquire Res_cache_buf ;;;
           n <- call (read st_size) ;;
           if negb (n =? st_size) then ret true
           else
             unpacked <- call nvlist_unpack ;;
             let '(rc, manifest) := unpacked in
             if negb (rc =? 0) then ret true
             else
               acquire Res_manifest ;;;
               cachefile_walk manifest ;;;
               (* nvlist_free(nvlist) *)
               release Res_manifest ;;;
               ret true) ;;
    (* out: *)
    release Res_cache_fd ;;;
    if buf then release Res_cache_buf else ret tt.

(** An entry the walk hands to the importer: a nested record that holds a
    pool GUID. *)
Definition entry_guid (nvp : nvpair) : option Z :=
  match nvpair_value_nvlist nvp with
  | Some child => nvlist_lookup_uint64 child ZPOOL_CONFIG_POOL_GUID
  | None => None
  end.

(** The GUIDs of the entries the walk hands to the importer, in the order of
    the manifest. *)
Definition manifest_guids (manifest : nvlist) : list Z :=
  flat_map (fun nvp => match entry_guid nvp with
                        | Some g => [g]
                        | None => []
                        end) manifest.

End Importer.

(** ** Concrete collaborators *)

(** The constants as OpenZFS defines them. *)
Definition openzfs : ZfsAbi := {|
  POOL_STATE_EXPORTED := 1;
  POOL_STATE_DESTROYED := 2;
  POOL_STATE_UNAVAIL := 6;
  ZFS_IMPORT_NORMAL := 0;
  ZFS_IMPORT_ANY_HOST := 2;
  ZFS_IMPORT_ONLY := 8;
  ZPOOL_NO_REWIND := 1;
  SPA_VERSION_IS_SUPPORTED :=
    fun v => ((1 <=? v) && (v <=? 28)) || (v =? 5000);
  ZPOOL_CONFIG_POOL_NAME := "name";
  ZPOOL_CONFIG_POOL_STATE := "state";
  ZPOOL_CONFIG_POOL_GUID := "pool_guid";
  ZPOOL_CONFIG_VERSION := "version";
  ZPOOL_CONFIG_HOSTID := "hostid";
  ZPOOL_CONFIG_HOSTNAME := "hostname";
  ZPOOL_CONFIG_TIMESTAMP := "timestamp";
  ZPOOL_REWIND_POLICY := "rewind-policy";
  ZPOOL_REWIND_REQUEST_TXG := "rewind-request-txg";
  ZPOOL_REWIND_REQUEST := "rewind-request"
|}.

Module Replay.

(** The answers of a world that never changes. *)
Record script := {
  privileged : bool;
  local_hostid : Z;
  candidates : Z -> option nvlist * bool;
  import_rc : nvlist -> Z;
  cache : nvlist
}.

(** Collaborators that follow a script: the library initializes, memory is
    never short, an imported pool opens and its datasets mount, and the
    cache file reads and unpacks as [cache]. *)
Definition scripted (sc : script) : Collaborators unit := {|
  libzfs_init := fun w => (true, w);
  nv_alloc := fun w => (0, w);
  priv_ineffect := fun w => (privileged sc, w);
  zpool_search_import := fun guid w => (candidates sc guid, w);
  gethostid := fun w => (local_hostid sc, w);
  zpool_import_props := fun config _ _ _ w => (import_rc sc config, w);
  zpool_open_canfail := fun _ w => (true, w);
  zpool_get_state := fun _ w => (0, w);
  zpool_enable_datasets := fun _ _ w => (0, w);
  open_cache := fun w => (3, w);
  fstat := fun w => ((0, 4096), w);
  kmem_alloc := fun _ w => (true, w);
  read := fun size w => (size, w);
  nvlist_unpack := fun w => ((0, cache sc), w)
|}.

(** The state at the start: nothing held. *)
Definition start : state unit := {| world := tt; live := [] |}.

(** The configuration of a pool as a candidate list carries it. *)
Definition pool_config (name : string) (guid state hostid : Z) : nvlist :=
  [ Nvpair "version" (NvUint64 5000);
    Nvpair "name" (NvString name);
    Nvpair "state" (NvUint64 state);
    Nvpair "pool_guid" (NvUint64 guid);
    Nvpair "hostid" (NvUint64 hostid);
    Nvpair "hostname" (NvString "elsewhere");
    Nvpair "timestamp" (NvUint64 1700000000) ].

(** The same without the host entries. *)
Definition pool_config_no_host (name : string) (guid state : Z) : nvlist :=
  [ Nvpair "version" (NvUint64 5000);
    Nvpair "name" (NvString name);
    Nvpair "state" (NvUint64 state);
    Nvpair "pool_guid" (NvUint64 guid) ].

(** A cache file with the pools [tank] and [vault], an entry that is not a
    nested record between them and a nested record without a GUID last. *)
Definition two_pools : nvlist :=
  [ Nvpair "tank" (NvNvlist (pool_config "tank" 1111 0 7));
    Nvpair "comment" (NvString "not a pool");
    Nvpair "vault" (NvNvlist (pool_config "vault" 2222 0 7));
    Nvpair "stub" (NvNvlist [Nvpair "name" (NvString "stub")]) ].

(** A host with identifier 7 on which [tank] fails to import and [vault]
    imports. *)
Definition tank_fails : script := {|
  privileged := true;
  local_hostid := 7;
  candidates := fun guid =>
    if guid =? 1111
    then (Some [Nvpair "tank" (NvNvlist (pool_config "tank" 1111 0 7))], false)
    else if guid =? 2222
    then (Some [Nvpair "vault" (NvNvlist (pool_config "vault" 2222 0 7))],
          false)
    else (None, false);
  import_rc := fun config =>
    match nvlist_lookup_uint64 config "pool_guid" with
    | Some 1111 => 1
    | _ => 0
    end;
  cache := two_pools
|}.

(** The same host without the privilege to configure pools. *)
Definition unprivileged : script := {|
  privileged := false;
  local_hostid := 7;
  candidates := candidates tank_fails;
  import_rc := import_rc tank_fails;
  cache := two_pools
|}.

End Replay.

(** ** What [do_import] asks of a configuration *)

Section Candidate.
Context {W : Type} {C : Collaborators W} {abi : ZfsAbi}.

(** The local host identifier as line 158 reads it in the world [w]:
    [gethostid() & 0xffffffff]. *)
Definition system_hostid (w : W) : Z := Z.land (fst (gethostid w)) 4294967295.

(** A 64-bit unsigned value. *)
Definition is_u64 (x : Z) : Prop := 0 <= x < 18446744073709551616.

(** The host entries the code asserts ([verify], lines 165-168) next to a
    host identifier. *)
Definition has_host_record (config : nvlist) : Prop :=
  nvlist_lookup_uint64 config ZPOOL_CONFIG_HOSTID <> None ->
  nvlist_lookup_string config ZPOOL_CONFIG_HOSTNAME <> None /\
  nvlist_lookup_uint64 config ZPOOL_CONFIG_TIMESTAMP <> None.


(** The configuration carries the local host identifier. *)
Definition local_host (config : nvlist) (w : W) : Prop :=
  exists hostid,
    nvlist_lookup_uint64 config ZPOOL_CONFIG_HOSTID = Some hostid /\
    to_ulong hostid = system_hostid w.

End Candidate.

(** ** Properties of computations *)

Section Computations.
Context {W : Type}.

(** The computation attempts no import of its own. *)
Definition quiet {A : Type} (m : M W A) : Prop :=
  forall s, attempts (events (m s)) = [].

(** The computation returns from every state, with a value that
    satisfies [P]. *)
Definition ensures {A : Type} (P : A -> Prop) (m : M W A) : Prop :=
  forall s, exists a s', ending_of (m s) = Returned a s' /\ P a.

(** The resource ledger of a computation: started holding [pre] on top of
    anything else, it aborts, or returns a value [a] holding [post] on top
    of the same, with [Q a post]. *)
Definition shifts {A : Type} (pre : list resource)
    (Q : A -> list resource -> Prop) (m : M W A) : Prop :=
  forall s rest,
    live s = (pre ++ rest)%list ->
    ending_of (m s) = Aborted \/
    exists a s' post,
      ending_of (m s) = Returned a s' /\
      live s' = (post ++ rest)%list /\ Q a post.

(** The computation holds on return what it held at the start. *)
Definition keeps {A : Type} (m : M W A) : Prop :=
  forall pre, shifts pre (fun _ post => post = pre) m.

End Computations.

(** ** What the import path asserts of its collaborators *)

Section Contract.
Context {W : Type} {C : Collaborators W} {abi : ZfsAbi}.

(** The entries [do_import] asserts of the configuration it is given
    ([verify], lines 141-147 and 165-168). *)
Definition importable (config : nvlist) : Prop :=
  nvlist_lookup_string config ZPOOL_CONFIG_POOL_NAME <> None /\
  nvlist_lookup_uint64 config ZPOOL_CONFIG_POOL_STATE <> None /\
  nvlist_lookup_uint64 config ZPOOL_CONFIG_VERSION <> None /\
  has_host_record config.

(** The entries the code asserts of a candidate ([verify], lines 272-288
    as well). *)
Definition well_formed_candidate (elem : nvpair) : Prop :=
  exists config,
    nvpair_value_nvlist elem = Some config /\
    importable config /\
    nvlist_lookup_uint64 config ZPOOL_CONFIG_POOL_GUID <> None.

(** What the candidate loop keeps of [found_config]. *)
Definition found_importable (found : option nvlist) : Prop :=
  match found with
  | Some config => importable config
  | None => True
  end.

(** The name under which the policy is attached is not one of the names the
    code reads from a configuration. *)
Definition policy_name_is_fresh : Prop :=
  ~ In ZPOOL_REWIND_POLICY
      [ZPOOL_CONFIG_POOL_NAME; ZPOOL_CONFIG_POOL_STATE; ZPOOL_CONFIG_VERSION;
       ZPOOL_CONFIG_POOL_GUID; ZPOOL_CONFIG_HOSTID; ZPOOL_CONFIG_HOSTNAME;
       ZPOOL_CONFIG_TIMESTAMP].

(** No assertion of the import path can fail: memory is not short and the
    library hands back well-formed candidates. *)
Definition assertions_hold : Prop :=
  policy_name_is_fresh /\
  (forall w, fst (nv_alloc w) = 0) /\
  (forall guid w pools,
     fst (fst (zpool_search_import guid w)) = Some pools ->
     Forall well_formed_candidate pools).

End Contract.

(** The resources held when a run returns. *)
Definition live_after {W A : Type} (run : list event * ending W A)
    : option (list resource) :=
  match ending_of run with
  | Returned _ s => Some (live s)
  | Aborted => None
  end.

(** ** Further notions for the properties of [main] *)

Section Invocation.
Context {host : Host}.

(** [main] is called with the action [-<what>] for a device that [stat]
    finds; the scan of the mount table ends with [is_mounted] and [i]. *)
Definition reaches_action (argv : list string) (env : os_env)
    (what : ascii) (is_mounted : bool) (i : nat) : Prop :=
  exists progname action token flags,
    argv = progname :: action :: token :: flags /\
    index action 0 = "-"%char /\
    index action 1 = what /\
    stat env (blockdevice_of token) = 0 /\
    scan_mounts (blockdevice_of token) (getmntinfo env) = (is_mounted, i).


End Invocation.

(** The first [n] bytes of [s]. *)
Definition take (n : nat) (s : string) : string := String.substring 0 n s.

(** The four words read back from a text laid out as 8-4-4-4-12
    hexadecimal digits. *)
Definition parse_uuid (s : string) : Z * Z * Z * Z :=
  let f1 := take 8 s in
  let s := skip 9 s in
  let f2 := take 4 s in
  let s := skip 5 s in
  let f3 := take 4 s in
  let s := skip 5 s in
  let f4 := take 4 s in
  let s := skip 5 s in
  let f5 := take 4 s in
  let f6 := take 8 (skip 4 s) in
  (hex_value f1,
   hex_value f2 * 65536 + hex_value f3,
   hex_value f4 * 65536 + hex_value f5,
   hex_value f6).


(** ** Further notions for the properties of the importer *)

Section Refusal.
Context {abi : ZfsAbi}.


End Refusal.

Section Observations.
Context {W : Type}.

(** What a computation lets be seen: each of its events satisfies [P], and
    when it returns [a] after the events [evs], [R evs a] holds. *)
Definition observes {A : Type} (P : event -> Prop)
    (R : list event -> A -> Prop) (m : M W A) : Prop :=
  forall s,
    Forall P (events (m s)) /\
    forall a s', ending_of (m s) = Returned a s' -> R (events (m s)) a.

End Observations.

Section Selection.
Context {W : Type} {C : Collaborators W} {abi : ZfsAbi}.

(** The policy of lines 232-234 once its three calls have returned 0. *)
Definition no_rewind_policy : nvlist :=
  nvlist_add
    (nvlist_add [] ZPOOL_REWIND_REQUEST_TXG (NvUint64 18446744073709551615))
    ZPOOL_REWIND_REQUEST (NvUint32 ZPOOL_NO_REWIND).

(** [config] is what the loop of lines 270-292 makes of a candidate of
    [pools] that is not destroyed and carries the GUID searched for: the
    candidate with [policy] attached. *)
Definition candidate_for (searchguid : Z) (policy pools config : nvlist)
    : Prop :=
  exists elem config0 pool_state,
    In elem pools /\
    nvpair_value_nvlist elem = Some config0 /\
    nvlist_lookup_uint64 config0 ZPOOL_CONFIG_POOL_STATE = Some pool_state /\
    pool_state <> POOL_STATE_DESTROYED /\
    config = nvlist_add config0 ZPOOL_REWIND_POLICY (NvNvlist policy) /\
    nvlist_lookup_uint64 config ZPOOL_CONFIG_POOL_GUID = Some searchguid.

(** What [do_import] lets be seen. *)
Definition do_import_event (config : nvlist) (newname : option string)
    (flags : Z) (e : event) : Prop :=
  is_log e = true \/
  e = Import_props config flags \/
  exists name,
    nvlist_lookup_string config ZPOOL_CONFIG_POOL_NAME = Some name /\
    e = Enable_datasets (match newname with
                         | Some n => n
                         | None => name
                         end) /\
    Z.land flags ZFS_IMPORT_ONLY = 0.

(** What [zpool_import_by_guid] lets be seen: a call of the import entry
    point has the flags [ZFS_IMPORT_NORMAL] and a configuration made of a
    candidate the library found for [searchguid]; no import by GUID is
    started. *)
Definition import_by_guid_event (searchguid : Z) (e : event) : Prop :=
  match e with
  | Import_props config flags =>
      flags = ZFS_IMPORT_NORMAL /\
      exists pools w,
        fst (fst (zpool_search_import searchguid w)) = Some pools /\
        candidate_for searchguid no_rewind_policy pools config
  | Import_by_guid _ => False
  | Log _ | Enable_datasets _ => True
  end.

(** Lines 402-417 as a function of the world: the list unpacked from the
    cache file, [None] when the file does not open, is empty, or is not
    read and unpacked in full. *)
Definition read_cache (w : W) : option nvlist * W :=
  let '(fd, w) := open_cache w in
  if fd <? 0 then (None, w)
  else
    let '((rc, st_size), w) := fstat w in
    if negb (rc =? 0) || (st_size =? 0) then (None, w)
    else
      let '(buf, w) := kmem_alloc st_size w in
      if negb buf then (None, w)
      else
        let '(n, w) := read st_size w in
        if negb (n =? st_size) then (None, w)
        else
          let '((rc, manifest), w) := nvlist_unpack w in
          if negb (rc =? 0) then (None, w) else (Some manifest, w).

End Selection.

Module Faults.

(** What goes wrong in a world. *)
Record plan := {
  library_starts : bool;
  (** the allocating libnvpair calls that succeed before memory is short *)
  allocations : nat;
  cache_fd : Z;
  cache_size : Z;
  bytes_read : Z
}.

(** Collaborators that follow a script where the plan has nothing to say;
    the world counts the allocating libnvpair calls made so far. *)
Definition faulty (p : plan) (sc : Replay.script) : Collaborators nat := {|
  libzfs_init := fun w => (library_starts p, w);
  nv_alloc := fun w => (if (w <? allocations p)%nat then 0 else 12, S w);
  priv_ineffect := fun w => (Replay.privileged sc, w);
  zpool_search_import := fun guid w => (Replay.candidates sc guid, w);
  gethostid := fun w => (Replay.local_hostid sc, w);
  zpool_import_props := fun config _ _ _ w => (Replay.import_rc sc config, w);
  zpool_open_canfail := fun _ w => (true, w);
  zpool_get_state := fun _ w => (0, w);
  zpool_enable_datasets := fun _ _ w => (0, w);
  open_cache := fun w => (cache_fd p, w);
  fstat := fun w => ((0, cache_size p), w);
  kmem_alloc := fun _ w => (true, w);
  read := fun _ w => (bytes_read p, w);
  nvlist_unpack := fun w => ((0, Replay.cache sc), w)
|}.

(** The state at the start: no allocation made, nothing held. *)
Definition start : state nat := {| world := 0%nat; live := [] |}.

(** Memory runs short at the second allocating call. *)
Definition short_of_memory : plan := {|
  library_starts := true;
  allocations := 1;
  cache_fd := 3;
  cache_size := 4096;
  bytes_read := 4096
|}.

(** Memory runs short once the rewind policy is built: at the fourth
    allocating call, the [nvlist_add_nvlist] of line 279. *)
Definition short_after_policy : plan := {|
  library_starts := true;
  allocations := 3;
  cache_fd := 3;
  cache_size := 4096;
  bytes_read := 4096
|}.

(** The cache file is cut short while it is read. *)
Definition short_read : plan := {|
  library_starts := true;
  allocations := 1000;
  cache_fd := 3;
  cache_size := 4096;
  bytes_read := 1024
|}.

End Faults.
(** ** Lemmas on C strings *)

Section CStrFacts.

Lemma strrchr_none (s : string) (c : ascii) :
  strrchr s c = None -> occurs c s = false.
Proof.
  induction s as [|a t IH]; simpl; [reflexivity|].
  destruct (strrchr t c) eqn:E; [discriminate|].
  destruct (Ascii.eqb a c) eqn:Eac; [discriminate|].
  intros _. simpl. now apply IH.
Qed.

Lemma strrchr_some (s : string) (c : ascii) (p : string) :
  strrchr s c = Some p ->
  deref p = c /\ occurs c (advance p) = false.
Proof.
  revert p. induction s as [|a t IH]; simpl; intros p; [discriminate|].
  destruct (strrchr t c) eqn:E.
  - intros [= <-]. now apply IH.
  - destruct (Ascii.eqb a c) eqn:Eac; [|discriminate].
    intros [= <-]. simpl. split.
    + now apply Ascii.eqb_eq.
    + now apply strrchr_none.
Qed.

Lemma occurs_advance (c : ascii) (s : string) :
  occurs c s = false -> occurs c (advance s) = false.
Proof.
  destruct s as [|a t]; simpl; [easy|].
  intros H. now apply orb_false_iff in H.
Qed.

Lemma last_component_no_slash (token : string) :
  occurs "/" (last_component token) = false.
Proof.
  unfold last_component. destruct (strrchr token "/") eqn:E.
  - now apply strrchr_some in E.
  - now apply strrchr_none.
Qed.

End CStrFacts.

(** ** C1: the normalized short name *)

(** C1 (as stated, refuted): the token [rrdisk0] normalizes to [rdisk0],
    which begins with the byte ['r']: the normalizer drops one leading ['r']
    only. *)
Lemma normalize_devname_may_begin_with_r :
  ~ (forall token : string,
       occurs "/" (normalize_devname token) = false /\
       begins_with "r" (normalize_devname token) = false).
Proof.
  intros H. destruct (H "rrdisk0") as [_ Hr].
  vm_compute in Hr. discriminate Hr.
Qed.

(** C1 (amended): for every device token the normalized short name is the
    last path component with one leading ['r'] removed when there is one; it
    contains no ['/'], and it begins with ['r'] exactly when the last path
    component begins with two ['r'] bytes. *)
Theorem normalize_devname_spec (token : string) :
  let short := normalize_devname token in
  let base := last_component token in
  short = (if begins_with "r" base then advance base else base) /\
  occurs "/" short = false /\
  (begins_with "r" short = true <->
   begins_with "r" base = true /\ begins_with "r" (advance base) = true).
Proof.
  cbv zeta. unfold normalize_devname. fold (last_component token).
  pose proof (last_component_no_slash token) as Hns.
  destruct (last_component token) as [|a t]; simpl in *.
  - split; [reflexivity|]. split; [reflexivity|].
    split; [discriminate | intros [H _]; discriminate H].
  - destruct (Ascii.eqb a "r") eqn:Ea; simpl.
    + split; [reflexivity|]. split; [now apply orb_false_iff in Hns|].
      split; [intros H; now split | now intros [_ H]].
    + rewrite Ea. split; [reflexivity|]. split; [exact Hns|].
      split; [discriminate | intros [H _]; discriminate H].
Qed.

(** ** The mount-table scanner *)

Section ScanFacts.

(** [strlen] and [strcmp] together decide equality of byte strings. *)
Lemma strlen_strcmp_eq (s t : string) :
  (strlen s =? strlen t) && (strcmp s t =? 0) = true <-> s = t.
Proof.
  unfold strlen. split.
  - intros Hm. apply andb_true_iff in Hm. destruct Hm as [Hl Hc].
    apply Z.eqb_eq in Hl. apply Z.eqb_eq in Hc. apply Nat2Z.inj in Hl.
    revert t Hl Hc.
    induction s as [|a s IH]; intros [|b t]; simpl; intros Hl Hc;
      try discriminate; [reflexivity|].
    destruct (Ascii.eqb a b) eqn:Eab.
    + apply Ascii.eqb_eq in Eab. subst b. f_equal. apply IH; [lia|exact Hc].
    + apply Ascii.eqb_neq in Eab. exfalso. apply Eab.
      rewrite <- (ascii_nat_embedding a), <- (ascii_nat_embedding b).
      f_equal. lia.
  - intros <-. apply andb_true_iff. split; [apply Z.eqb_refl|].
    apply Z.eqb_eq. induction s as [|a s IH]; simpl; [reflexivity|].
    now rewrite Ascii.eqb_refl.
Qed.

Lemma scan_from_found (len : Z) (b : string) (rest : list statfs)
    (i j : nat) :
  len = strlen b ->
  scan_from len b rest i = (true, j) ->
  (i <= j < i + List.length rest)%nat /\
  f_mntfromname (nth (j - i) rest no_statfs) = b.
Proof.
  intros ->. revert i. induction rest as [|e rest IH]; simpl; intros i.
  - discriminate.
  - destruct ((strlen (f_mntfromname e) =? strlen b) &&
              (strcmp (f_mntfromname e) b =? 0)) eqn:Em.
    + intros [= <-]. rewrite Nat.sub_diag. split; [lia|].
      now apply strlen_strcmp_eq.
    + intros Hs. apply IH in Hs. destruct Hs as [Hr Hn]. split; [lia|].
      replace (j - i)%nat with (S (j - S i)) by lia. exact Hn.
Qed.

Lemma scan_from_missed (len : Z) (b : string) (rest : list statfs)
    (i j : nat) :
  len = strlen b ->
  scan_from len b rest i = (false, j) ->
  forall e, In e rest -> f_mntfromname e <> b.
Proof.
  intros ->. revert i. induction rest as [|e rest IH]; simpl; intros i.
  - intros _ e [].
  - destruct ((strlen (f_mntfromname e) =? strlen b) &&
              (strcmp (f_mntfromname e) b =? 0)) eqn:Em; [discriminate|].
    intros Hs e' [<- | Hin].
    + intros Heq. apply strlen_strcmp_eq in Heq. congruence.
    + now apply (IH (S i)).
Qed.

End ScanFacts.

(** C6: the scanner reports the device as mounted exactly when some mount
    entry's source path has the length of the block path and the same
    bytes; the index it leaves then names such an entry; and a mount source
    that is a strict prefix of the block path is not the matched one, a
    table of strict prefixes giving no match. *)
Theorem scan_mounts_spec (blockdevice : string) (mounts : list statfs) :
  let is_mounted := fst (scan_mounts blockdevice mounts) in
  let i := snd (scan_mounts blockdevice mounts) in
  (is_mounted = true <->
   exists e, In e mounts /\
             strlen (f_mntfromname e) = strlen blockdevice /\
             f_mntfromname e = blockdevice) /\
  (is_mounted = true ->
   (i < List.length mounts)%nat /\
   f_mntfromname (nth i mounts no_statfs) = blockdevice /\
   strict_prefix (f_mntfromname (nth i mounts no_statfs)) blockdevice
     = false) /\
  ((forall e, In e mounts ->
              strict_prefix (f_mntfromname e) blockdevice = true) ->
   is_mounted = false).
Proof.
  cbv zeta. unfold scan_mounts.
  destruct (Z.of_nat (List.length mounts) <=? 0) eqn:Enum.
  - apply Z.leb_le in Enum.
    assert (mounts = []) as -> by (destruct mounts; simpl in *; [easy|lia]).
    simpl. split; [|split]; try easy.
    split; [discriminate | intros (e & [] & _)].
  - destruct (scan_from (strlen blockdevice) blockdevice mounts 0)
      as [[|] j] eqn:Es; simpl.
    + apply scan_from_found in Es; [|reflexivity].
      destruct Es as [Hr Hn]. rewrite Nat.sub_0_r in Hn.
      split; [|split].
      * split; [intros _ | reflexivity].
        exists (nth j mounts no_statfs). split; [apply nth_In; lia|].
        now rewrite Hn.
      * intros _. split; [lia|]. split; [exact Hn|].
        unfold strict_prefix. rewrite Hn, String.eqb_refl.
        apply andb_false_r.
      * intros Hall. specialize (Hall (nth j mounts no_statfs)).
        unfold strict_prefix in Hall. rewrite Hn, String.eqb_refl in Hall.
        rewrite andb_false_r in Hall. symmetry. apply Hall.
        apply nth_In. lia.
    + pose proof (scan_from_missed _ _ _ _ _ eq_refl Es) as Hmiss.
      split; [|split]; try easy.
      split; [discriminate|]. intros (e & Hin & _ & Heq).
      now apply Hmiss in Hin.
Qed.

(** The boundary case of C6 on the spec's example: [/dev/disk3] does not
    match the block path [/dev/disk3s1]. *)
Example scan_mounts_prefix_not_matched :
  scan_mounts "/dev/disk3s1"
    [{| f_mntfromname := "/dev/disk3"; f_mntonname := "/Volumes/X" |}]
  = (false, 1%nat).
Proof. reflexivity. Qed.

(** ** 32-bit words *)

Section WordFacts.

Lemma u32_high_bits (x n : Z) :
  is_u32 x -> 32 <= n -> Z.testbit x n = false.
Proof.
  intros [H0 H1] Hn. destruct (Z.eq_dec x 0) as [->|Hx]; [apply Z.bits_0|].
  apply Z.bits_above_log2; [lia|].
  assert (Z.log2 x < 32) by (apply Z.log2_lt_pow2; lia). lia.
Qed.

Lemma u32_of_bits (x : Z) :
  0 <= x -> (forall n, 32 <= n -> Z.testbit x n = false) -> is_u32 x.
Proof.
  intros H0 Hb. split; [exact H0|].
  destruct (Z.eq_dec x 0) as [->|Hx]; [lia|].
  change 4294967296 with (2 ^ 32). apply Z.log2_lt_pow2; [lia|].
  destruct (Z.lt_ge_cases (Z.log2 x) 32) as [Hlt|Hge]; [exact Hlt|].
  specialize (Hb (Z.log2 x) Hge). rewrite Z.bit_log2 in Hb by lia.
  discriminate.
Qed.

Lemma const_high_bit (c n : Z) :
  0 <= c -> Z.log2 c < n -> Z.testbit c n = false.
Proof. intros. now apply Z.bits_above_log2. Qed.

Lemma OSSwapInt32_u32 (x : Z) : is_u32 (OSSwapInt32 x).
Proof.
  apply u32_of_bits; unfold OSSwapInt32.
  - rewrite !Z.lor_nonneg, !Z.shiftl_nonneg, !Z.shiftr_nonneg,
      !Z.land_nonneg. lia.
  - intros n Hn.
    rewrite !Z.lor_spec, !Z.shiftl_spec, !Z.shiftr_spec, !Z.land_spec by lia.
    rewrite (const_high_bit 255), (const_high_bit 65280),
      (const_high_bit 16711680), (const_high_bit 4278190080)
      by (simpl; lia).
    now rewrite !andb_false_r.
Qed.

Example OSSwapInt32_bytes : OSSwapInt32 3721182122 = 2864434397.
Proof. reflexivity. Qed.

Lemma OSSwapBigToHostInt32_u32 {host : Host} (x : Z) :
  is_u32 x -> is_u32 (OSSwapBigToHostInt32 x).
Proof.
  intros Hx. unfold OSSwapBigToHostInt32.
  destruct host_big_endian; [exact Hx | apply OSSwapInt32_u32].
Qed.

(** A property of the integers below [k], checked one by one. *)
Lemma below_cases (k : nat) (P : Z -> Prop) :
  (forall i, (i < k)%nat -> P (Z.of_nat i)) ->
  forall n, 0 <= n < Z.of_nat k -> P n.
Proof. intros HP n Hn. rewrite <- (Z2Nat.id n) by lia. apply HP. lia. Qed.

(** The goal [forall n, 0 <= n < 32 -> P n], one bit position at a time,
    each closed by [tac]. *)
Ltac each_bit tac :=
  let i := fresh "i" in
  let Hi := fresh "Hi" in
  match goal with
  | |- forall n, _ -> @?P n => apply (below_cases 32 P)
  end;
  intros i Hi;
  do 32 (destruct i as [|i]; [simpl; tac|]);
  exfalso; lia.

(** The test of line 758 holds exactly when the version nibble is 3. *)
Lemma version3_ok_iff (w2 : Z) :
  is_u32 w2 -> (version3_ok w2 = true <-> version_nibble w2 = 3).
Proof.
  intros Hw. unfold version3_ok, version_nibble. rewrite Z.eqb_eq. split.
  - intros He.
    assert (Hb : forall k, Z.testbit w2 k =
              Z.testbit w2 k && Z.testbit 4294905855 k || Z.testbit 12288 k).
    { intros k. rewrite He at 1. now rewrite Z.lor_spec, Z.land_spec. }
    apply Z.bits_inj'. intros n Hn.
    rewrite Z.land_spec, Z.shiftr_spec by lia.
    destruct (Z.lt_ge_cases n 4) as [Hlt|Hge].
    + rewrite Hb.
      assert (Hc : n = 0 \/ n = 1 \/ n = 2 \/ n = 3) by lia.
      destruct Hc as [-> | [-> | [-> | ->]]]; simpl;
        now rewrite ?andb_false_r, ?andb_true_r.
    + rewrite (const_high_bit 15), (const_high_bit 3) by (simpl; lia).
      apply andb_false_r.
  - intros Hn.
    assert (Hb : forall k, 0 <= k < 4 ->
              Z.testbit w2 (k + 12) = Z.testbit 3 k).
    { intros k Hk. rewrite <- Hn, Z.land_spec, Z.shiftr_spec by lia.
      assert (Hc : k = 0 \/ k = 1 \/ k = 2 \/ k = 3) by lia.
      destruct Hc as [-> | [-> | [-> | ->]]]; simpl; now rewrite andb_true_r. }
    apply Z.bits_inj'. intros n Hn0.
    rewrite Z.lor_spec, Z.land_spec.
    destruct (Z.lt_ge_cases n 32) as [Hlt|Hge].
    + pose proof (Hb 0 ltac:(lia)) as H12. pose proof (Hb 1 ltac:(lia)) as H13.
      pose proof (Hb 2 ltac:(lia)) as H14. pose proof (Hb 3 ltac:(lia)) as H15.
      simpl in H12, H13, H14, H15.
      assert (Hn32 : 0 <= n < Z.of_nat 32) by lia. clear Hn0 Hlt.
      revert n Hn32.
      each_bit ltac:(
        rewrite ?H12, ?H13, ?H14, ?H15, ?andb_true_r, ?andb_false_r,
          ?orb_false_r; reflexivity).
    + rewrite (u32_high_bits w2 n Hw Hge).
      rewrite (const_high_bit 12288) by (simpl; lia). reflexivity.
Qed.

(** The test of line 763 holds exactly when the variant bits are binary 10. *)
Lemma variant_ok_iff (w3 : Z) :
  is_u32 w3 -> (variant_ok w3 = true <-> variant_bits w3 = 2).
Proof.
  intros Hw. unfold variant_ok, variant_bits. rewrite Z.eqb_eq. split.
  - intros He.
    assert (Hb : forall k, Z.testbit w3 k =
       Z.testbit w3 k && Z.testbit 1073741823 k || Z.testbit 2147483648 k).
    { intros k. rewrite He at 1. now rewrite Z.lor_spec, Z.land_spec. }
    apply Z.bits_inj'. intros n Hn.
    rewrite Z.land_spec, Z.shiftr_spec by lia.
    destruct (Z.lt_ge_cases n 2) as [Hlt|Hge].
    + rewrite Hb.
      assert (Hc : n = 0 \/ n = 1) by lia.
      destruct Hc as [-> | ->]; simpl;
        now rewrite ?andb_false_r, ?andb_true_r.
    + rewrite (const_high_bit 3), (const_high_bit 2) by (simpl; lia).
      apply andb_false_r.
  - intros Hn.
    assert (Hb : forall k, 0 <= k < 2 ->
              Z.testbit w3 (k + 30) = Z.testbit 2 k).
    { intros k Hk. rewrite <- Hn, Z.land_spec, Z.shiftr_spec by lia.
      assert (Hc : k = 0 \/ k = 1) by lia.
      destruct Hc as [-> | ->]; simpl; now rewrite andb_true_r. }
    apply Z.bits_inj'. intros n Hn0.
    rewrite Z.lor_spec, Z.land_spec.
    destruct (Z.lt_ge_cases n 32) as [Hlt|Hge].
    + pose proof (Hb 0 ltac:(lia)) as H30. pose proof (Hb 1 ltac:(lia)) as H31.
      simpl in H30, H31.
      assert (Hn32 : 0 <= n < Z.of_nat 32) by lia. clear Hn0 Hlt.
      revert n Hn32.
      each_bit ltac:(
        rewrite ?H30, ?H31, ?andb_true_r, ?andb_false_r, ?orb_false_r;
        reflexivity).
    + rewrite (u32_high_bits w3 n Hw Hge).
      rewrite (const_high_bit 2147483648) by (simpl; lia). reflexivity.
Qed.

End WordFacts.

(** ** [printf]'s hexadecimal conversions *)

Section HexFacts.

Lemma length_app (s t : string) :
  String.length (s ++ t) = (String.length s + String.length t)%nat.
Proof. induction s as [|c s IH]; simpl; [reflexivity | now rewrite IH]. Qed.

Lemma app_assoc_s (s t u : string) : (s ++ t) ++ u = s ++ t ++ u.
Proof. induction s as [|c s IH]; simpl; [reflexivity | now rewrite IH]. Qed.

Lemma app_empty_r_s (s : string) : s ++ "" = s.
Proof. induction s as [|c s IH]; simpl; [reflexivity | now rewrite IH]. Qed.

Lemma length_fill (c : ascii) (n : nat) : String.length (fill c n) = n.
Proof. induction n as [|n IH]; simpl; [reflexivity | now rewrite IH]. Qed.

Lemma all_bytes_app (p : ascii -> bool) (s t : string) :
  all_bytes p (s ++ t) = all_bytes p s && all_bytes p t.
Proof.
  induction s as [|c s IH]; simpl; [reflexivity|].
  now rewrite IH, andb_assoc.
Qed.

Lemma all_bytes_fill (p : ascii -> bool) (c : ascii) (n : nat) :
  p c = true -> all_bytes p (fill c n) = true.
Proof.
  intros Hc. induction n as [|n IH]; simpl; [reflexivity|]. now rewrite Hc.
Qed.

Lemma hex_digit_upper (d : Z) :
  0 <= d < Z.of_nat 16 -> is_upper_hex (hex_digit d) = true.
Proof.
  revert d. apply (below_cases 16). intros i Hi.
  do 16 (destruct i as [|i]; [reflexivity|]). lia.
Qed.

Lemma hex_digits_upper (fuel : nat) (v : Z) (acc : string) :
  all_bytes is_upper_hex acc = true ->
  all_bytes is_upper_hex (hex_digits fuel v acc) = true.
Proof.
  revert v acc. induction fuel as [|fuel IH]; intros v acc Hacc; simpl.
  - exact Hacc.
  - assert (Hacc' : all_bytes is_upper_hex
                      (String (hex_digit (v mod 16)) acc) = true).
    { simpl. rewrite Hacc, hex_digit_upper; [reflexivity|].
      apply Z.mod_pos_bound. lia. }
    destruct (v / 16 =? 0); [exact Hacc' | now apply IH].
Qed.

Lemma hex_digits_length (fuel : nat) (v : Z) (acc : string) (k : nat) :
  0 <= v < 16 ^ Z.of_nat k -> (1 <= k)%nat ->
  (String.length (hex_digits fuel v acc) <= k + String.length acc)%nat.
Proof.
  revert v acc k. induction fuel as [|fuel IH]; intros v acc k Hv Hk; simpl.
  - lia.
  - destruct (v / 16 =? 0) eqn:Eq; simpl; [lia|].
    apply Z.eqb_neq in Eq.
    destruct k as [|[|k]]; [lia | |].
    + exfalso. apply Eq. apply Z.div_small. simpl in Hv. lia.
    + specialize (IH (v / 16) (String (hex_digit (v mod 16)) acc) (S k)).
      simpl in IH. rewrite Nat.add_succ_r in IH. apply IH; [|lia].
      replace (Z.of_nat (S (S k))) with (Z.of_nat (S k) + 1) in Hv by lia.
      rewrite Z.pow_add_r in Hv by lia. change (16 ^ 1) with 16 in Hv.
      split; [apply Z.div_pos; lia|].
      apply Z.div_lt_upper_bound; lia.
Qed.

Lemma fmt_X_length (width : nat) (v : Z) :
  (1 <= width)%nat -> 0 <= v < 16 ^ Z.of_nat width ->
  String.length (fmt_X width v) = width.
Proof.
  intros Hw Hv. unfold fmt_X, to_hex. rewrite length_app, length_fill.
  pose proof (hex_digits_length (S (Z.to_nat (Z.log2 v))) v "" width Hv Hw)
    as Hl.
  simpl String.length in Hl at 2. lia.
Qed.

Lemma fmt_X_upper (width : nat) (v : Z) :
  all_bytes is_upper_hex (fmt_X width v) = true.
Proof.
  unfold fmt_X, to_hex. rewrite all_bytes_app.
  rewrite all_bytes_fill by reflexivity.
  now rewrite hex_digits_upper.
Qed.

Lemma hex_digit_value_digit (d : Z) :
  0 <= d < Z.of_nat 16 -> hex_digit_value (hex_digit d) = d.
Proof.
  revert d. apply (below_cases 16). intros i Hi.
  do 16 (destruct i as [|i]; [reflexivity|]). lia.
Qed.

Lemma hex_value_from_app (acc : Z) (s t : string) :
  hex_value_from acc (s ++ t) = hex_value_from (hex_value_from acc s) t.
Proof.
  revert acc. induction s as [|c s IH]; intros acc; simpl; [reflexivity|].
  apply IH.
Qed.

(** The digits written in front of [acc] denote [v]. *)
Lemma hex_digits_value (fuel : nat) (v : Z) (acc : string) :
  0 <= v < 16 ^ Z.of_nat fuel ->
  exists digits,
    hex_digits fuel v acc = digits ++ acc /\
    forall a, hex_value_from a digits
              = a * 16 ^ Z.of_nat (String.length digits) + v.
Proof.
  revert v acc. induction fuel as [|fuel IH]; intros v acc Hv.
  - exists "". split; [reflexivity|]. intros a. simpl in *. lia.
  - cbn [hex_digits].
    assert (Hmod : 0 <= v mod 16 < Z.of_nat 16)
      by (apply Z.mod_pos_bound; reflexivity).
    destruct (v / 16 =? 0) eqn:Eq.
    + apply Z.eqb_eq in Eq.
      exists (String (hex_digit (v mod 16)) ""). split; [reflexivity|].
      intros a. cbn [hex_value_from String.length].
      rewrite hex_digit_value_digit by exact Hmod.
      rewrite (Z.div_mod v 16) at 2 by lia. rewrite Eq.
      change (16 ^ Z.of_nat 1) with 16. lia.
    + assert (Hq : 0 <= v / 16 < 16 ^ Z.of_nat fuel).
      { rewrite Nat2Z.inj_succ, Z.pow_succ_r in Hv by lia.
        split; [apply Z.div_pos; lia|].
        apply Z.div_lt_upper_bound; lia. }
      destruct (IH (v / 16) (String (hex_digit (v mod 16)) acc) Hq)
        as (digits & Hd & Hval).
      exists (digits ++ String (hex_digit (v mod 16)) "").
      split; [rewrite Hd; now rewrite app_assoc_s|].
      intros a. rewrite hex_value_from_app, Hval.
      cbn [hex_value_from]. rewrite hex_digit_value_digit by exact Hmod.
      rewrite length_app. cbn [String.length].
      rewrite Nat.add_1_r, Nat2Z.inj_succ, Z.pow_succ_r by lia.
      rewrite (Z.div_mod v 16) at 3 by lia. lia.
Qed.

Lemma hex_value_from_zeros (n : nat) (s : string) :
  hex_value_from 0 (fill "0" n ++ s) = hex_value_from 0 s.
Proof. induction n as [|n IH]; [reflexivity | exact IH]. Qed.

(** [%0<width>X] writes a numeral of the value it is given. *)
Lemma fmt_X_value (width : nat) (v : Z) :
  0 <= v -> hex_value (fmt_X width v) = v.
Proof.
  intros Hv. unfold hex_value, fmt_X, to_hex.
  rewrite hex_value_from_zeros.
  assert (Hlt : 0 <= v < 16 ^ Z.of_nat (S (Z.to_nat (Z.log2 v)))).
  { split; [exact Hv|].
    destruct (Z.eq_dec v 0) as [->|Hnz]; [reflexivity|].
    rewrite Nat2Z.inj_succ, Z2Nat.id by apply Z.log2_nonneg.
    apply Z.lt_le_trans with (2 ^ Z.succ (Z.log2 v)).
    - apply Z.log2_spec. lia.
    - apply Z.pow_le_mono_l. lia. }
  destruct (hex_digits_value _ v "" Hlt) as (digits & Hd & Hval).
  rewrite Hd, app_empty_r_s, Hval. lia.
Qed.

Example fmt_X_samples :
  fmt_X 8 2864434397 = "AABBCCDD" /\ fmt_X 4 255 = "00FF" /\
  fmt_X 4 0 = "0000" /\ fmt_X 4 1048575 = "FFFFF".
Proof. repeat split. Qed.

Lemma hex_run_app (a rest : string) :
  all_bytes is_upper_hex a = true ->
  hex_run (String.length a) (a ++ rest) = Some rest.
Proof.
  induction a as [|c a IH]; simpl; [reflexivity|].
  intros Hc. apply andb_true_iff in Hc. destruct Hc as [Hc Ha].
  rewrite Hc. now apply IH.
Qed.

Lemma occurs_app (c : ascii) (s t : string) :
  occurs c (s ++ t) = occurs c s || occurs c t.
Proof.
  induction s as [|a s IH]; simpl; [reflexivity|].
  now rewrite IH, orb_assoc.
Qed.

Lemma upper_hex_no_LF (s : string) :
  all_bytes is_upper_hex s = true -> occurs LF s = false.
Proof.
  induction s as [|c s IH]; simpl; [reflexivity|].
  intros Hc. apply andb_true_iff in Hc. destruct Hc as [Hc Hs].
  rewrite (IH Hs), orb_false_r.
  destruct (Ascii.eqb c LF) eqn:E; [|reflexivity].
  apply Ascii.eqb_eq in E. subst c. discriminate Hc.
Qed.

(** The two 16-bit fields the format takes from a word. *)
Lemma halves_16bit (w : Z) :
  0 <= Z.shiftr (Z.land w 4294901760) 16 < 16 ^ Z.of_nat 4 /\
  0 <= Z.land w 65535 < 16 ^ Z.of_nat 4.
Proof.
  split.
  - rewrite Z.shiftr_land. change (Z.shiftr 4294901760 16) with (Z.ones 16).
    rewrite Z.land_ones by lia. apply Z.mod_pos_bound. reflexivity.
  - change 65535 with (Z.ones 16).
    rewrite Z.land_ones by lia. apply Z.mod_pos_bound. reflexivity.
Qed.

End HexFacts.

(** ** [main]: reaching the action *)

Section MainFacts.
Context {host : Host}.

Lemma main_on_mounted_volume (argv : list string) (env : os_env)
    (what : ascii) (i : nat) :
  on_mounted_volume argv env what i ->
  main argv env = dispatch what env true i.
Proof.
  intros (progname & action & token & flags & -> & Hdash & Hwhat & Hstat
          & Hscan).
  unfold main.
  assert (Hargc : (Z.of_nat (List.length (progname :: action :: token :: flags))
                   - 1 <? 2) = false).
  { apply Z.ltb_ge. simpl List.length. lia. }
  rewrite Hargc. cbn [tl nth orb]. rewrite Hdash, Hwhat.
  cbn [Ascii.eqb Bool.eqb negb]. rewrite Hstat. cbn [Z.eqb negb].
  now rewrite Hscan.
Qed.

Lemma main_probe (argv : list string) (env : os_env) (i : nat) :
  on_mounted_volume argv env FSUC_PROBE i ->
  main argv env = probe env true i.
Proof.
  intros Hm. rewrite (main_on_mounted_volume _ _ _ _ Hm).
  unfold dispatch. now rewrite Ascii.eqb_refl.
Qed.

Lemma main_getuuid (argv : list string) (env : os_env) (i : nat) :
  FSUC_PROBE <> FSUC_GETUUID ->
  on_mounted_volume argv env FSUC_GETUUID i ->
  main argv env = getuuid env true i.
Proof.
  intros Hne Hm. rewrite (main_on_mounted_volume _ _ _ _ Hm).
  unfold dispatch.
  destruct (Ascii.eqb FSUC_GETUUID FSUC_PROBE) eqn:E.
  - apply Ascii.eqb_eq in E. congruence.
  - now rewrite Ascii.eqb_refl.
Qed.

End MainFacts.

(** ** The PROBE path *)

Section ProbeFacts.
Context {host : Host}.



End ProbeFacts.

(** C3 (as stated, refuted): on Darwin a buffer whose [length] equals
    [offsetof (struct attrNameBuf, name)] is accepted, and so is one whose
    [length] equals [sizeof (nameBuf)]: both probes exit [FSUR_RECOGNIZED],
    not [FSUR_UNRECOGNIZED]. *)
Lemma probe_accepts_lengths_at_both_bounds :
  let full := Scenario.name_buf (fill "A" 1023) in
  NameBuf.length Scenario.prefix_only_buf = @NameBuf.offsetof_name darwin /\
  @main darwin (Scenario.argv_for "p")
    (Scenario.env_of Scenario.prefix_only_buf [])
  = Exit (@FSUR_RECOGNIZED darwin) (fill NUL 1024) /\
  NameBuf.length full = @NameBuf.sizeof_nameBuf darwin /\
  @main darwin (Scenario.argv_for "p") (Scenario.env_of full [])
  = Exit (@FSUR_RECOGNIZED darwin) (fill "A" 1023 ++ fill NUL 1) /\
  @FSUR_RECOGNIZED darwin <> @FSUR_UNRECOGNIZED darwin.
Proof.
  cbv zeta. repeat split; try (vm_compute; reflexivity).
  vm_compute. discriminate.
Qed.

(** C3 (amended): in the PROBE path on a mounted volume whose attribute read
    succeeded, a buffer whose [length] is strictly below
    [offsetof (struct attrNameBuf, name)] is rejected with
    [FSUR_UNRECOGNIZED] and nothing on stdout, and so is one whose [length]
    is strictly above [sizeof (nameBuf)]; every length from the one bound to
    the other, both included, passes the two checks and the name is copied
    out. *)
Theorem probe_length_checks {host : Host} (argv : list string) (env : os_env)
    (i : nat) (nameBuf : NameBuf.t) :
  on_mounted_volume argv env FSUC_PROBE i ->
  getattrlist_name env (mntonname_at env i) = (0, nameBuf) ->
  (NameBuf.length nameBuf < NameBuf.offsetof_name ->
   main argv env = Exit FSUR_UNRECOGNIZED "") /\
  (NameBuf.length nameBuf > NameBuf.sizeof_nameBuf ->
   main argv env = Exit FSUR_UNRECOGNIZED "") /\
  (NameBuf.offsetof_name <= NameBuf.length nameBuf <= NameBuf.sizeof_nameBuf ->
   main argv env = match copy_volname nameBuf with
                   | Some volname => Exit FSUR_RECOGNIZED volname
                   | None => Undefined
                   end).
Proof.
  intros Hm Hattr. rewrite (main_probe _ _ _ Hm).
  unfold probe. cbn [negb]. rewrite Hattr. cbn [Z.eqb negb].
  split; [|split].
  - intros Hlt. apply Z.ltb_lt in Hlt. now rewrite Hlt.
  - intros Hgt.
    destruct (_ <? NameBuf.offsetof_name); [reflexivity|].
    apply Z.gt_lt, Z.gtb_lt in Hgt. now rewrite Hgt.
  - intros [Hlo Hhi].
    apply Z.ltb_ge in Hlo. rewrite Hlo.
    assert (Hle : (NameBuf.length nameBuf >? NameBuf.sizeof_nameBuf) = false).
    { rewrite Z.gtb_ltb. apply Z.ltb_ge. exact Hhi. }
    rewrite Hle. destruct (copy_volname nameBuf); reflexivity.
Qed.

(** A run of the amended C3 on Darwin, at the lower bound. *)
Lemma probe_length_checks_witness :
  on_mounted_volume (host := darwin) (Scenario.argv_for "p")
    (Scenario.env_of Scenario.prefix_only_buf []) (@FSUC_PROBE darwin) 2 /\
  @main darwin (Scenario.argv_for "p")
    (Scenario.env_of Scenario.prefix_only_buf [])
  = Exit (@FSUR_RECOGNIZED darwin) (fill NUL 1024).
Proof.
  assert (Hm : on_mounted_volume (host := darwin) (Scenario.argv_for "p")
            (Scenario.env_of Scenario.prefix_only_buf [])
            (@FSUC_PROBE darwin) 2).
  { exists "zfs.util", "-p", "disk3s1", []. repeat split. }
  split; [exact Hm|].
  destruct (probe_length_checks (host := darwin) _ _ 2 Scenario.prefix_only_buf
              Hm eq_refl) as (_ & _ & Hin).
  rewrite Hin; [vm_compute; reflexivity | vm_compute; split; discriminate].
Defined.

(** C7 (the code at the failing input): probing the mounted volume named
    [Data] exits [FSUR_RECOGNIZED], and what reaches stdout is the whole
    [volname] array: the four name bytes followed by 1020 NUL bytes. *)
Theorem probe_data_writes_whole_array :
  @main darwin (Scenario.argv_for "p")
    (Scenario.env_of (Scenario.name_buf "Data") [])
  = Exit (@FSUR_RECOGNIZED darwin) ("Data" ++ fill NUL 1020) /\
  String.length ("Data" ++ fill NUL 1020) = 1024%nat /\
  "Data" ++ fill NUL 1020 <> "Data".
Proof.
  split; [vm_compute; reflexivity|]. split; [vm_compute; reflexivity|].
  intros Heq. apply (f_equal String.length) in Heq. vm_compute in Heq.
  discriminate Heq.
Qed.

(** ** The GETUUID path *)

Section UuidFacts.

Lemma hex_run_exact (n : nat) (a rest : string) :
  String.length a = n -> all_bytes is_upper_hex a = true ->
  hex_run n (a ++ rest) = Some rest.
Proof. intros <- Ha. now apply hex_run_app. Qed.

(** Six runs of uppercase digits of lengths 8, 4, 4, 4, 4 and 8, laid out
    by the format of line 779, make a canonical UUID of 36 bytes with no
    line feed. *)
Lemma canonical_of_parts (a b c d e f : string) :
  String.length a = 8%nat -> String.length b = 4%nat ->
  String.length c = 4%nat -> String.length d = 4%nat ->
  String.length e = 4%nat -> String.length f = 8%nat ->
  all_bytes is_upper_hex a = true -> all_bytes is_upper_hex b = true ->
  all_bytes is_upper_hex c = true -> all_bytes is_upper_hex d = true ->
  all_bytes is_upper_hex e = true -> all_bytes is_upper_hex f = true ->
  let s := a ++ "-" ++ b ++ "-" ++ c ++ "-" ++ d ++ "-" ++ e ++ f in
  is_canonical_uuid s = true /\ String.length s = 36%nat /\
  occurs LF s = false.
Proof.
  intros La Lb Lc Ld Le Lf Ha Hb Hc Hd He Hf. cbv zeta.
  split; [|split].
  - unfold is_canonical_uuid.
    rewrite (hex_run_exact 8 a) by assumption.
    cbn [append dash Ascii.eqb Bool.eqb].
    rewrite (hex_run_exact 4 b) by assumption.
    cbn [append dash Ascii.eqb Bool.eqb].
    rewrite (hex_run_exact 4 c) by assumption.
    cbn [append dash Ascii.eqb Bool.eqb].
    rewrite (hex_run_exact 4 d) by assumption.
    cbn [append dash Ascii.eqb Bool.eqb].
    rewrite <- (app_empty_r_s (e ++ f)).
    rewrite (hex_run_exact 12 (e ++ f)); [reflexivity | |].
    + rewrite length_app. lia.
    + rewrite all_bytes_app, He, Hf. reflexivity.
  - rewrite !length_app. simpl String.length. lia.
  - rewrite !occurs_app.
    rewrite (upper_hex_no_LF a), (upper_hex_no_LF b), (upper_hex_no_LF c),
      (upper_hex_no_LF d), (upper_hex_no_LF e), (upper_hex_no_LF f)
      by assumption.
    reflexivity.
Qed.

Lemma format_uuid_canonical (b1 b2 b3 b4 : Z) :
  is_u32 b1 -> is_u32 b4 ->
  is_canonical_uuid (format_uuid b1 b2 b3 b4) = true /\
  String.length (format_uuid b1 b2 b3 b4) = 36%nat /\
  occurs LF (format_uuid b1 b2 b3 b4) = false.
Proof.
  intros H1 H4. unfold format_uuid.
  destruct (halves_16bit b2) as [H2h H2l].
  destruct (halves_16bit b3) as [H3h H3l].
  apply canonical_of_parts; try apply fmt_X_upper;
    apply fmt_X_length; try lia; assumption.
Qed.

Lemma format_uuid_not_empty (b1 b2 b3 b4 : Z) :
  format_uuid b1 b2 b3 b4 <> "".
Proof.
  unfold format_uuid. intros Heq. apply (f_equal String.length) in Heq.
  rewrite length_app, (length_app "-") in Heq.
  change (String.length "-") with 1%nat in Heq.
  change (String.length "") with 0%nat in Heq. lia.
Qed.

(** The GETUUID path once the attribute read has succeeded and returned at
    least five words: the two tests decide between the two exits. *)
Lemma getuuid_run {host : Host} (env : os_env) (i : nat) (buf : list Z) :
  FSUR_IO_FAIL <> 0 ->
  getattrlist_uuid env (mntonname_at env i) = (0, buf) ->
  5 * sizeof_uint32 <= nth 0 buf 0 ->
  let w1 := OSSwapBigToHostInt32 (nth 1 buf 0) in
  let w2 := OSSwapBigToHostInt32 (nth 2 buf 0) in
  let w3 := OSSwapBigToHostInt32 (nth 3 buf 0) in
  let w4 := OSSwapBigToHostInt32 (nth 4 buf 0) in
  getuuid env true i =
  if version3_ok w2 && variant_ok w3
  then Exit FSUR_IO_SUCCESS (format_uuid w1 w2 w3 w4)
  else Exit FSUR_IO_FAIL "".
Proof.
  intros Hfail Hattr Hlen. cbv zeta.
  unfold getuuid. cbn [negb]. rewrite Hattr. cbn [Z.eqb negb].
  apply Z.ltb_ge in Hlen. rewrite Hlen.
  destruct (version3_ok _), (variant_ok _); cbn [negb andb];
    rewrite ?Z.eqb_refl; try reflexivity.
  destruct (0 =? FSUR_IO_FAIL) eqn:E; [|reflexivity].
  apply Z.eqb_eq in E. congruence.
Qed.

End UuidFacts.

(** C4: in the GETUUID path on a mounted volume whose attribute read
    succeeded, with the four words swapped to host order, the UUID is
    accepted (the canonical text is printed and the exit is
    [FSUR_IO_SUCCESS]) if and only if the second word passes the test of
    line 758, which says that its version nibble is 3, and the third word
    passes the test of line 763, which says that its variant bits are binary
    10; any other UUID ends in [FSUR_IO_FAIL] with nothing on stdout. *)
Theorem getuuid_accepts_iff_valid {host : Host} (argv : list string)
    (env : os_env) (i : nat) (buf : list Z) :
  FSUR_IO_FAIL <> 0 ->
  FSUC_PROBE <> FSUC_GETUUID ->
  on_mounted_volume argv env FSUC_GETUUID i ->
  getattrlist_uuid env (mntonname_at env i) = (0, buf) ->
  5 * sizeof_uint32 <= nth 0 buf 0 ->
  is_u32 (nth 2 buf 0) -> is_u32 (nth 3 buf 0) ->
  let w1 := OSSwapBigToHostInt32 (nth 1 buf 0) in
  let w2 := OSSwapBigToHostInt32 (nth 2 buf 0) in
  let w3 := OSSwapBigToHostInt32 (nth 3 buf 0) in
  let w4 := OSSwapBigToHostInt32 (nth 4 buf 0) in
  let valid :=
    w2 = Z.lor (Z.land w2 4294905855) 12288 /\
    w3 = Z.lor (Z.land w3 1073741823) 2147483648 in
  (valid <-> version_nibble w2 = 3 /\ variant_bits w3 = 2) /\
  (main argv env = Exit FSUR_IO_SUCCESS (format_uuid w1 w2 w3 w4) <->
   valid) /\
  (~ valid -> main argv env = Exit FSUR_IO_FAIL "").
Proof.
  intros Hfail Hne Hm Hattr Hlen Hu2 Hu3. cbv zeta.
  rewrite (main_getuuid _ _ _ Hne Hm).
  set (w2 := OSSwapBigToHostInt32 (nth 2 buf 0)).
  set (w3 := OSSwapBigToHostInt32 (nth 3 buf 0)).
  assert (Hw2 : is_u32 w2) by now apply OSSwapBigToHostInt32_u32.
  assert (Hw3 : is_u32 w3) by now apply OSSwapBigToHostInt32_u32.
  pose proof (version3_ok_iff w2 Hw2) as Hv.
  pose proof (variant_ok_iff w3 Hw3) as Hr.
  assert (Hv' : version3_ok w2 = true <->
                w2 = Z.lor (Z.land w2 4294905855) 12288)
    by apply Z.eqb_eq.
  assert (Hr' : variant_ok w3 = true <->
                w3 = Z.lor (Z.land w3 1073741823) 2147483648)
    by apply Z.eqb_eq.
  pose proof (getuuid_run env i buf Hfail Hattr Hlen) as Hrun.
  cbv zeta in Hrun. fold w2 w3 in Hrun.
  rewrite Hrun. split; [tauto|]. split.
  - destruct (version3_ok w2) eqn:E2, (variant_ok w3) eqn:E3; cbn [andb].
    + split; [intros _ | reflexivity]. split; [now apply Hv' | now apply Hr'].
    + split; [intros [= _ Hout] | intros [_ Hb]].
      * symmetry in Hout. now apply format_uuid_not_empty in Hout.
      * apply Hr' in Hb. discriminate Hb.
    + split; [intros [= _ Hout] | intros [Ha _]].
      * symmetry in Hout. now apply format_uuid_not_empty in Hout.
      * apply Hv' in Ha. discriminate Ha.
    + split; [intros [= _ Hout] | intros [Ha _]].
      * symmetry in Hout. now apply format_uuid_not_empty in Hout.
      * apply Hv' in Ha. discriminate Ha.
  - intros Hnv.
    destruct (version3_ok w2), (variant_ok w3); cbn [andb];
      try reflexivity.
    exfalso. apply Hnv. tauto.
Qed.

(** A run of C4 on Darwin: a UUID whose version nibble is 4 is rejected with
    [FSUR_IO_FAIL] and an empty stdout. *)
Lemma getuuid_accepts_iff_valid_witness :
  on_mounted_volume (host := darwin) (Scenario.argv_for "k")
    (Scenario.env_of Scenario.prefix_only_buf Scenario.uuid_v4)
    FSUC_GETUUID 2 /\
  version_nibble (@OSSwapBigToHostInt32 darwin (nth 2 Scenario.uuid_v4 0))
  = 4 /\
  @main darwin (Scenario.argv_for "k")
    (Scenario.env_of Scenario.prefix_only_buf Scenario.uuid_v4)
  = Exit (@FSUR_IO_FAIL darwin) "".
Proof.
  assert (Hm : on_mounted_volume (host := darwin) (Scenario.argv_for "k")
            (Scenario.env_of Scenario.prefix_only_buf Scenario.uuid_v4)
            FSUC_GETUUID 2).
  { exists "zfs.util", "-k", "disk3s1", []. repeat split. }
  split; [exact Hm|]. split; [reflexivity|].
  assert (Hfail : @FSUR_IO_FAIL darwin <> 0) by discriminate.
  assert (Hne : @FSUC_PROBE darwin <> FSUC_GETUUID) by discriminate.
  assert (Hlen : 5 * sizeof_uint32 <= nth 0 Scenario.uuid_v4 0)
    by (vm_compute; discriminate).
  assert (Hu2 : is_u32 (nth 2 Scenario.uuid_v4 0))
    by (vm_compute; split; [discriminate|reflexivity]).
  assert (Hu3 : is_u32 (nth 3 Scenario.uuid_v4 0))
    by (vm_compute; split; [discriminate|reflexivity]).
  destruct (getuuid_accepts_iff_valid (host := darwin) _ _ 2 Scenario.uuid_v4
              Hfail Hne Hm eq_refl Hlen Hu2 Hu3) as (_ & _ & Hrej).
  apply Hrej. intros [Hv _]. vm_compute in Hv. discriminate Hv.
Defined.

(** ** The text of the UUID *)

Section UuidTextFacts.

Lemma take_app (n : nat) (a rest : string) :
  String.length a = n -> take n (a ++ rest) = a.
Proof.
  intros <-. unfold take. induction a as [|c a IH]; simpl.
  - now destruct rest.
  - now rewrite IH.
Qed.

Lemma skip_app (n : nat) (a rest : string) :
  String.length a = n -> skip n (a ++ rest) = rest.
Proof. intros <-. induction a as [|c a IH]; simpl; [reflexivity | exact IH]. Qed.

Lemma skip_app_one (n : nat) (a rest : string) (c : ascii) :
  String.length a = n -> skip (S n) (a ++ String c rest) = rest.
Proof. intros <-. induction a as [|x a IH]; simpl; [reflexivity | exact IH]. Qed.

(** A word is its two 16-bit fields put together again. *)
Lemma word_of_halves (w : Z) :
  is_u32 w ->
  Z.shiftr (Z.land w 4294901760) 16 * 65536 + Z.land w 65535 = w.
Proof.
  intros [H0 H1]. rewrite Z.shiftr_land.
  change (Z.shiftr 4294901760 16) with (Z.ones 16).
  change 65535 with (Z.ones 16).
  rewrite !Z.land_ones, Z.shiftr_div_pow2 by lia.
  change (2 ^ 16) with 65536.
  rewrite (Z.mod_small (w / 65536)).
  - rewrite Z.mul_comm. symmetry. apply Z.div_mod. lia.
  - split; [apply Z.div_pos; lia|]. apply Z.div_lt_upper_bound; lia.
Qed.

Lemma parse_of_parts (a b c d e f : string) :
  String.length a = 8%nat -> String.length b = 4%nat ->
  String.length c = 4%nat -> String.length d = 4%nat ->
  String.length e = 4%nat -> String.length f = 8%nat ->
  parse_uuid (a ++ "-" ++ b ++ "-" ++ c ++ "-" ++ d ++ "-" ++ e ++ f) =
  (hex_value a, hex_value b * 65536 + hex_value c,
   hex_value d * 65536 + hex_value e, hex_value f).
Proof.
  intros La Lb Lc Ld Le Lf. unfold parse_uuid. cbn [append].
  rewrite (take_app 8 a) by exact La.
  rewrite (skip_app_one 8 a) by exact La.
  rewrite (take_app 4 b) by exact Lb.
  rewrite (skip_app_one 4 b) by exact Lb.
  rewrite (take_app 4 c) by exact Lc.
  rewrite (skip_app_one 4 c) by exact Lc.
  rewrite (take_app 4 d) by exact Ld.
  rewrite (skip_app_one 4 d) by exact Ld.
  rewrite (take_app 4 e) by exact Le.
  rewrite (skip_app 4 e) by exact Le.
  rewrite <- (app_empty_r_s f) at 1.
  rewrite (take_app 8 f) by exact Lf. reflexivity.
Qed.

(** The text of the four words, read back. *)
Lemma parse_format_uuid (w1 w2 w3 w4 : Z) :
  is_u32 w1 -> is_u32 w2 -> is_u32 w3 -> is_u32 w4 ->
  parse_uuid (format_uuid w1 w2 w3 w4) = (w1, w2, w3, w4).
Proof.
  intros H1 H2 H3 H4. unfold format_uuid.
  destruct (halves_16bit w2) as [H2h H2l].
  destruct (halves_16bit w3) as [H3h H3l].
  rewrite parse_of_parts by (apply fmt_X_length; try lia; assumption).
  rewrite !fmt_X_value by (try apply H1; try apply H4; lia).
  now rewrite !word_of_halves.
Qed.

End UuidTextFacts.

(** C5: in the GETUUID path, when the UUID passes the two tests, the exit
    is [FSUR_IO_SUCCESS] and stdout receives the text of
    ["%08X-%04X-%04X-%04X-%04X%08X"] and nothing else: 36 bytes in the
    canonical form in uppercase hexadecimal digits, with no line feed in
    it, whose fields read back as hexadecimal numerals are the four words
    of the UUID in host order. *)
Theorem getuuid_prints_canonical {host : Host} (argv : list string)
    (env : os_env) (i : nat) (buf : list Z) :
  FSUR_IO_FAIL <> 0 ->
  FSUC_PROBE <> FSUC_GETUUID ->
  on_mounted_volume argv env FSUC_GETUUID i ->
  getattrlist_uuid env (mntonname_at env i) = (0, buf) ->
  5 * sizeof_uint32 <= nth 0 buf 0 ->
  (forall k, is_u32 (nth k buf 0)) ->
  let w1 := OSSwapBigToHostInt32 (nth 1 buf 0) in
  let w2 := OSSwapBigToHostInt32 (nth 2 buf 0) in
  let w3 := OSSwapBigToHostInt32 (nth 3 buf 0) in
  let w4 := OSSwapBigToHostInt32 (nth 4 buf 0) in
  version3_ok w2 = true -> variant_ok w3 = true ->
  exists out,
    main argv env = Exit FSUR_IO_SUCCESS out /\
    is_canonical_uuid out = true /\
    String.length out = 36%nat /\
    occurs LF out = false /\
    parse_uuid out = (w1, w2, w3, w4).
Proof.
  intros Hfail Hne Hm Hattr Hlen Hu. cbv zeta. intros Hv Hr.
  exists (format_uuid (OSSwapBigToHostInt32 (nth 1 buf 0))
            (OSSwapBigToHostInt32 (nth 2 buf 0))
            (OSSwapBigToHostInt32 (nth 3 buf 0))
            (OSSwapBigToHostInt32 (nth 4 buf 0))).
  split.
  - rewrite (main_getuuid _ _ _ Hne Hm).
    rewrite (getuuid_run env i buf Hfail Hattr Hlen). cbv zeta.
    now rewrite Hv, Hr.
  - assert (Hs : forall k, is_u32 (OSSwapBigToHostInt32 (nth k buf 0)))
      by (intros k; apply OSSwapBigToHostInt32_u32; apply Hu).
    destruct (format_uuid_canonical _ (OSSwapBigToHostInt32 (nth 2 buf 0))
                (OSSwapBigToHostInt32 (nth 3 buf 0)) _ (Hs 1%nat) (Hs 4%nat))
      as (Hcan & Hlen36 & Hlf).
    repeat split; try assumption.
    now apply parse_format_uuid.
Qed.

(** A run of C5 on Darwin: the version-3 UUID of the scenario is printed in
    its canonical form, and the text read back gives its four words. *)
Lemma getuuid_prints_canonical_witness :
  on_mounted_volume (host := darwin) (Scenario.argv_for "k")
    (Scenario.env_of Scenario.prefix_only_buf Scenario.uuid_v3)
    FSUC_GETUUID 2 /\
  @main darwin (Scenario.argv_for "k")
    (Scenario.env_of Scenario.prefix_only_buf Scenario.uuid_v3)
  = Exit (@FSUR_IO_SUCCESS darwin) "AABBCCDD-1122-3344-8899-AABBDEADBEEF" /\
  parse_uuid "AABBCCDD-1122-3344-8899-AABBDEADBEEF"
  = (2864434397, 287454020, 2291772091, 3735928559).
Proof.
  assert (Hm : on_mounted_volume (host := darwin) (Scenario.argv_for "k")
            (Scenario.env_of Scenario.prefix_only_buf Scenario.uuid_v3)
            FSUC_GETUUID 2).
  { exists "zfs.util", "-k", "disk3s1", []. repeat split. }
  split; [exact Hm|].
  assert (Hfail : @FSUR_IO_FAIL darwin <> 0) by discriminate.
  assert (Hne : @FSUC_PROBE darwin <> FSUC_GETUUID) by discriminate.
  assert (Hlen : 5 * sizeof_uint32 <= nth 0 Scenario.uuid_v3 0)
    by (vm_compute; discriminate).
  assert (Hu : forall k, is_u32 (nth k Scenario.uuid_v3 0)).
  { intros k. do 5 (destruct k as [|k];
      [vm_compute; split; [discriminate|reflexivity]|]).
    destruct k; vm_compute; split; (discriminate || reflexivity). }
  destruct (getuuid_prints_canonical (host := darwin) _ _ 2 Scenario.uuid_v3
              Hfail Hne Hm eq_refl Hlen Hu eq_refl eq_refl)
    as (out & Hout & _ & _ & _ & Hwords).
  assert (Hrun : @main darwin (Scenario.argv_for "k")
                   (Scenario.env_of Scenario.prefix_only_buf Scenario.uuid_v3)
                 = Exit (@FSUR_IO_SUCCESS darwin)
                     "AABBCCDD-1122-3344-8899-AABBDEADBEEF")
    by (vm_compute; reflexivity).
  rewrite Hrun in Hout. injection Hout as <-.
  split; [exact Hrun | exact Hwords].
Defined.

(** ** The pool importer *)

Section ImportFacts.
Context {W : Type} {C : Collaborators W} {abi : ZfsAbi}.

Lemma bind_returned {A B : Type} (m : M W A) (k : A -> M W B)
    (s s' : state W) (evs : list event) (a : A) :
  m s = (evs, Returned a s') ->
  bind m k s = ((evs ++ events (k a s'))%list, ending_of (k a s')).
Proof.
  intros Hm. unfold bind. rewrite Hm. now destruct (k a s').
Qed.


Lemma system_hostid_range (w : W) : 0 <= system_hostid w < 4294967296.
Proof.
  unfold system_hostid. change 4294967295 with (Z.ones 32).
  rewrite Z.land_ones by lia. apply Z.mod_pos_bound. reflexivity.
Qed.

Lemma to_ulong_u64 (x : Z) : is_u64 x -> to_ulong x = x.
Proof. intros Hx. unfold to_ulong. now apply Z.mod_small. Qed.

Lemma to_ulong_system_hostid (w : W) :
  to_ulong (system_hostid w) = system_hostid w.
Proof.
  apply to_ulong_u64. pose proof (system_hostid_range w). unfold is_u64. lia.
Qed.

(** The check against use by another host, case by case. *)
Lemma foreign_host_check_run (config : nvlist) (name : string)
    (pstate flags : Z) (s : state W) :
  let run := foreign_host_check config name pstate flags s in
  existsb is_import_props (events run) = false /\
  ((pstate = POOL_STATE_EXPORTED \/ Z.land flags ZFS_IMPORT_ANY_HOST <> 0 \/
    local_host config (world s)) ->
   exists s', run = ([], Returned false s') /\ live s' = live s) /\
  (pstate <> POOL_STATE_EXPORTED ->
   Z.land flags ZFS_IMPORT_ANY_HOST = 0 ->
   ~ local_host config (world s) ->
   (ending_of run = Aborted \/
    exists s', ending_of run = Returned true s' /\ live s' = live s) /\
   (has_host_record config ->
    exists s', ending_of run = Returned true s' /\ live s' = live s /\
               existsb is_log (events run) = true)).
Proof.
  cbv zeta. unfold foreign_host_check, local_host, has_host_record.
  destruct (pstate =? POOL_STATE_EXPORTED) eqn:Est; cbn [negb andb].
  { apply Z.eqb_eq in Est. split; [reflexivity|]. split.
    - intros _. exists s. now split.
    - intros Hne. contradiction. }
  apply Z.eqb_neq in Est.
  destruct (Z.land flags ZFS_IMPORT_ANY_HOST =? 0) eqn:Efl.
  2:{ apply Z.eqb_neq in Efl. split; [reflexivity|]. split.
      - intros _. exists s. now split.
      - intros _ Hz. contradiction. }
  apply Z.eqb_eq in Efl.
  destruct (nvlist_lookup_uint64 config ZPOOL_CONFIG_HOSTID)
    as [hostid|] eqn:Ehost.
  2:{ split; [reflexivity|]. split.
      - intros [He | [Hf | (h & Hh & _)]]; [contradiction | contradiction |
          discriminate Hh].
      - intros _ _ _. split; [right|intros _]; exists s; simpl; auto. }
  destruct (gethostid (world s)) as [h w'] eqn:Eh.
  assert (Hsys : system_hostid (world s) = Z.land h 4294967295)
    by (unfold system_hostid; now rewrite Eh).
  assert (Hcall : call gethostid s =
                  ([], Returned h {| world := w'; live := live s |}))
    by (unfold call; now rewrite Eh).
  rewrite (bind_returned _ _ _ _ _ _ Hcall). cbn [app].
  pose proof (to_ulong_system_hostid (world s)) as Hul.
  rewrite Hsys in Hul |- *. rewrite Hul.
  destruct (to_ulong hostid =? Z.land h 4294967295) eqn:Eid; cbn [negb].
  { apply Z.eqb_eq in Eid. split; [reflexivity|]. split.
    - intros _. eexists. split; [reflexivity|reflexivity].
    - intros _ _ Hnl. exfalso. apply Hnl. exists hostid. now split. }
  apply Z.eqb_neq in Eid.
  assert (Hnl : ~ exists hostid0, Some hostid = Some hostid0 /\
                  to_ulong hostid0 = Z.land h 4294967295).
  { intros (h0 & [= <-] & Hh0). now apply Eid. }
  destruct (nvlist_lookup_string config ZPOOL_CONFIG_HOSTNAME)
    as [hostname|] eqn:Ehn.
  2:{ split; [reflexivity|]. split.
      - intros [He | [Hf | Hl]]; contradiction.
      - intros _ _ _. split; [now left|].
        intros Hrec. destruct Hrec as [Hrec _]; [discriminate|].
        contradiction. }
  destruct (nvlist_lookup_uint64 config ZPOOL_CONFIG_TIMESTAMP)
    as [timestamp|] eqn:Ets.
  2:{ split; [reflexivity|]. split.
      - intros [He | [Hf | Hl]]; contradiction.
      - intros _ _ _. split; [now left|].
        intros Hrec. destruct Hrec as [_ Hrec]; [discriminate|].
        contradiction. }
  split; [reflexivity|]. split.
  - intros [He | [Hf | Hl]]; contradiction.
  - intros _ _ _. split; [right|intros _]; eexists; simpl; auto.
Qed.

Lemma bind_ret_l {A B : Type} (a : A) (k : A -> M W B) (s : state W) :
  bind (ret a) k s = k a s.
Proof. unfold bind, ret. now destruct (k a s). Qed.



(** The import and the mount begin with the call of the library's import
    entry point. *)
Lemma import_and_mount_calls_import (config : nvlist) (name : string)
    (newname mntopts : option string) (props : option nvlist) (flags : Z)
    (s : state W) :
  existsb is_import_props
    (events (import_and_mount config name newname mntopts props flags s))
  = true.
Proof.
  unfold import_and_mount.
  rewrite (bind_returned _ _ s s [Import_props config flags] tt eq_refl).
  reflexivity.
Qed.

End ImportFacts.


Section RefusalFacts.
Context {W : Type} {C : Collaborators W} {abi : ZfsAbi}.



End RefusalFacts.




(** ** Computations that attempt no import *)

Section QuietFacts.
Context {W : Type} {C : Collaborators W} {abi : ZfsAbi}.

Lemma attempts_app (l1 l2 : list event) :
  attempts (l1 ++ l2) = (attempts l1 ++ attempts l2)%list.
Proof. unfold attempts. apply flat_map_app. Qed.

Lemma events_bind {A B : Type} (m : M W A) (k : A -> M W B) (s : state W) :
  events (bind m k s) =
  match ending_of (m s) with
  | Returned a s' => (events (m s) ++ events (k a s'))%list
  | Aborted => events (m s)
  end.
Proof.
  unfold bind, events, ending_of. destruct (m s) as [evs [a s'|]]; cbn.
  - now destruct (k a s').
  - reflexivity.
Qed.

Lemma ending_bind {A B : Type} (m : M W A) (k : A -> M W B) (s : state W) :
  ending_of (bind m k s) =
  match ending_of (m s) with
  | Returned a s' => ending_of (k a s')
  | Aborted => Aborted
  end.
Proof.
  unfold bind, ending_of. destruct (m s) as [evs [a s'|]]; cbn.
  - now destruct (k a s').
  - reflexivity.
Qed.

Lemma quiet_bind {A B : Type} (m : M W A) (k : A -> M W B) :
  quiet m -> (forall a, quiet (k a)) -> quiet (bind m k).
Proof.
  intros Hm Hk s. rewrite events_bind.
  destruct (ending_of (m s)) as [a s'|]; [|apply Hm].
  now rewrite attempts_app, Hm, Hk.
Qed.

Lemma quiet_ret {A : Type} (a : A) : quiet (ret (W := W) a).
Proof. intros s. reflexivity. Qed.

Lemma quiet_abort {A : Type} : quiet (abort (W := W) (A := A)).
Proof. intros s. reflexivity. Qed.

Lemma quiet_call {A : Type} (f : W -> A * W) : quiet (call f).
Proof. intros s. unfold call. now destruct (f (world s)). Qed.

Lemma quiet_acquire (r : resource) : quiet (acquire (W := W) r).
Proof. intros s. reflexivity. Qed.

Lemma quiet_release (r : resource) : quiet (release (W := W) r).
Proof. intros s. reflexivity. Qed.

Lemma quiet_log (m : message) : quiet (log (W := W) m).
Proof. intros s. reflexivity. Qed.

Lemma quiet_verify (e : bool) : quiet (verify (W := W) e).
Proof. destruct e; [apply quiet_ret | apply quiet_abort]. Qed.

Lemma quiet_verify_lookup {A : Type} (o : option A) :
  quiet (verify_lookup (W := W) o).
Proof. destruct o; [apply quiet_ret | apply quiet_abort]. Qed.

Lemma quiet_nvlist_free (p : option nvlist) (r : resource) :
  quiet (nvlist_free (W := W) p r).
Proof. destruct p; [apply quiet_release | apply quiet_ret]. Qed.

Lemma quiet_import_props (config : nvlist) (flags : Z) :
  quiet (emit (W := W) (Import_props config flags)).
Proof. intros s. reflexivity. Qed.

Lemma quiet_enable_datasets (name : string) :
  quiet (emit (W := W) (Enable_datasets name)).
Proof. intros s. reflexivity. Qed.

(** One step of a proof that a computation is quiet. *)
Ltac quiet_step :=
  match goal with
  | |- quiet (bind _ _) => apply quiet_bind; [|intros]
  | |- quiet (ret _) => apply quiet_ret
  | |- quiet abort => apply quiet_abort
  | |- quiet (call _) => apply quiet_call
  | |- quiet (acquire _) => apply quiet_acquire
  | |- quiet (release _) => apply quiet_release
  | |- quiet (log _) => apply quiet_log
  | |- quiet (verify _) => apply quiet_verify
  | |- quiet (verify_lookup _) => apply quiet_verify_lookup
  | |- quiet (nvlist_free _ _) => apply quiet_nvlist_free
  | |- quiet (emit (Import_props _ _)) => apply quiet_import_props
  | |- quiet (emit (Enable_datasets _)) => apply quiet_enable_datasets
  | |- quiet (if ?b then _ else _) => destruct b
  | |- quiet (match ?o with Some _ => _ | None => _ end) => destruct o
  | |- quiet (let '(_, _) := ?p in _) => destruct p
  end.

Lemma quiet_do_import (config : nvlist) (newname mntopts : option string)
    (props : option nvlist) (flags : Z) :
  quiet (do_import config newname mntopts props flags).
Proof.
  unfold do_import, foreign_host_check, import_and_mount.
  repeat quiet_step.
Qed.

Lemma quiet_select_config (searchguid : Z) (policy pools : nvlist)
    (found : option nvlist) :
  quiet (select_config searchguid policy pools found).
Proof.
  revert found. induction pools as [|elem rest IH]; intros found; simpl.
  - apply quiet_ret.
  - repeat (apply IH || quiet_step).
Qed.

Lemma quiet_zpool_import_by_guid (searchguid : Z) :
  quiet (zpool_import_by_guid searchguid).
Proof.
  unfold zpool_import_by_guid, build_policy, import_cleanup.
  repeat (apply quiet_select_config || apply quiet_do_import || quiet_step).
Qed.

Lemma events_emit_bind {B : Type} (e : event) (k : unit -> M W B)
    (s : state W) :
  events (bind (emit e) k s) = e :: events (k tt s).
Proof. unfold bind, emit, events. now destruct (k tt s). Qed.

Lemma ending_emit_bind {B : Type} (e : event) (k : unit -> M W B)
    (s : state W) :
  ending_of (bind (emit e) k s) = ending_of (k tt s).
Proof. unfold bind, emit, ending_of. now destruct (k tt s). Qed.

(** The import attempts of one entry of the manifest: one for a nested
    record that holds a pool GUID, none for any other entry. *)
Lemma cachefile_entry_attempts (nvp : nvpair) (s : state W) :
  attempts (events (cachefile_entry nvp s)) =
  match entry_guid nvp with
  | Some g => [g]
  | None => []
  end.
Proof.
  unfold cachefile_entry, entry_guid, nvpair_is_nvlist, nvpair_value_nvlist.
  destruct (nvpair_value nvp) as [v|v|v|child|]; cbn [negb]; try reflexivity.
  unfold verify_lookup, log. rewrite bind_ret_l, events_emit_bind.
  cbn [attempts flat_map app].
  destruct (nvlist_lookup_uint64 child ZPOOL_CONFIG_POOL_GUID) as [guid|];
    [|reflexivity].
  rewrite !events_emit_bind. cbn [attempts flat_map app]. f_equal.
  assert (Hq : quiet (importrc <- zpool_import_by_guid guid ;;
                      emit (Log (Msg_import_error importrc)))%import).
  { apply quiet_bind; [apply quiet_zpool_import_by_guid|].
    intros. apply quiet_log. }
  apply Hq.
Qed.

Lemma manifest_guids_cons (nvp : nvpair) (rest : nvlist) :
  manifest_guids (nvp :: rest) =
  (match entry_guid nvp with
   | Some g => [g]
   | None => []
   end ++ manifest_guids rest)%list.
Proof. reflexivity. Qed.

(** The attempts of the walk are, in order, the GUIDs of the manifest up to
    the point the walk reached. *)
Lemma cachefile_walk_prefix (manifest : nvlist) (s : state W) :
  exists rest,
    manifest_guids manifest =
    (attempts (events (cachefile_walk manifest s)) ++ rest)%list.
Proof.
  revert s. induction manifest as [|nvp l IH]; intros s.
  - now exists [].
  - cbn [cachefile_walk]. rewrite events_bind, manifest_guids_cons.
    pose proof (cachefile_entry_attempts nvp s) as He.
    destruct (ending_of (cachefile_entry nvp s)) as [[] s1|].
    + destruct (IH s1) as [rest Hrest]. exists rest.
      now rewrite attempts_app, He, Hrest, app_assoc.
    + exists (manifest_guids l). now rewrite He.
Qed.

(** A walk that reaches the end of the manifest has attempted every GUID of
    it. *)
Lemma cachefile_walk_complete (manifest : nvlist) (s s' : state W) :
  ending_of (cachefile_walk manifest s) = Returned tt s' ->
  attempts (events (cachefile_walk manifest s)) = manifest_guids manifest.
Proof.
  revert s. induction manifest as [|nvp l IH]; intros s.
  - reflexivity.
  - cbn [cachefile_walk]. rewrite events_bind, ending_bind, manifest_guids_cons.
    pose proof (cachefile_entry_attempts nvp s) as He.
    destruct (ending_of (cachefile_entry nvp s)) as [[] s1|]; [|discriminate].
    intros Hend. now rewrite attempts_app, He, (IH s1 Hend).
Qed.

(** An entry without a pool GUID leaves the state as it was. *)
Lemma cachefile_entry_skip (nvp : nvpair) (s : state W) :
  entry_guid nvp = None ->
  cachefile_entry nvp s =
  (if nvpair_is_nvlist nvp
   then [Log (Msg_cachefile_has_pool (nvpair_name nvp))]
   else [],
   Returned tt s).
Proof.
  unfold cachefile_entry, entry_guid, nvpair_is_nvlist, nvpair_value_nvlist.
  destruct (nvpair_value nvp) as [v|v|v|child|]; cbn [negb]; try reflexivity.
  unfold verify_lookup. rewrite bind_ret_l. intros ->. reflexivity.
Qed.

End QuietFacts.

(** C10: in the walk of the cache reader, an entry whose value is not a
    nested record, or whose nested record has no pool GUID, is passed over:
    the state is left as it was (no collaborator is called, nothing is
    acquired), the only event is the line that announces a nested record,
    so no import is attempted and no import error is logged, and the walk
    goes on with the entries that follow. *)
Theorem cachefile_walk_skips_entry {W : Type} {C : Collaborators W}
    {abi : ZfsAbi}
    (nvp : nvpair) (rest : nvlist) (s : state W) :
  nvpair_is_nvlist nvp = false \/
  (exists child, nvpair_value_nvlist nvp = Some child /\
                 nvlist_lookup_uint64 child ZPOOL_CONFIG_POOL_GUID = None) ->
  let note := if nvpair_is_nvlist nvp
              then [Log (Msg_cachefile_has_pool (nvpair_name nvp))]
              else [] in
  cachefile_entry nvp s = (note, Returned tt s) /\
  attempts note = [] /\
  (forall importrc, ~ In (Log (Msg_import_error importrc)) note) /\
  cachefile_walk (nvp :: rest) s =
  ((note ++ events (cachefile_walk rest s))%list,
   ending_of (cachefile_walk rest s)).
Proof.
  intros Hskip. cbv zeta.
  assert (Hguid : entry_guid nvp = None).
  { unfold entry_guid. destruct Hskip as [Hn | (child & -> & Hc)].
    - unfold nvpair_is_nvlist, nvpair_value_nvlist in *.
      now destruct (nvpair_value nvp).
    - exact Hc. }
  pose proof (cachefile_entry_skip nvp s Hguid) as Hentry.
  split; [exact Hentry|]. split; [|split].
  - now destruct (nvpair_is_nvlist nvp).
  - intros rc. destruct (nvpair_is_nvlist nvp); [|intros []].
    intros [Hin | []]. discriminate Hin.
  - cbn [cachefile_walk]. now rewrite (bind_returned _ _ _ _ _ _ Hentry).
Qed.

(** A run of C10 on the cache of the scenario: the entry that is not a
    nested record changes nothing, and the walk goes on to [vault]. *)
Lemma cachefile_walk_skips_entry_witness :
  let comment := Nvpair "comment" (NvString "not a pool") in
  let rest := [Nvpair "vault" (NvNvlist (Replay.pool_config "vault" 2222 0 7))]
  in
  nvpair_is_nvlist comment = false /\
  cachefile_entry (C := Replay.scripted Replay.tank_fails) (abi := openzfs)
    comment Replay.start = ([], Returned tt Replay.start) /\
  attempts
    (events
       (cachefile_walk (C := Replay.scripted Replay.tank_fails)
          (abi := openzfs) (comment :: rest) Replay.start)) = [2222].
Proof.
  cbv zeta. split; [reflexivity|].
  destruct (cachefile_walk_skips_entry
              (C := Replay.scripted Replay.tank_fails) (abi := openzfs)
              (Nvpair "comment" (NvString "not a pool"))
              [Nvpair "vault"
                 (NvNvlist (Replay.pool_config "vault" 2222 0 7))]
              Replay.start (or_introl eq_refl))
    as (Hentry & _ & _ & Hwalk).
  split; [exact Hentry|]. rewrite Hwalk. vm_compute. reflexivity.
Defined.

(** ** Computations that return *)

Section EnsuresFacts.
Context {W : Type} {C : Collaborators W} {abi : ZfsAbi}.

Lemma ensures_bind {A B : Type} (P : A -> Prop) (Q : B -> Prop)
    (m : M W A) (k : A -> M W B) :
  ensures P m -> (forall a, P a -> ensures Q (k a)) -> ensures Q (bind m k).
Proof.
  intros Hm Hk s. destruct (Hm s) as (a & s1 & Hend & Ha).
  rewrite ending_bind, Hend. apply (Hk a Ha).
Qed.

Lemma ensures_ret {A : Type} (P : A -> Prop) (a : A) :
  P a -> ensures P (ret (W := W) a).
Proof. intros Ha s. now exists a, s. Qed.

Lemma ensures_bind_ret {A B : Type} (Q : B -> Prop) (a : A)
    (k : A -> M W B) :
  ensures Q (k a) -> ensures Q (bind (ret a) k).
Proof. intros Hk s. rewrite bind_ret_l. apply Hk. Qed.

Lemma ensures_call {A : Type} (P : A -> Prop) (f : W -> A * W) :
  (forall w, P (fst (f w))) -> ensures P (call f).
Proof.
  intros Hf s. unfold call. specialize (Hf (world s)).
  destruct (f (world s)) as [a w]. now eexists _, _.
Qed.

Lemma ensures_emit (e : event) : ensures (fun _ => True) (emit (W := W) e).
Proof. intros s. now exists tt, s. Qed.

Lemma ensures_acquire (r : resource) :
  ensures (fun _ => True) (acquire (W := W) r).
Proof. intros s. now eexists tt, _. Qed.

Lemma ensures_release (r : resource) :
  ensures (fun _ => True) (release (W := W) r).
Proof. intros s. now eexists tt, _. Qed.

Lemma ensures_nvlist_free (p : option nvlist) (r : resource) :
  ensures (fun _ => True) (nvlist_free (W := W) p r).
Proof. destruct p; [apply ensures_release | now apply ensures_ret]. Qed.

(** One step of a proof that a computation returns. *)
Ltac returns_step :=
  match goal with
  | |- ensures _ (bind (call _) _) =>
      apply (ensures_bind (fun _ => True));
      [now apply ensures_call | intros ? _]
  | |- ensures _ (bind (emit _) _) =>
      apply (ensures_bind (fun _ => True)); [apply ensures_emit | intros ? _]
  | |- ensures _ (bind (log _) _) =>
      apply (ensures_bind (fun _ => True)); [apply ensures_emit | intros ? _]
  | |- ensures _ (bind (acquire _) _) =>
      apply (ensures_bind (fun _ => True)); [apply ensures_acquire | intros ? _]
  | |- ensures _ (bind (release _) _) =>
      apply (ensures_bind (fun _ => True)); [apply ensures_release | intros ? _]
  | |- ensures _ (bind (nvlist_free _ _) _) =>
      apply (ensures_bind (fun _ => True));
      [apply ensures_nvlist_free | intros ? _]
  | |- ensures _ (bind (ret _) _) => apply ensures_bind_ret
  | |- ensures _ (bind (if ?b then _ else _) _) => destruct b
  | |- ensures _ (bind (bind _ _) _) =>
      apply (ensures_bind (fun _ => True)); [|intros ? _]
  | |- ensures _ (ret _) => now apply ensures_ret
  | |- ensures _ (log _) => apply ensures_emit
  | |- ensures _ (if ?b then _ else _) => destruct b
  end.

Lemma lookup_uint64_add_other (nvl : nvlist) (name k : string) (v : nvvalue) :
  k <> name ->
  nvlist_lookup_uint64 (nvlist_add nvl name v) k = nvlist_lookup_uint64 nvl k.
Proof.
  intros Hk. unfold nvlist_add.
  assert (Hnk : String.eqb name k = false)
    by (apply String.eqb_neq; congruence).
  induction nvl as [|[n val] rest IH]; cbn [filter app nvpair_name].
  - destruct v; cbn; try reflexivity. now rewrite Hnk.
  - destruct (String.eqb n name) eqn:En; cbn [negb].
    + apply String.eqb_eq in En. subst n. rewrite IH.
      destruct val; cbn; try reflexivity. now rewrite Hnk.
    + cbn [app]. destruct val; cbn; try exact IH.
      destruct (String.eqb n k); [reflexivity | exact IH].
Qed.

Lemma lookup_string_add_other (nvl : nvlist) (name k : string) (v : nvvalue) :
  k <> name ->
  nvlist_lookup_string (nvlist_add nvl name v) k = nvlist_lookup_string nvl k.
Proof.
  intros Hk. unfold nvlist_add.
  assert (Hnk : String.eqb name k = false)
    by (apply String.eqb_neq; congruence).
  induction nvl as [|[n val] rest IH]; cbn [filter app nvpair_name].
  - destruct v; cbn; try reflexivity. now rewrite Hnk.
  - destruct (String.eqb n name) eqn:En; cbn [negb].
    + apply String.eqb_eq in En. subst n. rewrite IH.
      destruct val; cbn; try reflexivity. now rewrite Hnk.
    + cbn [app]. destruct val; cbn; try exact IH.
      destruct (String.eqb n k); [reflexivity | exact IH].
Qed.

(** Attaching the policy keeps what [do_import] asserts. *)
Lemma importable_with_policy (config policy : nvlist) :
  policy_name_is_fresh -> importable config ->
  importable (nvlist_add config ZPOOL_REWIND_POLICY (NvNvlist policy)).
Proof.
  unfold policy_name_is_fresh, importable, has_host_record. cbn [In].
  intros Hfresh (Hn & Hs & Hv & Hrec).
  rewrite !lookup_uint64_add_other, !lookup_string_add_other
    by (intros Heq; apply Hfresh; rewrite Heq; tauto).
  tauto.
Qed.

Lemma foreign_host_check_returns (config : nvlist) (name : string)
    (pstate flags : Z) :
  has_host_record config ->
  ensures (fun _ => True) (foreign_host_check config name pstate flags).
Proof.
  intros Hrec. unfold foreign_host_check, has_host_record in *.
  destruct (_ && _); [|now apply ensures_ret].
  destruct (nvlist_lookup_uint64 config ZPOOL_CONFIG_HOSTID) as [hostid|].
  - destruct Hrec as [Hn Ht]; [discriminate|].
    destruct (nvlist_lookup_string config ZPOOL_CONFIG_HOSTNAME); [|easy].
    destruct (nvlist_lookup_uint64 config ZPOOL_CONFIG_TIMESTAMP); [|easy].
    unfold verify_lookup. repeat returns_step.
  - repeat returns_step.
Qed.

Lemma import_and_mount_returns (config : nvlist) (name : string)
    (newname mntopts : option string) (props : option nvlist) (flags : Z) :
  ensures (fun _ => True)
    (import_and_mount config name newname mntopts props flags).
Proof. unfold import_and_mount. repeat returns_step. Qed.

Lemma do_import_returns (config : nvlist) (newname mntopts : option string)
    (props : option nvlist) (flags : Z) :
  importable config ->
  ensures (fun _ => True) (do_import config newname mntopts props flags).
Proof.
  intros (Hn & Hs & Hv & Hrec). unfold do_import.
  destruct (nvlist_lookup_string config ZPOOL_CONFIG_POOL_NAME); [|easy].
  destruct (nvlist_lookup_uint64 config ZPOOL_CONFIG_POOL_STATE); [|easy].
  destruct (nvlist_lookup_uint64 config ZPOOL_CONFIG_VERSION); [|easy].
  unfold verify_lookup.
  do 3 apply ensures_bind_ret.
  destruct (negb _); [repeat returns_step|].
  apply (ensures_bind (fun _ => True));
    [now apply foreign_host_check_returns | intros refused _].
  destruct refused; [now apply ensures_ret | apply import_and_mount_returns].
Qed.

Lemma select_config_returns (searchguid : Z) (policy pools : nvlist)
    (found : option nvlist) :
  policy_name_is_fresh ->
  (forall w, fst (nv_alloc w) = 0) ->
  Forall well_formed_candidate pools ->
  found_importable found ->
  ensures found_importable (select_config searchguid policy pools found).
Proof.
  intros Hfresh Halloc Hpools. revert found.
  induction Hpools as [|elem rest (config & Hval & Himp & Hguid) _ IH];
    intros found Hfound; cbn [select_config].
  - now apply ensures_ret.
  - rewrite Hval. unfold verify_lookup at 1.
    apply ensures_bind_ret.
    pose proof Himp as (_ & Hs & _).
    destruct (nvlist_lookup_uint64 config ZPOOL_CONFIG_POOL_STATE)
      as [pstate|]; [|easy].
    unfold verify_lookup at 1.
    apply ensures_bind_ret.
    destruct (pstate =? POOL_STATE_DESTROYED); [now apply IH|].
    apply (ensures_bind (fun rc => rc = 0));
      [now apply ensures_call | intros rc ->].
    cbn [Z.eqb verify].
    apply ensures_bind_ret.
    rewrite lookup_uint64_add_other
      by (intros Heq; apply Hfresh; rewrite Heq; cbn [In]; tauto).
    destruct (nvlist_lookup_uint64 config ZPOOL_CONFIG_POOL_GUID)
      as [guid|]; [|easy].
    unfold verify_lookup.
    apply ensures_bind_ret.
    apply IH. destruct (guid =? searchguid); [|exact Hfound].
    now apply importable_with_policy.
Qed.

Lemma build_policy_returns (txg rewind_policy : Z) :
  (forall w, fst (nv_alloc w) = 0) ->
  ensures (fun built => snd built = true /\ fst built <> None)
    (build_policy txg rewind_policy).
Proof.
  intros Halloc. unfold build_policy.
  apply (ensures_bind (fun rc => rc = 0));
    [now apply ensures_call | intros rc ->]. cbn [Z.eqb negb].
  returns_step.
  apply (ensures_bind (fun rc => rc = 0));
    [now apply ensures_call | intros rc ->]. cbn [Z.eqb negb].
  apply (ensures_bind (fun rc => rc = 0));
    [now apply ensures_call | intros rc ->]. cbn [Z.eqb negb].
  apply ensures_ret. now split.
Qed.

Lemma import_cleanup_returns (pools policy : option nvlist) (err : Z) :
  ensures (fun _ => True) (import_cleanup (W := W) pools policy err).
Proof. unfold import_cleanup. repeat returns_step. Qed.

(** Under the assertions of the import path, the importer returns. *)
Lemma zpool_import_by_guid_returns (searchguid : Z) :
  assertions_hold ->
  ensures (fun _ => True) (zpool_import_by_guid searchguid).
Proof.
  intros (Hfresh & Halloc & Hsearch). unfold zpool_import_by_guid.
  returns_step. destruct (negb _); [now apply ensures_ret|].
  returns_step.
  apply (ensures_bind _ _ _ _ (build_policy_returns _ _ Halloc)).
  intros [policy ok] [Hok Hpol]. cbn [fst snd] in Hok, Hpol. subst ok.
  cbn [negb]. returns_step. destruct (negb _); [repeat returns_step|].
  apply (ensures_bind
           (fun found => forall pools, fst found = Some pools ->
                                       Forall well_formed_candidate pools)).
  { apply ensures_call. intros w pools Hp. now apply (Hsearch searchguid w). }
  intros [[pools|] idata_exists] Hp; cbn [fst] in Hp.
  - returns_step.
    apply (ensures_bind found_importable).
    { apply select_config_returns; auto. exact I. }
    intros [config|] Hfound.
    + apply (ensures_bind (fun _ => True));
        [|intros; apply import_cleanup_returns].
      apply (ensures_bind (fun _ => True));
        [now apply do_import_returns | intros; now apply ensures_ret].
    + apply (ensures_bind (fun _ => True));
        [|intros; apply import_cleanup_returns].
      repeat returns_step.
  - apply (ensures_bind (fun _ => True)).
    + destruct idata_exists; apply ensures_emit.
    + intros ? _. repeat returns_step.
Qed.

Lemma cachefile_entry_returns (nvp : nvpair) :
  assertions_hold -> ensures (fun _ => True) (cachefile_entry nvp).
Proof.
  intros Hc. unfold cachefile_entry, nvpair_is_nvlist, nvpair_value_nvlist.
  destruct (nvpair_value nvp) as [v|v|v|child|]; cbn [negb];
    try now apply ensures_ret.
  unfold verify_lookup.
  apply ensures_bind_ret.
  returns_step.
  destruct (nvlist_lookup_uint64 child ZPOOL_CONFIG_POOL_GUID) as [guid|];
    [|now apply ensures_ret].
  do 2 returns_step.
  apply (ensures_bind (fun _ => True));
    [now apply zpool_import_by_guid_returns | intros; apply ensures_emit].
Qed.

Lemma cachefile_walk_returns (manifest : nvlist) :
  assertions_hold -> ensures (fun _ => True) (cachefile_walk manifest).
Proof.
  intros Hc. induction manifest as [|nvp rest IH]; cbn [cachefile_walk].
  - now apply ensures_ret.
  - apply (ensures_bind (fun _ => True));
      [now apply cachefile_entry_returns | intros ? _; exact IH].
Qed.

End EnsuresFacts.

Section WalkFacts.
Context {W : Type} {C : Collaborators W} {abi : ZfsAbi}.

(** Whatever the importer returns for an entry, the walk goes on with the
    entries that follow, from the state the importer left. *)
Lemma cachefile_walk_continues (nvp : nvpair) (rest : nvlist) (guid rc : Z)
    (evs : list event) (s s1 : state W) :
  entry_guid nvp = Some guid ->
  zpool_import_by_guid guid s = (evs, Returned rc s1) ->
  ending_of (cachefile_walk (nvp :: rest) s) =
  ending_of (cachefile_walk rest s1).
Proof.
  intros Hguid Himp. cbn [cachefile_walk]. rewrite ending_bind.
  assert (Hentry : ending_of (cachefile_entry nvp s) = Returned tt s1).
  { revert Hguid.
    unfold cachefile_entry, entry_guid, nvpair_is_nvlist, nvpair_value_nvlist.
    destruct (nvpair_value nvp) as [v|v|v|child|]; try discriminate.
    intros Hg. cbn [negb]. unfold verify_lookup, log.
    rewrite bind_ret_l, ending_emit_bind, Hg, !ending_emit_bind.
    rewrite ending_bind, Himp. reflexivity. }
  now rewrite Hentry.
Qed.

End WalkFacts.

(** C9 (as amended): the walk over the unpacked manifest attempts the
    imports in the order of the manifest: at any point its attempts are the GUIDs of the
    entries that hold one, in order, up to the entry it reached; when the
    importer returns for an entry, whatever it returns, the walk goes on with
    the next entry; a walk that reaches the end has made one attempt per
    such entry; and it reaches the end whenever no assertion of the import
    path fails. *)
Theorem cachefile_walk_attempts_in_order {W : Type} {C : Collaborators W}
    {abi : ZfsAbi} (manifest : nvlist) (s : state W) :
  let run := cachefile_walk manifest s in
  (exists rest,
     manifest_guids manifest = (attempts (events run) ++ rest)%list) /\
  (forall nvp rest guid rc evs s1,
     manifest = nvp :: rest ->
     entry_guid nvp = Some guid ->
     zpool_import_by_guid guid s = (evs, Returned rc s1) ->
     ending_of run = ending_of (cachefile_walk rest s1)) /\
  (forall s', ending_of run = Returned tt s' ->
              attempts (events run) = manifest_guids manifest) /\
  (assertions_hold ->
   exists s', ending_of run = Returned tt s' /\
              attempts (events run) = manifest_guids manifest).
Proof.
  cbv zeta. split; [apply cachefile_walk_prefix|]. split; [|split].
  - intros nvp rest guid rc evs s1 -> Hguid Himp.
    now apply (cachefile_walk_continues nvp rest guid rc evs).
  - apply cachefile_walk_complete.
  - intros Hc.
    destruct (cachefile_walk_returns manifest Hc s) as ([] & s' & Hend & _).
    exists s'. split; [exact Hend|].
    now apply (cachefile_walk_complete manifest s s').
Qed.

(** C9 (the claim as stated): on the cache with [tank] and [vault], when
    memory runs short at the [nvlist_add_nvlist] of line 279 during the
    import of [tank], the assertion there fails: the walk ends with one
    attempt, and [vault], which qualifies, is never attempted. *)
Theorem cachefile_walk_stops_at_failed_assertion :
  let run :=
    cachefile_walk
      (C := Faults.faulty Faults.short_after_policy Replay.tank_fails)
      (abi := openzfs) Replay.two_pools Faults.start in
  manifest_guids (abi := openzfs) Replay.two_pools = [1111; 2222] /\
  attempts (events run) = [1111] /\
  ending_of run = Aborted /\
  attempts (events run) <> manifest_guids (abi := openzfs) Replay.two_pools.
Proof.
  cbv zeta. repeat split. discriminate.
Qed.

Section ReplayFacts.

(** The scripted collaborators of the scenario keep every assertion of the
    import path. *)
Lemma tank_fails_assertions_hold :
  assertions_hold (C := Replay.scripted Replay.tank_fails) (abi := openzfs).
Proof.
  split; [|split].
  - cbv. intuition discriminate.
  - intros w. reflexivity.
  - intros guid w pools. cbn.
    assert (Hwf : forall name g,
              well_formed_candidate (abi := openzfs)
                (Nvpair name (NvNvlist (Replay.pool_config name g 0 7)))).
    { intros name g. eexists. split; [reflexivity|].
      repeat split; try discriminate. }
    destruct (guid =? 1111); [intros [= <-]; repeat constructor; apply Hwf|].
    destruct (guid =? 2222); [intros [= <-]; repeat constructor; apply Hwf|].
    discriminate.
Qed.

End ReplayFacts.

(** A run of C9 on the cache of the scenario: [tank] fails to import, and
    the walk still attempts [vault] after it, in the order of the cache. *)
Lemma cachefile_walk_attempts_in_order_witness :
  let run :=
    cachefile_walk (C := Replay.scripted Replay.tank_fails) (abi := openzfs)
      Replay.two_pools Replay.start in
  assertions_hold (C := Replay.scripted Replay.tank_fails) (abi := openzfs) /\
  attempts (events run) = [1111; 2222] /\
  In (Log (Msg_import_error 1)) (events run).
Proof.
  cbv zeta.
  destruct (cachefile_walk_attempts_in_order
              (C := Replay.scripted Replay.tank_fails) (abi := openzfs)
              Replay.two_pools Replay.start) as (_ & _ & _ & Hall).
  destruct (Hall tank_fails_assertions_hold) as (s' & _ & Hatt).
  split; [exact tank_fails_assertions_hold|].
  split; [rewrite Hatt; reflexivity|].
  vm_compute. tauto.
Defined.

(** ** The resource ledger of the importer *)

Section LedgerFacts.
Context {W : Type} {C : Collaborators W} {abi : ZfsAbi}.

Lemma shifts_bind {A B : Type} (pre : list resource)
    (Q : A -> list resource -> Prop) (R : B -> list resource -> Prop)
    (m : M W A) (k : A -> M W B) :
  shifts pre Q m ->
  (forall a post, Q a post -> shifts post R (k a)) ->
  shifts pre R (bind m k).
Proof.
  intros Hm Hk s rest Hlive. rewrite ending_bind.
  destruct (Hm s rest Hlive) as [-> | (a & s1 & post & -> & Hl1 & HQ)].
  - now left.
  - exact (Hk a post HQ s1 rest Hl1).
Qed.

Lemma shifts_weaken {A : Type} (pre : list resource)
    (Q R : A -> list resource -> Prop) (m : M W A) :
  shifts pre Q m -> (forall a post, Q a post -> R a post) -> shifts pre R m.
Proof.
  intros Hm HQR s rest Hlive.
  destruct (Hm s rest Hlive) as [-> | (a & s1 & post & -> & Hl1 & HQ)].
  - now left.
  - right. exists a, s1, post. auto.
Qed.

Lemma shifts_ret {A : Type} (pre : list resource) (a : A) :
  shifts pre (fun _ post => post = pre) (ret (W := W) a).
Proof. intros s rest Hlive. right. now exists a, s, pre. Qed.

Lemma shifts_ret_with {A : Type} (pre : list resource)
    (Q : A -> list resource -> Prop) (a : A) :
  Q a pre -> shifts pre Q (ret (W := W) a).
Proof. intros HQ s rest Hlive. right. now exists a, s, pre. Qed.

Lemma shifts_abort {A : Type} (pre : list resource)
    (Q : A -> list resource -> Prop) :
  shifts pre Q (abort (W := W)).
Proof. intros s rest Hlive. now left. Qed.

Lemma shifts_emit (pre : list resource) (e : event) :
  shifts pre (fun _ post => post = pre) (emit (W := W) e).
Proof. intros s rest Hlive. right. now exists tt, s, pre. Qed.

Lemma shifts_call {A : Type} (pre : list resource) (f : W -> A * W) :
  shifts pre (fun _ post => post = pre) (call f).
Proof.
  intros s rest Hlive. right. unfold call.
  destruct (f (world s)) as [a w]. now eexists a, _, pre.
Qed.

Lemma shifts_acquire (pre : list resource) (r : resource) :
  shifts pre (fun _ post => post = r :: pre) (acquire (W := W) r).
Proof.
  intros s rest Hlive. right. eexists tt, _, (r :: pre).
  cbn. now rewrite Hlive.
Qed.

Lemma resource_eqb_refl (r : resource) : resource_eqb r r = true.
Proof. now destruct r. Qed.

Lemma shifts_release (pre : list resource) (r : resource) :
  shifts (r :: pre) (fun _ post => post = pre) (release (W := W) r).
Proof.
  intros s rest Hlive. right. eexists tt, _, pre.
  cbn. now rewrite Hlive, <- app_comm_cons; cbn; rewrite resource_eqb_refl.
Qed.

Lemma shifts_verify (pre : list resource) (e : bool) :
  shifts pre (fun _ post => post = pre) (verify (W := W) e).
Proof. destruct e; [apply shifts_ret | apply shifts_abort]. Qed.

Lemma shifts_verify_lookup {A : Type} (pre : list resource) (o : option A) :
  shifts pre (fun _ post => post = pre) (verify_lookup (W := W) o).
Proof. destruct o; [apply shifts_ret | apply shifts_abort]. Qed.

Lemma keeps_bind {A B : Type} (m : M W A) (k : A -> M W B) :
  keeps m -> (forall a, keeps (k a)) -> keeps (bind m k).
Proof.
  intros Hm Hk pre. apply (shifts_bind _ _ _ _ _ (Hm pre)).
  intros a post ->. apply Hk.
Qed.

Lemma keeps_ret {A : Type} (a : A) : keeps (ret (W := W) a).
Proof. intros pre. apply shifts_ret. Qed.

Lemma keeps_abort {A : Type} : keeps (abort (W := W) (A := A)).
Proof. intros pre. apply shifts_abort. Qed.

Lemma keeps_emit (e : event) : keeps (emit (W := W) e).
Proof. intros pre. apply shifts_emit. Qed.

Lemma keeps_call {A : Type} (f : W -> A * W) : keeps (call f).
Proof. intros pre. apply shifts_call. Qed.

Lemma keeps_verify (e : bool) : keeps (verify (W := W) e).
Proof. intros pre. apply shifts_verify. Qed.

Lemma keeps_verify_lookup {A : Type} (o : option A) :
  keeps (verify_lookup (W := W) o).
Proof. intros pre. apply shifts_verify_lookup. Qed.

(** One step of a proof that a computation keeps the ledger. *)
Ltac keeps_step :=
  match goal with
  | |- keeps (bind _ _) => apply keeps_bind; [|intros]
  | |- keeps (ret _) => apply keeps_ret
  | |- keeps abort => apply keeps_abort
  | |- keeps (call _) => apply keeps_call
  | |- keeps (emit _) => apply keeps_emit
  | |- keeps (log _) => apply keeps_emit
  | |- keeps (verify _) => apply keeps_verify
  | |- keeps (verify_lookup _) => apply keeps_verify_lookup
  | |- keeps (if ?b then _ else _) => destruct b
  | |- keeps (match ?o with Some _ => _ | None => _ end) => destruct o
  end.

(** One step along a computation that acquires and releases. *)
Ltac shifts_step :=
  match goal with
  | |- shifts _ _ (bind (call _) _) =>
      eapply shifts_bind; [apply shifts_call | intros ? ? ->]
  | |- shifts _ _ (bind (emit _) _) =>
      eapply shifts_bind; [apply shifts_emit | intros ? ? ->]
  | |- shifts _ _ (bind (log _) _) =>
      eapply shifts_bind; [apply shifts_emit | intros ? ? ->]
  | |- shifts _ _ (bind (acquire _) _) =>
      eapply shifts_bind; [apply shifts_acquire | intros ? ? ->]
  | |- shifts _ _ (bind (release _) _) =>
      eapply shifts_bind; [apply shifts_release | intros ? ? ->]
  | |- shifts _ _ (bind (ret _) _) =>
      eapply shifts_bind; [apply shifts_ret | intros ? ? ->]
  | |- shifts _ _ (if ?b then _ else _) => destruct b
  end.

Lemma keeps_foreign_host_check (config : nvlist) (name : string)
    (pstate flags : Z) :
  keeps (foreign_host_check config name pstate flags).
Proof. unfold foreign_host_check. repeat keeps_step. Qed.

Lemma keeps_shifts {A : Type} (m : M W A) (pre : list resource) :
  keeps m -> shifts pre (fun _ post => post = pre) m.
Proof. intros Hk. apply Hk. Qed.

Lemma keeps_import_and_mount (config : nvlist) (name : string)
    (newname mntopts : option string) (props : option nvlist) (flags : Z) :
  keeps (import_and_mount config name newname mntopts props flags).
Proof.
  intros pre. unfold import_and_mount.
  do 2 shifts_step. destruct (negb _); [apply shifts_ret|].
  shifts_step. destruct (negb _); [apply shifts_ret|].
  do 2 shifts_step.
  eapply shifts_bind; [apply keeps_shifts; repeat keeps_step|].
  intros failed post ->.
  destruct failed; (shifts_step; apply shifts_ret).
Qed.

Lemma keeps_do_import (config : nvlist) (newname mntopts : option string)
    (props : option nvlist) (flags : Z) :
  keeps (do_import config newname mntopts props flags).
Proof.
  unfold do_import.
  repeat (apply keeps_foreign_host_check || apply keeps_import_and_mount
          || keeps_step).
Qed.

Lemma keeps_select_config (searchguid : Z) (policy pools : nvlist)
    (found : option nvlist) :
  keeps (select_config searchguid policy pools found).
Proof.
  revert found. induction pools as [|elem rest IH]; intros found; simpl.
  - apply keeps_ret.
  - repeat (apply IH || keeps_step).
Qed.

(** The policy as far as it was built is held exactly when the pointer is
    not null. *)
Lemma shifts_build_policy (pre : list resource) (txg rewind_policy : Z) :
  shifts pre
    (fun built post =>
       post = match fst built with
              | Some _ => Res_policy :: pre
              | None => pre
              end)
    (build_policy txg rewind_policy).
Proof.
  unfold build_policy.
  shifts_step. destruct (negb _); [now apply shifts_ret_with|].
  do 2 shifts_step. destruct (negb _); [now apply shifts_ret_with|].
  shifts_step. destruct (negb _); now apply shifts_ret_with.
Qed.

Lemma shifts_nvlist_free (pre : list resource) (p : option nvlist)
    (r : resource) :
  shifts (match p with Some _ => r :: pre | None => pre end)
    (fun _ post => post = pre) (nvlist_free (W := W) p r).
Proof. destruct p; [apply shifts_release | apply shifts_ret]. Qed.

(** The [error:] label gives back the candidate list, the policy and the
    library handle. *)
Lemma shifts_import_cleanup (pre : list resource)
    (pools policy : option nvlist) (err : Z) :
  shifts
    (match pools with Some _ => [Res_pools] | None => [] end ++
     match policy with Some _ => [Res_policy] | None => [] end ++
     Res_libzfs_handle :: pre)
    (fun _ post => post = pre)
    (import_cleanup (W := W) pools policy err).
Proof.
  unfold import_cleanup.
  eapply shifts_bind.
  { pose proof (shifts_nvlist_free
                  (match policy with Some _ => [Res_policy] | None => [] end
                   ++ Res_libzfs_handle :: pre) pools Res_pools) as Hf.
    destruct pools; exact Hf. }
  intros ? post ->.
  eapply shifts_bind.
  { pose proof (shifts_nvlist_free (Res_libzfs_handle :: pre) policy
                  Res_policy) as Hf.
    destruct policy; exact Hf. }
  intros ? post ->.
  shifts_step. apply shifts_ret.
Qed.

(** On every return of the importer the policy and the candidate list have
    been given back; the library handle has been given back too, except on
    a return of 1 that has left it held. *)
Lemma shifts_zpool_import_by_guid (pre : list resource) (searchguid : Z) :
  shifts pre
    (fun rc post => post = pre \/ (post = Res_libzfs_handle :: pre /\ rc = 1))
    (zpool_import_by_guid searchguid).
Proof.
  unfold zpool_import_by_guid.
  shifts_step.
  destruct (negb _); [apply shifts_ret_with; now left|].
  shifts_step.
  eapply shifts_bind; [apply shifts_build_policy|].
  intros [policy ok] post ->. cbn [fst].
  assert (Hfree : shifts
            match policy with
            | Some _ => Res_policy :: Res_libzfs_handle :: pre
            | None => Res_libzfs_handle :: pre
            end
            (fun _ post => post = Res_libzfs_handle :: pre)
            (nvlist_free (W := W) policy Res_policy))
    by apply shifts_nvlist_free.
  assert (Hclean : forall pools err,
            shifts
              (match pools with Some _ => [Res_pools] | None => [] end ++
               match policy with
               | Some _ => Res_policy :: Res_libzfs_handle :: pre
               | None => Res_libzfs_handle :: pre
               end)
              (fun _ post => post = pre)
              (import_cleanup (W := W) pools policy err)).
  { intros pools err.
    pose proof (shifts_import_cleanup pre pools policy err) as Hc.
    destruct policy; exact Hc. }
  destruct (negb ok).
  { eapply shifts_weaken; [apply (Hclean None 0) | intros; now left]. }
  shifts_step.
  destruct (negb _).
  { shifts_step.
    eapply shifts_bind; [exact Hfree|].
    intros ? post ->. apply shifts_ret_with; now right. }
  eapply shifts_bind; [apply shifts_call|].
  intros [[candidates|] idata_exists] post ->.
  - shifts_step.
    eapply shifts_bind; [apply keeps_select_config|].
    intros found_config post ->.
    eapply shifts_bind.
    + apply keeps_shifts.
      destruct found_config; repeat (apply keeps_do_import || keeps_step).
    + intros err post ->.
      eapply shifts_weaken; [apply (Hclean (Some candidates) err) |
                             intros; now left].
  - eapply shifts_bind.
    { apply keeps_shifts. destruct idata_exists; apply keeps_emit. }
    intros ? post ->.
    eapply shifts_bind; [exact Hfree|].
    intros ? post ->. apply shifts_ret_with; now right.
Qed.

End LedgerFacts.

(** C2 (the code at the failing inputs): when the caller lacks the
    privilege, and when the library finds no candidate,
    [zpool_import_by_guid] frees the policy and returns 1 through an early
    [return] that does not reach [libzfs_fini]: the library handle is still
    held; the run that reaches the [error:] label holds nothing. *)
Theorem zpool_import_by_guid_keeps_handle :
  zpool_import_by_guid (C := Replay.scripted Replay.unprivileged)
    (abi := openzfs) 1111 Replay.start
  = ([Log Msg_permission_denied],
     Returned 1 {| world := tt; live := [Res_libzfs_handle] |}) /\
  zpool_import_by_guid (C := Replay.scripted Replay.tank_fails)
    (abi := openzfs) 3333 Replay.start
  = ([Log (Msg_no_such_pool 3333)],
     Returned 1 {| world := tt; live := [Res_libzfs_handle] |}) /\
  live_after
    (zpool_import_by_guid (C := Replay.scripted Replay.tank_fails)
       (abi := openzfs) 1111 Replay.start)
  = Some [].
Proof. repeat split; vm_compute; reflexivity. Qed.


(** ** The scenarios of the specification, end to end *)

Section Scenarios.

(** Probing a device the mount table does not list: [FSUR_UNRECOGNIZED] and
    an empty stdout. *)
Example probe_unmounted :
  @main darwin ["zfs.util"; "-p"; "disk4s1"]
    (Scenario.env_of (Scenario.name_buf "Data") Scenario.uuid_v3)
  = Exit (@FSUR_UNRECOGNIZED darwin) "".
Proof. reflexivity. Qed.

(** Asking for the UUID of such a device: [FSUR_IO_FAIL] and an empty
    stdout. *)
Example getuuid_unmounted :
  @main darwin ["zfs.util"; "-k"; "/dev/rdisk4s1"]
    (Scenario.env_of (Scenario.name_buf "Data") Scenario.uuid_v3)
  = Exit (@FSUR_IO_FAIL darwin) "".
Proof. reflexivity. Qed.

(** The raw alias and the block name of a mounted device reach the same
    entry of the mount table. *)
Example getuuid_raw_alias :
  @main darwin ["zfs.util"; "-k"; "/dev/rdisk3s1"]
    (Scenario.env_of (Scenario.name_buf "Data") Scenario.uuid_v3)
  = Exit (@FSUR_IO_SUCCESS darwin) "AABBCCDD-1122-3344-8899-AABBDEADBEEF".
Proof. vm_compute. reflexivity. Qed.

(** The actions the tool declines, and a call without a device. *)
Example declined_actions :
  let env := Scenario.env_of (Scenario.name_buf "Data") Scenario.uuid_v3 in
  @main darwin (Scenario.argv_for "s") env = Exit (@FSUR_INVAL darwin) "" /\
  @main darwin (Scenario.argv_for "m") env = Exit (@FSUR_IO_FAIL darwin) "" /\
  @main darwin (Scenario.argv_for "u") env = Exit (@FSUR_IO_FAIL darwin) "" /\
  @main darwin (Scenario.argv_for "x") env = Exit (@FSUR_INVAL darwin) "" /\
  @main darwin ["zfs.util"; "-p"] env = Exit (@FSUR_INVAL darwin) "".
Proof. repeat split. Qed.

(** The replay of a cache with two pools: [tank] fails in the library,
    [vault] is imported and mounted, and nothing is held at the end. *)
Example replay_two_pools :
  let run := zpool_read_cachefile (C := Replay.scripted Replay.tank_fails)
               (abi := openzfs) Replay.start in
  attempts (events run) = [1111; 2222] /\
  In (Enable_datasets "vault") (events run) /\
  live_after run = Some [].
Proof. vm_compute. intuition. Qed.

End Scenarios.

(** * Further properties of the code *)

(** ** [main]: invocation, exit statuses and stdout *)

Section MainMore.
Context {host : Host}.

Lemma main_reaches_action (argv : list string) (env : os_env)
    (what : ascii) (is_mounted : bool) (i : nat) :
  reaches_action argv env what is_mounted i ->
  main argv env = dispatch what env is_mounted i.
Proof.
  intros (progname & action & token & flags & -> & Hdash & Hwhat & Hstat
          & Hscan).
  unfold main.
  assert (Hargc : (Z.of_nat (List.length (progname :: action :: token :: flags))
                   - 1 <? 2) = false).
  { apply Z.ltb_ge. simpl List.length. lia. }
  rewrite Hargc. cbn [tl nth orb]. rewrite Hdash, Hwhat.
  cbn [Ascii.eqb Bool.eqb negb]. rewrite Hstat. cbn [Z.eqb negb].
  now rewrite Hscan.
Qed.



End MainMore.


(** X2: a call with fewer than two arguments after the program name, or
    whose action does not begin with ['-'], or for a device that [stat] does
    not find, exits [FSUR_INVAL] with nothing on stdout, whatever the action
    letter and the mount table. *)
Theorem main_rejects_bad_invocation {host : Host} (argv : list string)
    (env : os_env) :
  Z.of_nat (List.length argv) - 1 < 2 \/
  index (nth 1 argv "") 0 <> "-"%char \/
  stat env (blockdevice_of (nth 2 argv "")) <> 0 ->
  main argv env = Exit FSUR_INVAL "".
Proof.
  intros Hbad. unfold main. cbv zeta.
  assert (Hn0 : nth 0 (tl argv) "" = nth 1 argv "")
    by (destruct argv; [reflexivity | reflexivity]).
  assert (Hn1 : nth 1 (tl argv) "" = nth 2 argv "")
    by (destruct argv; [reflexivity | reflexivity]).
  rewrite Hn0, Hn1.
  destruct (Z.of_nat (List.length argv) - 1 <? 2) eqn:Eargc;
    [reflexivity|]. apply Z.ltb_ge in Eargc.
  destruct (Ascii.eqb (index (nth 1 argv "") 0) "-") eqn:Edash;
    cbn [negb orb]; [|reflexivity]. apply Ascii.eqb_eq in Edash.
  destruct (stat env (blockdevice_of (nth 2 argv "")) =? 0) eqn:Estat;
    cbn [negb]; [|reflexivity]. apply Z.eqb_eq in Estat.
  destruct Hbad as [Hb | [Hb | Hb]]; [lia | contradiction | contradiction].
Qed.

(** A run of X2 on Darwin: the action is given without its dash. *)
Lemma main_rejects_bad_invocation_witness :
  @main darwin ["zfs.util"; "p"; "disk3s1"]
    (Scenario.env_of (Scenario.name_buf "Data") Scenario.uuid_v3)
  = Exit (@FSUR_INVAL darwin) "".
Proof.
  apply (main_rejects_bad_invocation (host := darwin)).
  right. left. discriminate.
Defined.

Section ScanMore.

(** The scan stops at the first entry whose source is the block path. *)
Lemma scan_from_first (len : Z) (b : string) (rest : list statfs)
    (i j : nat) :
  len = strlen b ->
  scan_from len b rest i = (true, j) ->
  forall k, (k < j - i)%nat -> f_mntfromname (nth k rest no_statfs) <> b.
Proof.
  intros ->. revert i. induction rest as [|e rest IH]; simpl; intros i.
  - discriminate.
  - destruct ((strlen (f_mntfromname e) =? strlen b) &&
              (strcmp (f_mntfromname e) b =? 0)) eqn:Em.
    + intros [= <-] k Hk. lia.
    + intros Hs k Hk.
      pose proof (scan_from_found _ _ _ _ _ eq_refl Hs) as [Hr _].
      destruct k as [|k].
      * intros Heq. apply strlen_strcmp_eq in Heq. congruence.
      * apply (IH (S i) Hs). lia.
Qed.

Lemma scan_mounts_unmatched (b : string) (mounts : list statfs) :
  (forall e, In e mounts -> f_mntfromname e <> b) ->
  fst (scan_mounts b mounts) = false.
Proof.
  intros Hall. unfold scan_mounts.
  destruct (Z.of_nat (List.length mounts) <=? 0); [reflexivity|].
  destruct (scan_from (strlen b) b mounts 0) as [[|] j] eqn:Es;
    [|reflexivity].
  apply scan_from_found in Es; [|reflexivity]. destruct Es as [Hr Hn].
  rewrite Nat.sub_0_r in Hn. exfalso.
  apply (Hall (nth j mounts no_statfs)); [apply nth_In; lia | exact Hn].
Qed.

End ScanMore.

(** X3: when the block path is the source of several mount entries, the
    scan stops at the first of them: no entry before the index it leaves
    has the block path as its source, so the mount point the PROBE and
    GETUUID cases ask about is that of the first match. *)
Theorem scan_mounts_first_match (blockdevice : string)
    (mounts : list statfs) (i : nat) :
  scan_mounts blockdevice mounts = (true, i) ->
  f_mntfromname (nth i mounts no_statfs) = blockdevice /\
  forall k, (k < i)%nat ->
            f_mntfromname (nth k mounts no_statfs) <> blockdevice.
Proof.
  unfold scan_mounts.
  destruct (Z.of_nat (List.length mounts) <=? 0); [discriminate|].
  intros Hs. split.
  - apply scan_from_found in Hs; [|reflexivity].
    destruct Hs as [_ Hn]. now rewrite Nat.sub_0_r in Hn.
  - intros k Hk. apply (scan_from_first _ _ _ _ _ eq_refl Hs). lia.
Qed.

(** A run of X3: a device mounted twice is found at its first entry. *)
Lemma scan_mounts_first_match_witness :
  let table :=
    [ {| f_mntfromname := "/dev/disk1s1"; f_mntonname := "/" |};
      {| f_mntfromname := "/dev/disk3s1"; f_mntonname := "/Volumes/Data" |};
      {| f_mntfromname := "/dev/disk3s1"; f_mntonname := "/Volumes/Again" |} ]
  in
  scan_mounts "/dev/disk3s1" table = (true, 1%nat) /\
  f_mntonname (nth 1 table no_statfs) = "/Volumes/Data".
Proof.
  cbv zeta. split; [reflexivity|].
  destruct (scan_mounts_first_match "/dev/disk3s1"
    [ {| f_mntfromname := "/dev/disk1s1"; f_mntonname := "/" |};
      {| f_mntfromname := "/dev/disk3s1"; f_mntonname := "/Volumes/Data" |};
      {| f_mntfromname := "/dev/disk3s1"; f_mntonname := "/Volumes/Again" |} ]
    1 eq_refl) as [_ _].
  reflexivity.
Defined.

(** X4: for a device that no mount entry has as its source, the PROBE case
    exits [FSUR_UNRECOGNIZED] and the GETUUID case exits [FSUR_IO_FAIL],
    both with nothing on stdout and whatever [getattrlist] would answer:
    the attributes are not read. *)
Theorem main_unmounted_device {host : Host} (progname action token : string)
    (flags : list string) (env : os_env) :
  index action 0 = "-"%char ->
  stat env (blockdevice_of token) = 0 ->
  (forall e, In e (getmntinfo env) ->
             f_mntfromname e <> blockdevice_of token) ->
  let argv := progname :: action :: token :: flags in
  (index action 1 = FSUC_PROBE ->
   main argv env = Exit FSUR_UNRECOGNIZED "") /\
  (index action 1 = FSUC_GETUUID -> FSUC_PROBE <> FSUC_GETUUID ->
   main argv env = Exit FSUR_IO_FAIL "").
Proof.
  intros Hdash Hstat Hnone. cbv zeta.
  pose proof (scan_mounts_unmatched _ _ Hnone) as Hscan.
  destruct (scan_mounts (blockdevice_of token) (getmntinfo env))
    as [is_mounted i] eqn:Es. cbn [fst] in Hscan. subst is_mounted.
  split.
  - intros Hwhat.
    rewrite (main_reaches_action _ env FSUC_PROBE false i).
    + unfold dispatch. now rewrite Ascii.eqb_refl.
    + now exists progname, action, token, flags.
  - intros Hwhat Hne.
    rewrite (main_reaches_action _ env FSUC_GETUUID false i).
    + unfold dispatch.
      destruct (Ascii.eqb FSUC_GETUUID FSUC_PROBE) eqn:E.
      * apply Ascii.eqb_eq in E. congruence.
      * now rewrite Ascii.eqb_refl.
    + now exists progname, action, token, flags.
Qed.

(** A run of X4 on Darwin, for [disk4s1], which the table does not list. *)
Lemma main_unmounted_device_witness :
  let env := Scenario.env_of (Scenario.name_buf "Data") Scenario.uuid_v3 in
  @main darwin ["zfs.util"; "-p"; "disk4s1"] env
  = Exit (@FSUR_UNRECOGNIZED darwin) "" /\
  @main darwin ["zfs.util"; "-k"; "disk4s1"] env
  = Exit (@FSUR_IO_FAIL darwin) "".
Proof.
  cbv zeta.
  assert (Hnone : forall e,
            In e (getmntinfo
                    (Scenario.env_of (Scenario.name_buf "Data")
                       Scenario.uuid_v3)) ->
            f_mntfromname e <> @blockdevice_of darwin "disk4s1").
  { intros e [<- | [<- | [<- | []]]]; discriminate. }
  split.
  - apply (main_unmounted_device (host := darwin) "zfs.util" "-p" "disk4s1" []
             (Scenario.env_of (Scenario.name_buf "Data") Scenario.uuid_v3)
             eq_refl eq_refl Hnone). reflexivity.
  - apply (main_unmounted_device (host := darwin) "zfs.util" "-k" "disk4s1" []
             (Scenario.env_of (Scenario.name_buf "Data") Scenario.uuid_v3)
             eq_refl eq_refl Hnone); [reflexivity | discriminate].
Defined.

(** X5: an action letter other than probe and get-UUID never reads an
    attribute and never writes to stdout, mounted or not: set-UUID exits
    [FSUR_INVAL], mount and unmount exit [FSUR_IO_FAIL], any other letter
    exits [FSUR_INVAL]. *)
Theorem main_declined_actions {host : Host} (argv : list string)
    (env : os_env) (what : ascii) (is_mounted : bool) (i : nat) :
  reaches_action argv env what is_mounted i ->
  what <> FSUC_PROBE -> what <> FSUC_GETUUID ->
  (what = FSUC_SETUUID -> main argv env = Exit FSUR_INVAL "") /\
  (what <> FSUC_SETUUID -> what = FSUC_MOUNT \/ what = FSUC_UNMOUNT ->
   main argv env = Exit FSUR_IO_FAIL "") /\
  (what <> FSUC_SETUUID -> what <> FSUC_MOUNT -> what <> FSUC_UNMOUNT ->
   main argv env = Exit FSUR_INVAL "").
Proof.
  intros Hreach Hp Hg. rewrite (main_reaches_action _ _ _ _ _ Hreach).
  unfold dispatch.
  apply Ascii.eqb_neq in Hp. apply Ascii.eqb_neq in Hg. rewrite Hp, Hg.
  split; [|split].
  - intros ->. now rewrite Ascii.eqb_refl.
  - intros Hs Hmu. apply Ascii.eqb_neq in Hs. rewrite Hs.
    destruct (Ascii.eqb what FSUC_MOUNT) eqn:Em; [reflexivity|].
    destruct Hmu as [Hm | Hu].
    + apply Ascii.eqb_neq in Em. contradiction.
    + rewrite Hu. now rewrite Ascii.eqb_refl.
  - intros Hs Hm Hu. apply Ascii.eqb_neq in Hs, Hm, Hu.
    now rewrite Hs, Hm, Hu.
Qed.

(** A run of X5 on Darwin: a request to mount a mounted volume. *)
Lemma main_declined_actions_witness :
  let env := Scenario.env_of (Scenario.name_buf "Data") Scenario.uuid_v3 in
  reaches_action (host := darwin) (Scenario.argv_for "m") env "m" true 2 /\
  @main darwin (Scenario.argv_for "m") env = Exit (@FSUR_IO_FAIL darwin) "".
Proof.
  cbv zeta.
  assert (Hr : reaches_action (host := darwin) (Scenario.argv_for "m")
                 (Scenario.env_of (Scenario.name_buf "Data")
                    Scenario.uuid_v3) "m" true 2).
  { exists "zfs.util", "-m", "disk3s1", []. repeat split. }
  split; [exact Hr|].
  destruct (main_declined_actions (host := darwin) _ _ "m"%char true 2 Hr)
    as (_ & Hmount & _); try discriminate.
  apply Hmount; [discriminate | now left].
Defined.

(** X6: on a mounted volume, a [getattrlist] that fails makes the PROBE
    case exit [FSUR_UNRECOGNIZED] and the GETUUID case exit [FSUR_IO_FAIL],
    and so does, for GETUUID, an answer whose first word is below the size
    of five words; nothing is written to stdout and the words are not
    looked at. *)
Theorem main_attribute_read_failure {host : Host} (argv : list string)
    (env : os_env) (i : nat) :
  (on_mounted_volume argv env FSUC_PROBE i ->
   fst (getattrlist_name env (mntonname_at env i)) <> 0 ->
   main argv env = Exit FSUR_UNRECOGNIZED "") /\
  (on_mounted_volume argv env FSUC_GETUUID i ->
   FSUC_PROBE <> FSUC_GETUUID ->
   fst (getattrlist_uuid env (mntonname_at env i)) <> 0 \/
   nth 0 (snd (getattrlist_uuid env (mntonname_at env i))) 0
     < 5 * sizeof_uint32 ->
   main argv env = Exit FSUR_IO_FAIL "").
Proof.
  split.
  - intros Hm Hret. rewrite (main_probe _ _ _ Hm). unfold probe. cbn [negb].
    destruct (getattrlist_name env (mntonname_at env i)) as [ret nameBuf].
    cbn [fst] in Hret. apply Z.eqb_neq in Hret. now rewrite Hret.
  - intros Hm Hne Hbad. rewrite (main_getuuid _ _ _ Hne Hm).
    unfold getuuid. cbn [negb].
    destruct (getattrlist_uuid env (mntonname_at env i)) as [ret buf].
    cbn [fst snd] in Hbad.
    destruct (ret =? 0) eqn:Eret; cbn [negb]; [|reflexivity].
    apply Z.eqb_eq in Eret. destruct Hbad as [Hb | Hb]; [contradiction|].
    apply Z.ltb_lt in Hb. now rewrite Hb.
Qed.

(** A run of X6 on Darwin: a UUID answer of four words only. *)
Lemma main_attribute_read_failure_witness :
  let env := Scenario.env_of (Scenario.name_buf "Data")
               [16; 3721182122; 1144201745; 3148519816] in
  on_mounted_volume (host := darwin) (Scenario.argv_for "k") env
    FSUC_GETUUID 2 /\
  @main darwin (Scenario.argv_for "k") env = Exit (@FSUR_IO_FAIL darwin) "".
Proof.
  cbv zeta.
  assert (Hm : on_mounted_volume (host := darwin) (Scenario.argv_for "k")
                 (Scenario.env_of (Scenario.name_buf "Data")
                    [16; 3721182122; 1144201745; 3148519816])
                 FSUC_GETUUID 2).
  { exists "zfs.util", "-k", "disk3s1", []. repeat split. }
  split; [exact Hm|].
  destruct (main_attribute_read_failure (host := darwin)
              (Scenario.argv_for "k")
              (Scenario.env_of (Scenario.name_buf "Data")
                 [16; 3721182122; 1144201745; 3148519816]) 2) as [_ Hk].
  apply (Hk Hm); [discriminate | right; reflexivity].
Defined.

(** ** The device token and its aliases *)

Section AliasFacts.

Lemma strrchr_absent (s : string) (c : ascii) :
  occurs c s = false -> strrchr s c = None.
Proof.
  induction s as [|a t IH]; simpl; [reflexivity|].
  intros Ho. apply orb_false_iff in Ho. destruct Ho as [Ha Ht].
  now rewrite (IH Ht), Ha.
Qed.

(** The last ['/'] of a path is the one in front of a component that has
    none. *)
Lemma strrchr_last_component (dir base : string) :
  occurs "/" base = false ->
  strrchr (dir ++ String "/" base) "/" = Some (String "/" base).
Proof.
  intros Hb. induction dir as [|a dir IH]; simpl.
  - now rewrite (strrchr_absent base "/" Hb).
  - now rewrite IH.
Qed.

End AliasFacts.

(** X7: a device may be named by its short name, by its raw alias, or by
    either of them behind any directory: for a short name without ['/']
    that does not begin with ['r'], the four tokens normalize to that short
    name, and so lead to the same block and raw device paths. *)
Theorem normalize_devname_aliases (dir short : string) :
  occurs "/" short = false ->
  begins_with "r" short = false ->
  normalize_devname short = short /\
  normalize_devname (String "r" short) = short /\
  normalize_devname (dir ++ String "/" short) = short /\
  normalize_devname (dir ++ String "/" (String "r" short)) = short.
Proof.
  intros Hs Hr.
  assert (Hd : Ascii.eqb (deref short) "r" = false).
  { destruct short as [|a t]; [reflexivity | exact Hr]. }
  assert (Hrs : occurs "/" (String "r" short) = false) by exact Hs.
  unfold normalize_devname.
  rewrite (strrchr_absent short "/" Hs), (strrchr_absent _ "/" Hrs).
  rewrite (strrchr_last_component dir short Hs).
  rewrite (strrchr_last_component dir (String "r" short) Hrs).
  cbn [advance deref Ascii.eqb Bool.eqb]. rewrite Hd.
  repeat split.
Qed.

(** A run of X7 on the tokens of the command line of the tool. *)
Lemma normalize_devname_aliases_witness :
  normalize_devname "disk3s1" = "disk3s1" /\
  normalize_devname "rdisk3s1" = "disk3s1" /\
  normalize_devname "/dev/disk3s1" = "disk3s1" /\
  normalize_devname "/dev/rdisk3s1" = "disk3s1".
Proof.
  exact (normalize_devname_aliases "/dev" "disk3s1" eq_refl eq_refl).
Defined.

(** X8: the text printed for a UUID holds the four words and nothing else
    of them is lost: read back field by field as hexadecimal numerals it
    gives the four words again, so two different UUIDs are never printed
    alike. *)
Theorem format_uuid_round_trip (w1 w2 w3 w4 : Z) :
  is_u32 w1 -> is_u32 w2 -> is_u32 w3 -> is_u32 w4 ->
  parse_uuid (format_uuid w1 w2 w3 w4) = (w1, w2, w3, w4) /\
  forall v1 v2 v3 v4,
    is_u32 v1 -> is_u32 v2 -> is_u32 v3 -> is_u32 v4 ->
    format_uuid v1 v2 v3 v4 = format_uuid w1 w2 w3 w4 ->
    (v1, v2, v3, v4) = (w1, w2, w3, w4).
Proof.
  assert (Hrt : forall x1 x2 x3 x4,
            is_u32 x1 -> is_u32 x2 -> is_u32 x3 -> is_u32 x4 ->
            parse_uuid (format_uuid x1 x2 x3 x4) = (x1, x2, x3, x4)).
  { intros x1 x2 x3 x4 H1 H2 H3 H4. unfold format_uuid.
    destruct (halves_16bit x2) as [H2h H2l].
    destruct (halves_16bit x3) as [H3h H3l].
    rewrite parse_of_parts by (apply fmt_X_length; try lia; assumption).
    rewrite !fmt_X_value by (try apply H1; try apply H4; lia).
    now rewrite !word_of_halves. }
  intros H1 H2 H3 H4. split; [now apply Hrt|].
  intros v1 v2 v3 v4 G1 G2 G3 G4 Heq.
  rewrite <- (Hrt v1 v2 v3 v4), <- (Hrt w1 w2 w3 w4) by assumption.
  now rewrite Heq.
Qed.

(** A run of X8 on the UUID of the scenario. *)
Lemma format_uuid_round_trip_witness :
  parse_uuid "AABBCCDD-1122-3344-8899-AABBDEADBEEF"
  = (2864434397, 287454020, 2291772091, 3735928559).
Proof.
  assert (Hu : forall x, (0 <=? x) && (x <? 4294967296) = true -> is_u32 x).
  { intros x Hx. apply andb_true_iff in Hx. destruct Hx as [Hl Hh].
    apply Z.leb_le in Hl. apply Z.ltb_lt in Hh. now split. }
  exact (proj1 (format_uuid_round_trip
                  2864434397 287454020 2291772091 3735928559
                  (Hu 2864434397 eq_refl) (Hu 287454020 eq_refl)
                  (Hu 2291772091 eq_refl) (Hu 3735928559 eq_refl))).
Defined.

Section UuidDigitFacts.

(** An uppercase hexadecimal digit is the digit of its value. *)
Lemma upper_hex_digit (c : ascii) :
  is_upper_hex c = true ->
  0 <= hex_digit_value c < 16 /\ hex_digit (hex_digit_value c) = c.
Proof.
  unfold is_upper_hex. cbn [occurs]. intros Hc.
  repeat (apply orb_true_iff in Hc;
          destruct Hc as [Hc | Hc];
          [apply Ascii.eqb_eq in Hc; subst c; vm_compute;
           repeat split; discriminate|]).
  discriminate Hc.
Qed.

Lemma hex_value_from_shift (a : Z) (s : string) :
  hex_value_from a s
  = a * 16 ^ Z.of_nat (String.length s) + hex_value_from 0 s.
Proof.
  revert a. induction s as [|c t IH]; intros a.
  - cbn. lia.
  - cbn [hex_value_from String.length].
    rewrite (IH (16 * a + hex_digit_value c)), (IH (16 * 0 + hex_digit_value c)).
    rewrite Nat2Z.inj_succ, Z.pow_succ_r by lia. lia.
Qed.

Lemma hex_value_bound (s : string) :
  all_bytes is_upper_hex s = true ->
  0 <= hex_value_from 0 s < 16 ^ Z.of_nat (String.length s).
Proof.
  induction s as [|c t IH]; [cbn; lia|].
  cbn [all_bytes]. intros Hs. apply andb_true_iff in Hs.
  destruct Hs as [Hc Ht]. specialize (IH Ht).
  destruct (upper_hex_digit c Hc) as [Hd _].
  cbn [hex_value_from String.length].
  rewrite hex_value_from_shift, Nat2Z.inj_succ, Z.pow_succ_r by lia.
  nia.
Qed.

(** The leading digit of a numeral of four uppercase digits is the digit of
    the value divided by 4096. *)
Lemma leading_digit (s : string) (v : Z) :
  String.length s = 4%nat -> all_bytes is_upper_hex s = true ->
  hex_value s = v ->
  String.get 0 s = Some (hex_digit (v / 4096)).
Proof.
  destruct s as [|c t]; [discriminate|].
  cbn [String.length all_bytes String.get]. intros Hl Hs Hv.
  apply andb_true_iff in Hs. destruct Hs as [Hc Ht].
  destruct (upper_hex_digit c Hc) as [Hd Hc'].
  pose proof (hex_value_bound t Ht) as Hb.
  assert (Hlt : String.length t = 3%nat) by lia. rewrite Hlt in Hb.
  change (16 ^ Z.of_nat 3) with 4096 in Hb.
  unfold hex_value in Hv. cbn [hex_value_from] in Hv.
  rewrite hex_value_from_shift, Hlt in Hv.
  change (16 ^ Z.of_nat 3) with 4096 in Hv.
  assert (Hq : v / 4096 = hex_digit_value c).
  { symmetry. apply (Z.div_unique v 4096 _ (hex_value_from 0 t)); lia. }
  now rewrite Hq, Hc'.
Qed.

Lemma get_skip (n : nat) (s : string) :
  String.get n s = String.get 0 (skip n s).
Proof.
  revert s. induction n as [|n IH]; intros [|c t]; try reflexivity.
  cbn [String.get skip]. apply IH.
Qed.

Lemma get_0_app (a rest : string) :
  (0 < String.length a)%nat -> String.get 0 (a ++ rest) = String.get 0 a.
Proof. destruct a; [cbn; lia | reflexivity]. Qed.

Lemma skip_add (n m : nat) (s : string) :
  skip (n + m) s = skip m (skip n s).
Proof.
  revert s. induction n as [|n IH]; intros s; [reflexivity|].
  destruct s as [|c t]; cbn [Nat.add skip]; [now destruct m | apply IH].
Qed.

End UuidDigitFacts.

(** X9: what the comment of lines 750-756 says of the text
    [xxxxxxxx-xxxx-Mxxx-Nxxx-xxxxxxxxxxxx] holds of every UUID the tool
    prints: after the second dash stands the digit [3], and after the third
    one of [8], [9], [A] and [B]. *)
Theorem format_uuid_version_and_variant_digits (w1 w2 w3 w4 : Z) :
  is_u32 w1 -> is_u32 w2 -> is_u32 w3 ->
  version3_ok w2 = true -> variant_ok w3 = true ->
  String.get 14 (format_uuid w1 w2 w3 w4) = Some "3"%char /\
  exists n, String.get 19 (format_uuid w1 w2 w3 w4) = Some n /\
            In n ["8"; "9"; "A"; "B"]%char.
Proof.
  intros H1 H2 H3 Hv Hr.
  apply (version3_ok_iff w2 H2) in Hv. apply (variant_ok_iff w3 H3) in Hr.
  destruct (halves_16bit w2) as [H2h H2l].
  destruct (halves_16bit w3) as [H3h H3l].
  assert (La : String.length (fmt_X 8 w1) = 8%nat)
    by (apply fmt_X_length; [lia | exact H1]).
  pose proof (fmt_X_length 4 _ ltac:(lia) H2h) as Lb.
  pose proof (fmt_X_length 4 _ ltac:(lia) H2l) as Lc.
  pose proof (fmt_X_length 4 _ ltac:(lia) H3h) as Ld.
  unfold format_uuid. cbn [append]. split.
  - rewrite get_skip. change 14%nat with (9 + 5)%nat. rewrite skip_add.
    rewrite (skip_app_one 8 _ _ _ La), (skip_app_one 4 _ _ _ Lb).
    rewrite get_0_app by lia.
    rewrite (leading_digit _ (Z.land w2 65535) Lc (fmt_X_upper _ _)
               (fmt_X_value _ _ (proj1 H2l))).
    rewrite <- (Z.shiftr_div_pow2 _ 12), Z.shiftr_land by lia.
    change (Z.shiftr 65535 12) with 15.
    unfold version_nibble in Hv. now rewrite Hv.
  - rewrite get_skip. change 19%nat with (9 + (5 + 5))%nat.
    rewrite !skip_add.
    rewrite (skip_app_one 8 _ _ _ La), (skip_app_one 4 _ _ _ Lb),
      (skip_app_one 4 _ _ _ Lc).
    rewrite get_0_app by lia.
    rewrite (leading_digit _ (Z.shiftr (Z.land w3 4294901760) 16) Ld
               (fmt_X_upper _ _) (fmt_X_value _ _ (proj1 H3h))).
    eexists. split; [reflexivity|].
    rewrite <- (Z.shiftr_div_pow2 _ 12), Z.shiftr_shiftr, Z.shiftr_land
      by lia.
    change (Z.shiftr 4294901760 (16 + 12)) with 15. change (16 + 12) with 28.
    set (t := Z.land (Z.shiftr w3 28) 15).
    assert (Ht : 0 <= t < 16).
    { unfold t. change 15 with (Z.ones 4). rewrite Z.land_ones by lia.
      apply Z.mod_pos_bound. reflexivity. }
    assert (Ht2 : Z.shiftr t 2 = 2).
    { unfold t. rewrite Z.shiftr_land, Z.shiftr_shiftr by lia. exact Hr. }
    rewrite Z.shiftr_div_pow2 in Ht2 by lia. change (2 ^ 2) with 4 in Ht2.
    assert (Hc : t = 8 \/ t = 9 \/ t = 10 \/ t = 11).
    { assert (8 <= t < 12); [|lia].
      pose proof (Z.div_mod t 4 ltac:(lia)) as Hdm.
      pose proof (Z.mod_pos_bound t 4 ltac:(lia)). lia. }
    destruct Hc as [-> | [-> | [-> | ->]]]; cbn; tauto.
Qed.

(** A run of X9 on the UUID of the scenario. *)
Lemma format_uuid_version_and_variant_digits_witness :
  String.get 14 "AABBCCDD-1122-3344-8899-AABBDEADBEEF" = Some "3"%char.
Proof.
  assert (Hu : forall x, (0 <=? x) && (x <? 4294967296) = true -> is_u32 x).
  { intros x Hx. apply andb_true_iff in Hx. destruct Hx as [Hl Hh].
    apply Z.leb_le in Hl. apply Z.ltb_lt in Hh. now split. }
  exact (proj1 (format_uuid_version_and_variant_digits
                  2864434397 287454020 2291772091 3735928559
                  (Hu 2864434397 eq_refl) (Hu 287454020 eq_refl)
                  (Hu 2291772091 eq_refl) eq_refl eq_refl)).
Defined.

(** ** The name the PROBE case writes *)

Section VolnameFacts.

Lemma cstring_of_terminated (nm rest : string) :
  occurs NUL nm = false -> cstring_of (nm ++ String NUL rest) = Some nm.
Proof.
  induction nm as [|c nm IH]; cbn [append cstring_of occurs].
  - intros _. reflexivity.
  - intros Ho. apply orb_false_iff in Ho. destruct Ho as [Hc Hn].
    rewrite Hc, (IH Hn). reflexivity.
Qed.

Lemma substring_whole (s : string) :
  String.substring 0 (String.length s) s = s.
Proof. induction s as [|c s IH]; simpl; [reflexivity | now rewrite IH]. Qed.

End VolnameFacts.

(** X10: for an attribute buffer laid out as the host lays it out (the name
    and its terminator right after the reference, the reference giving the
    offset of the name and its length with the terminator), on a host whose
    [uint32_t] takes 4 bytes and whose [attrreference_t] takes
    [sizeof (attrreference_t)], a probe of a mounted volume exits
    [FSUR_RECOGNIZED] and writes the name followed by NUL bytes up to
    [MAXPATHLEN]: read as a NUL-terminated string, stdout is the volume
    name. *)
Theorem probe_writes_name_then_padding {host : Host} (argv : list string)
    (env : os_env) (i : nat) (nameBuf : NameBuf.t) (nm rest : string) :
  (forall x, String.length (repr_uint32 x) = 4%nat) ->
  (forall r, Z.of_nat (String.length (repr_attrreference r))
             = sizeof_attrreference) ->
  Z.of_nat MAXPATHLEN <= INT_MAX ->
  on_mounted_volume argv env FSUC_PROBE i ->
  getattrlist_name env (mntonname_at env i) = (0, nameBuf) ->
  NameBuf.offsetof_name <= NameBuf.length nameBuf <= NameBuf.sizeof_nameBuf ->
  attr_dataoffset (NameBuf.nameRef nameBuf) = sizeof_attrreference ->
  attr_length (NameBuf.nameRef nameBuf) = strlen nm + 1 ->
  NameBuf.name nameBuf = nm ++ String NUL rest ->
  occurs NUL nm = false ->
  (String.length nm < MAXPATHLEN)%nat ->
  let out := nm ++ fill NUL (MAXPATHLEN - String.length nm) in
  main argv env = Exit FSUR_RECOGNIZED out /\
  cstring_of out = Some nm.
Proof.
  intros Hu32 Href Hmax Hm Hattr Hlen Hoff Hal Hname Hnul Hfit. cbv zeta.
  split.
  - rewrite (main_probe _ _ _ Hm). unfold probe. cbn [negb].
    rewrite Hattr. cbn [Z.eqb negb].
    destruct Hlen as [Hlo Hhi]. apply Z.ltb_ge in Hlo. rewrite Hlo.
    assert (Hle : (NameBuf.length nameBuf >? NameBuf.sizeof_nameBuf) = false)
      by (rewrite Z.gtb_ltb; now apply Z.ltb_ge).
    rewrite Hle. unfold copy_volname. rewrite Hoff, Hal.
    assert (Hsrc : cstring_at (NameBuf.image nameBuf)
                     (sizeof_uint32 + sizeof_attrreference) = Some nm).
    { unfold cstring_at, NameBuf.image, strlen.
      rewrite !length_app, Hu32, Hname, length_app. cbn [String.length].
      specialize (Href (NameBuf.nameRef nameBuf)).
      assert (Hin : (0 <=? sizeof_uint32 + sizeof_attrreference) &&
                    (sizeof_uint32 + sizeof_attrreference <?
                     Z.of_nat (4 + (String.length
                                      (repr_attrreference
                                         (NameBuf.nameRef nameBuf)) +
                                    (String.length nm +
                                     S (String.length rest))))) = true).
      { unfold sizeof_uint32. apply andb_true_iff.
        split; [apply Z.leb_le | apply Z.ltb_lt]; lia. }
      rewrite Hin.
      replace (Z.to_nat (sizeof_uint32 + sizeof_attrreference))
        with (4 + String.length
                    (repr_attrreference (NameBuf.nameRef nameBuf)))%nat
        by (unfold sizeof_uint32; lia).
      rewrite skip_add, (skip_app 4 _ _ (Hu32 _)), (skip_app _ _ _ eq_refl).
      now apply cstring_of_terminated. }
    rewrite Hsrc. unfold strlen.
    assert (Hnz : (Z.of_nat (String.length nm) + 1 =? 0) = false)
      by (apply Z.eqb_neq; lia).
    assert (Hint : (Z.of_nat (String.length nm) + 1 >? INT_MAX) = false)
      by (rewrite Z.gtb_ltb; apply Z.ltb_ge; lia).
    rewrite Hnz, Hint.
    replace (Z.to_nat (Z.of_nat (String.length nm) + 1 - 1))
      with (String.length nm) by lia.
    rewrite Nat.min_id.
    assert (Hk : (MAXPATHLEN <=? String.length nm)%nat = false)
      by (apply Nat.leb_gt; exact Hfit).
    now rewrite Hk, substring_whole.
  - destruct (MAXPATHLEN - String.length nm)%nat as [|k] eqn:Ek; [lia|].
    cbn [fill]. now apply cstring_of_terminated.
Qed.

(** A run of X10 on Darwin, for the volume named [Data]. *)
Lemma probe_writes_name_then_padding_witness :
  on_mounted_volume (host := darwin) (Scenario.argv_for "p")
    (Scenario.env_of (Scenario.name_buf "Data") []) (@FSUC_PROBE darwin) 2 /\
  cstring_of ("Data" ++ fill NUL (1024 - 4)) = Some "Data".
Proof.
  assert (Hm : on_mounted_volume (host := darwin) (Scenario.argv_for "p")
                 (Scenario.env_of (Scenario.name_buf "Data") [])
                 (@FSUC_PROBE darwin) 2).
  { exists "zfs.util", "-p", "disk3s1", []. repeat split. }
  split; [exact Hm|].
  assert (Hin : @NameBuf.offsetof_name darwin
                <= NameBuf.length (Scenario.name_buf "Data")
                <= @NameBuf.sizeof_nameBuf darwin)
    by (vm_compute; split; discriminate).
  assert (Hmax : Z.of_nat (@MAXPATHLEN darwin) <= INT_MAX)
    by (vm_compute; discriminate).
  assert (Hfit : (String.length "Data" < @MAXPATHLEN darwin)%nat)
    by (vm_compute; lia).
  exact (proj2 (probe_writes_name_then_padding (host := darwin)
                  (Scenario.argv_for "p")
                  (Scenario.env_of (Scenario.name_buf "Data") []) 2
                  (Scenario.name_buf "Data") "Data" (fill NUL 1019)
                  (fun _ => eq_refl) (fun _ => eq_refl) Hmax Hm eq_refl Hin
                  eq_refl eq_refl eq_refl eq_refl Hfit)).
Defined.

(** ** What the importer lets be seen *)

Section ObservationFacts.
Context {W : Type} {C : Collaborators W} {abi : ZfsAbi}.

Local Open Scope import_scope.

Lemma observes_bind {A B : Type} (P : event -> Prop)
    (R1 : list event -> A -> Prop) (R : list event -> B -> Prop)
    (m : M W A) (k : A -> M W B) :
  observes P R1 m ->
  (forall evs a, R1 evs a ->
     observes P (fun evs' b => R (evs ++ evs')%list b) (k a)) ->
  observes P R (bind m k).
Proof.
  intros Hm Hk s. destruct (Hm s) as [HP HR].
  rewrite events_bind, ending_bind.
  destruct (ending_of (m s)) as [a s1|] eqn:E.
  - destruct (Hk _ a (HR a s1 eq_refl) s1) as [HP' HR'].
    split; [apply Forall_app; now split | exact HR'].
  - split; [exact HP | discriminate].
Qed.

Lemma observes_weaken {A : Type} (P P' : event -> Prop)
    (R R' : list event -> A -> Prop) (m : M W A) :
  observes P R m ->
  (forall e, P e -> P' e) ->
  (forall evs a, R evs a -> R' evs a) ->
  observes P' R' m.
Proof.
  intros Hm HP HR s. destruct (Hm s) as [H1 H2]. split.
  - eapply Forall_impl; [exact HP | exact H1].
  - intros a s' E. apply HR. now apply (H2 a s').
Qed.

Lemma observes_ret {A : Type} (P : event -> Prop) (a : A) :
  observes P (fun evs b => evs = [] /\ b = a) (ret (W := W) a).
Proof.
  intros s. split; [constructor|].
  intros b s' E. cbn in E. injection E as <- _. now split.
Qed.

Lemma observes_ret_with {A : Type} (P : event -> Prop)
    (R : list event -> A -> Prop) (a : A) :
  R [] a -> observes P R (ret (W := W) a).
Proof.
  intros HR s. split; [constructor|].
  intros b s' E. cbn in E. injection E as <- _. exact HR.
Qed.

Lemma observes_abort {A : Type} (P : event -> Prop)
    (R : list event -> A -> Prop) :
  observes P R (abort (W := W)).
Proof. intros s. split; [constructor | discriminate]. Qed.

Lemma observes_emit (P : event -> Prop) (e : event) :
  P e -> observes P (fun evs _ => evs = [e]) (emit (W := W) e).
Proof.
  intros He s. split; [now repeat constructor | reflexivity].
Qed.

Lemma observes_call {A : Type} (P : event -> Prop) (f : W -> A * W) :
  observes P (fun evs a => evs = [] /\ exists w, a = fst (f w)) (call f).
Proof.
  intros s. unfold call. destruct (f (world s)) as [a w] eqn:E.
  split; [constructor|].
  intros b s' Hb. cbn in Hb. injection Hb as <- _.
  split; [reflexivity|]. exists (world s). now rewrite E.
Qed.

Lemma observes_acquire (P : event -> Prop) (r : resource) :
  observes P (fun evs _ => evs = []) (acquire (W := W) r).
Proof. intros s. split; [constructor | reflexivity]. Qed.

Lemma observes_release (P : event -> Prop) (r : resource) :
  observes P (fun evs _ => evs = []) (release (W := W) r).
Proof. intros s. split; [constructor | reflexivity]. Qed.

Lemma observes_verify (P : event -> Prop) (e : bool) :
  observes P (fun evs _ => evs = [] /\ e = true) (verify (W := W) e).
Proof.
  destruct e; cbn [verify].
  - intros s. split; [constructor | now split].
  - apply observes_abort.
Qed.

Lemma observes_verify_lookup {A : Type} (P : event -> Prop) (o : option A) :
  observes P (fun evs a => evs = [] /\ o = Some a) (verify_lookup (W := W) o).
Proof.
  destruct o as [a|]; cbn [verify_lookup].
  - apply observes_ret_with. now split.
  - apply observes_abort.
Qed.

Lemma observes_nvlist_free (P : event -> Prop) (p : option nvlist)
    (r : resource) :
  observes P (fun evs _ => evs = []) (nvlist_free (W := W) p r).
Proof.
  destruct p; cbn [nvlist_free].
  - apply observes_release.
  - intros s. split; [constructor | reflexivity].
Qed.

Lemma observes_log (P : event -> Prop) (m : message) :
  P (Log m) -> observes P (fun evs _ => evs = [Log m]) (log (W := W) m).
Proof. apply observes_emit. Qed.

(** One step of a computation that emits nothing. *)
Ltac observe_step :=
  eapply observes_bind;
  [ first [ apply observes_call | apply observes_acquire
          | apply observes_release | apply observes_verify_lookup
          | apply observes_verify | apply observes_nvlist_free ] | ].

(** The import and the mount: the import entry point is called once, with
    the configuration and the flags as given; the datasets are mounted
    under the name the pool is imported as, and not at all with
    [ZFS_IMPORT_ONLY]. *)
Lemma observes_import_and_mount (config : nvlist) (name : string)
    (newname mntopts : option string) (props : option nvlist) (flags : Z) :
  observes
    (fun e =>
       e = Import_props config flags \/
       (e = Enable_datasets (match newname with
                             | Some n => n
                             | None => name
                             end) /\
        Z.land flags ZFS_IMPORT_ONLY = 0))
    (fun evs rc => (rc = 0 \/ rc = 1) /\ In (Import_props config flags) evs)
    (import_and_mount config name newname mntopts props flags).
Proof.
  unfold import_and_mount.
  eapply observes_bind; [apply observes_emit; now left|].
  intros ? ? ->.
  apply observes_weaken with
    (P := fun e =>
       e = Import_props config flags \/
       (e = Enable_datasets (match newname with
                             | Some n => n
                             | None => name
                             end) /\
        Z.land flags ZFS_IMPORT_ONLY = 0))
    (R := fun (_ : list event) rc => rc = 0 \/ rc = 1);
    [| auto | intros evs rc H; split; [exact H | now left]].
  observe_step. intros ? rc [-> _].
  destruct (negb (rc =? 0)).
  { apply observes_ret_with. now right. }
  observe_step. intros ? zhp [-> _].
  destruct (negb zhp).
  { apply observes_ret_with. now right. }
  observe_step. intros ? ? ->.
  observe_step. intros ? pool_state [-> _].
  eapply observes_bind with (R1 := fun _ _ => True).
  - destruct (negb (pool_state =? POOL_STATE_UNAVAIL)); cbn [andb].
    2:{ now apply observes_ret_with. }
    destruct (Z.land flags ZFS_IMPORT_ONLY =? 0) eqn:Eonly.
    2:{ now apply observes_ret_with. }
    apply Z.eqb_eq in Eonly.
    eapply observes_bind; [apply observes_emit; right; now split|].
    intros ? ? ->.
    observe_step. intros ? rc' [-> _].
    now apply observes_ret_with.
  - intros ? failed _.
    destruct failed; observe_step; intros ? ? ->;
      apply observes_ret_with; [now right | now left].
Qed.

Lemma observes_foreign_host_check (config : nvlist) (name : string)
    (pstate flags : Z) :
  observes (fun e => is_log e = true) (fun _ _ => True)
    (foreign_host_check config name pstate flags).
Proof.
  unfold foreign_host_check.
  destruct (_ && _).
  2:{ now apply observes_ret_with. }
  destruct (nvlist_lookup_uint64 config ZPOOL_CONFIG_HOSTID) as [hostid|].
  - observe_step. intros ? h [-> _].
    destruct (negb _).
    2:{ now apply observes_ret_with. }
    observe_step. intros ? hostname [-> _].
    observe_step. intros ? timestamp [-> _].
    eapply observes_bind; [now apply observes_log|]. intros ? ? ->.
    eapply observes_bind; [now apply observes_log|]. intros ? ? ->.
    now apply observes_ret_with.
  - eapply observes_bind; [now apply observes_log|]. intros ? ? ->.
    eapply observes_bind; [now apply observes_log|]. intros ? ? ->.
    now apply observes_ret_with.
Qed.

Lemma observes_do_import (config : nvlist) (newname mntopts : option string)
    (props : option nvlist) (flags : Z) :
  observes (do_import_event config newname flags)
    (fun evs rc =>
       (rc = 0 \/ rc = 1) /\ (rc = 0 -> In (Import_props config flags) evs))
    (do_import config newname mntopts props flags).
Proof.
  unfold do_import.
  observe_step. intros ? name [-> Hname].
  observe_step. intros ? pstate [-> _].
  observe_step. intros ? version [-> _].
  destruct (negb _).
  { eapply observes_bind; [apply observes_log; now left|]. intros ? ? ->.
    apply observes_ret_with. split; [now right | discriminate]. }
  eapply observes_bind.
  { eapply observes_weaken;
      [apply observes_foreign_host_check | intros e He; now left |].
    intros evs a H. exact H. }
  intros evs refused _. destruct refused.
  { apply observes_ret_with. split; [now right | discriminate]. }
  eapply observes_weaken; [apply observes_import_and_mount | |].
  - intros e [-> | [-> Honly]]; [right; now left|].
    right. right. now exists name.
  - intros evs' rc [Hrc Hin]. split; [exact Hrc|].
    intros _. cbn [app]. apply in_or_app. now right.
Qed.

Lemma observes_build_policy (P : event -> Prop) :
  observes P
    (fun evs built =>
       evs = [] /\
       (snd built = true -> fst built = Some no_rewind_policy) /\
       ((forall w, fst (nv_alloc w) = 0) -> snd built = true))
    (build_policy 18446744073709551615 ZPOOL_NO_REWIND).
Proof.
  unfold build_policy.
  observe_step. intros ? rc1 [-> (w1 & ->)].
  destruct (negb _) eqn:E1.
  { apply observes_ret_with. cbn [fst snd]. repeat split; try discriminate.
    intros Hall. rewrite Hall in E1. discriminate. }
  observe_step. intros ? ? ->.
  observe_step. intros ? rc2 [-> (w2 & ->)].
  destruct (negb (fst (nv_alloc w2) =? 0)) eqn:E2.
  { apply observes_ret_with. cbn [fst snd]. repeat split; try discriminate.
    intros Hall. rewrite Hall in E2. discriminate. }
  observe_step. intros ? rc3 [-> (w3 & ->)].
  destruct (negb (fst (nv_alloc w3) =? 0)) eqn:E3.
  { apply observes_ret_with. cbn [fst snd]. repeat split; try discriminate.
    intros Hall. rewrite Hall in E3. discriminate. }
  apply observes_ret_with. cbn [fst snd]. repeat split.
Qed.

Lemma candidate_for_later (searchguid : Z) (policy : nvlist) (elem : nvpair)
    (pools config : nvlist) :
  candidate_for searchguid policy pools config ->
  candidate_for searchguid policy (elem :: pools) config.
Proof.
  intros (e & c0 & st & Hin & H). exists e, c0, st.
  split; [now right | exact H].
Qed.

Lemma observes_select_config (P : event -> Prop) (searchguid : Z)
    (policy pools : nvlist) (found : option nvlist) :
  observes P
    (fun evs r =>
       evs = [] /\
       (r = found \/
        exists config,
          r = Some config /\ candidate_for searchguid policy pools config))
    (select_config searchguid policy pools found).
Proof.
  revert found. induction pools as [|elem rest IH]; intros found;
    cbn [select_config].
  { apply observes_ret_with. split; [reflexivity | now left]. }
  observe_step. intros ? config [-> Hconfig].
  observe_step. intros ? pool_state [-> Hstate].
  destruct (pool_state =? POOL_STATE_DESTROYED) eqn:Ed.
  { cbn [app]. eapply observes_weaken; [apply IH | auto |].
    intros evs r [-> [-> | (c & -> & Hc)]]; (split; [reflexivity|]).
    - now left.
    - right. exists c. split; [reflexivity|]. now apply candidate_for_later. }
  apply Z.eqb_neq in Ed.
  observe_step. intros ? rc [-> _].
  observe_step. intros ? ? [-> _].
  observe_step. intros ? guid [-> Hguid].
  cbn [app]. eapply observes_weaken; [apply IH | auto |].
  intros evs r [-> [-> | (c & -> & Hc)]]; (split; [reflexivity|]).
  - destruct (guid =? searchguid) eqn:Eg; [|now left].
    apply Z.eqb_eq in Eg. subst guid. right.
    eexists. split; [reflexivity|].
    exists elem, config, pool_state.
    split; [now left|]. repeat split; assumption.
  - right. exists c. split; [reflexivity|]. now apply candidate_for_later.
Qed.

Lemma observes_import_cleanup (P : event -> Prop)
    (pools policy : option nvlist) (err : Z) :
  observes P (fun evs rc => evs = [] /\ rc = if err =? 0 then 0 else 1)
    (import_cleanup (W := W) pools policy err).
Proof.
  unfold import_cleanup.
  observe_step. intros ? ? ->.
  observe_step. intros ? ? ->.
  observe_step. intros ? ? ->.
  apply observes_ret_with. now split.
Qed.

(** What [zpool_import_by_guid] lets be seen. *)
Lemma observes_zpool_import_by_guid (searchguid : Z) :
  observes (import_by_guid_event searchguid)
    (fun evs rc =>
       (rc = 0 \/ rc = 1) /\
       ((forall w, fst (nv_alloc w) = 0) -> rc = 0 ->
        exists config, In (Import_props config ZFS_IMPORT_NORMAL) evs))
    (zpool_import_by_guid searchguid).
Proof.
  unfold zpool_import_by_guid.
  observe_step. intros ? g_zfs [-> _].
  destruct (negb g_zfs).
  { apply observes_ret_with. split; [now right | discriminate]. }
  observe_step. intros ? ? ->.
  eapply observes_bind; [apply observes_build_policy|].
  intros ? [policy ok] (-> & Hpolicy & Hok). cbn [fst snd] in Hpolicy, Hok.
  destruct ok; cbn [negb].
  2:{ eapply observes_weaken; [apply observes_import_cleanup | intros e He; exact He |].
      intros ? rc [-> ->]. cbn [Z.eqb]. split; [now left|].
      intros Hall _. specialize (Hok Hall). discriminate. }
  rewrite (Hpolicy eq_refl). clear Hpolicy Hok.
  observe_step. intros ? priv [-> _].
  destruct (negb priv).
  { eapply observes_bind; [now apply observes_log|]. intros ? ? ->.
    observe_step. intros ? ? ->.
    apply observes_ret_with. split; [now right | discriminate]. }
  observe_step. intros ? [pools idata_exists] [-> (w & Hw)].
  destruct pools as [candidates|].
  2:{ eapply observes_bind with (R1 := fun _ _ => True).
      { destruct idata_exists;
          (eapply observes_weaken;
             [apply observes_log with (P := import_by_guid_event searchguid);
              exact I
             | intros e He; exact He | auto]). }
      intros ? ? _. observe_step. intros ? ? ->.
      apply observes_ret_with. split; [now right | discriminate]. }
  observe_step. intros ? ? ->.
  eapply observes_bind; [apply observes_select_config|].
  intros ? found_config [-> Hfound]. cbn [app].
  eapply observes_bind with
    (R1 := fun evs err =>
             (err = 0 \/ err <> 0) /\
             (err = 0 ->
              exists config, In (Import_props config ZFS_IMPORT_NORMAL) evs)).
  - destruct found_config as [config|].
    + destruct Hfound as [Hf | (c & Hc & Hfor)]; [discriminate|].
      injection Hc as <-.
      eapply observes_bind.
      { eapply observes_weaken; [apply observes_do_import | | intros ? ? H;
                                                                exact H].
        intros e [Hlog | [-> | (n & _ & -> & _)]]; cbn.
        - destruct e; try discriminate Hlog. exact I.
        - split; [reflexivity|]. exists candidates, w.
          split; [now rewrite <- Hw | exact Hfor].
        - exact I. }
      intros evs rc [Hrc Hin].
      apply observes_ret_with. rewrite app_nil_r, Z.lor_0_l. split.
      * destruct Hrc as [-> | ->]; [now left | right; discriminate].
      * intros H0. exists config. now apply Hin.
    + eapply observes_bind; [now apply observes_log|]. intros ? ? ->.
      apply observes_ret_with. unfold B_TRUE_int.
      split; [right; discriminate | discriminate].
  - intros evs err [Herr Himp].
    eapply observes_weaken; [apply observes_import_cleanup | intros e He; exact He |].
    intros ? rc [-> ->]. rewrite app_nil_r. split.
    + destruct (err =? 0); [now left | now right].
    + intros _ H0. apply Himp. destruct (err =? 0) eqn:E0.
      * now apply Z.eqb_eq.
      * discriminate.
Qed.

End ObservationFacts.

(** ** [do_import] *)

(** X11: for a pool whose version the build does not support, [do_import]
    logs the diagnostic and returns 1 at once: nothing is asked of the
    host, the import entry point is not called and the state is as it
    was. *)
Theorem do_import_unsupported_version {W : Type} {C : Collaborators W}
    {abi : ZfsAbi} (config : nvlist) (newname mntopts : option string)
    (props : option nvlist) (flags : Z) (s : state W)
    (name : string) (pstate version : Z) :
  nvlist_lookup_string config ZPOOL_CONFIG_POOL_NAME = Some name ->
  nvlist_lookup_uint64 config ZPOOL_CONFIG_POOL_STATE = Some pstate ->
  nvlist_lookup_uint64 config ZPOOL_CONFIG_VERSION = Some version ->
  SPA_VERSION_IS_SUPPORTED version = false ->
  do_import config newname mntopts props flags s
  = ([Log (Msg_unsupported_version name)], Returned 1 s).
Proof.
  intros Hname Hstate Hversion Hnot. unfold do_import.
  rewrite Hname, Hstate, Hversion. unfold verify_lookup.
  rewrite !bind_ret_l, Hnot. cbn [negb].
  now rewrite (bind_returned _ _ s s [Log (Msg_unsupported_version name)] tt
                 eq_refl).
Qed.

(** A run of X11: a pool of version 29 under the OpenZFS constants. *)
Lemma do_import_unsupported_version_witness :
  do_import (C := Replay.scripted Replay.tank_fails) (abi := openzfs)
    [Nvpair "version" (NvUint64 29); Nvpair "name" (NvString "attic");
     Nvpair "state" (NvUint64 0)]
    None None None 0 Replay.start
  = ([Log (Msg_unsupported_version "attic")], Returned 1 Replay.start).
Proof.
  exact (do_import_unsupported_version
           (C := Replay.scripted Replay.tank_fails) (abi := openzfs)
           [Nvpair "version" (NvUint64 29); Nvpair "name" (NvString "attic");
            Nvpair "state" (NvUint64 0)]
           None None None 0 Replay.start "attic" 0 29
           eq_refl eq_refl eq_refl eq_refl).
Defined.

(** X12: [do_import] returns 0 or 1, holding what it held when called (the
    pool handle it opens is closed on both paths), and it returns 0 only
    after a call of the import entry point with the configuration and the
    flags it was given.  The only other ending is a failed assertion, which
    needs a configuration without one of the asserted entries. *)
Theorem do_import_status {W : Type} {C : Collaborators W} {abi : ZfsAbi}
    (config : nvlist) (newname mntopts : option string)
    (props : option nvlist) (flags : Z) (s : state W) :
  let run := do_import config newname mntopts props flags s in
  match ending_of run with
  | Returned rc s' =>
      (rc = 0 \/ rc = 1) /\
      live s' = live s /\
      (rc = 0 -> In (Import_props config flags) (events run))
  | Aborted => ~ importable config
  end.
Proof.
  cbv zeta.
  destruct (observes_do_import config newname mntopts props flags s)
    as [_ HR].
  pose proof (keeps_do_import config newname mntopts props flags [] s
                (live s) eq_refl) as Hk.
  destruct (ending_of (do_import config newname mntopts props flags s))
    as [rc s'|] eqn:E.
  - destruct (HR rc s' eq_refl) as [Hrc Hin].
    split; [exact Hrc|]. split; [|exact Hin].
    destruct Hk as [Hk | (a & s'' & post & Hk & Hlive & ->)];
      [discriminate|].
    injection Hk as _ <-. exact Hlive.
  - intros Himp.
    destruct (do_import_returns config newname mntopts props flags Himp s)
      as (a & s' & Hret & _).
    rewrite E in Hret. discriminate.
Qed.

(** X13: the events of [do_import] are log lines, the call of the import
    entry point with the configuration and the flags as given, and the
    mount of the datasets of the pool under [newname] (under its own name
    when [newname] is null), which happens only when the flags do not have
    [ZFS_IMPORT_ONLY]. *)
Theorem do_import_events {W : Type} {C : Collaborators W} {abi : ZfsAbi}
    (config : nvlist) (newname mntopts : option string)
    (props : option nvlist) (flags : Z) (s : state W) (e : event) :
  In e (events (do_import config newname mntopts props flags s)) ->
  do_import_event config newname flags e.
Proof.
  destruct (observes_do_import config newname mntopts props flags s)
    as [HP _].
  intros Hin. rewrite Forall_forall in HP. now apply HP.
Qed.

(** A run of X13: the mount of [vault] after its import. *)
Lemma do_import_events_witness :
  do_import_event (abi := openzfs) (Replay.pool_config "vault" 2222 0 7)
    None 0 (Enable_datasets "vault").
Proof.
  apply (do_import_events (C := Replay.scripted Replay.tank_fails)
           (abi := openzfs) (Replay.pool_config "vault" 2222 0 7)
           None None None 0 Replay.start (Enable_datasets "vault")).
  vm_compute. right. now left.
Defined.

(** ** [zpool_import_by_guid] *)

Section EarlyExits.
Context {W : Type} {C : Collaborators W} {abi : ZfsAbi}.

Lemma call_run {A : Type} (f : W -> A * W) (s : state W) :
  call f s
  = ([], Returned (fst (f (world s)))
           {| world := snd (f (world s)); live := live s |}).
Proof. unfold call. now destruct (f (world s)). Qed.

Lemma bind_silent {A B : Type} (m : M W A) (k : A -> M W B)
    (s s' : state W) (a : A) :
  m s = ([], Returned a s') -> bind m k s = k a s'.
Proof. intros H. unfold bind. rewrite H. now destruct (k a s'). Qed.

Lemma build_policy_run (s s' : state W) (policy : option nvlist) (ok : bool) :
  ending_of (build_policy 18446744073709551615 ZPOOL_NO_REWIND s)
  = Returned (policy, ok) s' ->
  build_policy 18446744073709551615 ZPOOL_NO_REWIND s
  = ([], Returned (policy, ok) s') /\
  live s' = match policy with
            | Some _ => Res_policy :: live s
            | None => live s
            end.
Proof.
  intros E.
  destruct (observes_build_policy (fun _ => True) s) as [_ HR].
  destruct (HR _ _ E) as [Hevs _].
  split.
  - destruct (build_policy _ _ s) as [evs e]. cbn in Hevs, E. now subst.
  - destruct (shifts_build_policy [] 18446744073709551615 ZPOOL_NO_REWIND s
                (live s) eq_refl)
      as [Hab | (built & s'' & post & Hret & Hlive & ->)].
    + rewrite E in Hab. discriminate.
    + rewrite E in Hret. injection Hret as <- <-. rewrite Hlive.
      cbn [fst]. now destruct policy.
Qed.

End EarlyExits.

(** X14: the exits of [zpool_import_by_guid] before any pool is looked for.
    When the library does not initialize, it returns 1 and holds nothing
    more.  When the rewind policy cannot be built (one of its three
    allocating calls fails), it leaves through the [error:] label with
    [err] still 0: what was built of the policy and the library handle are
    given back, nothing is logged, no import is tried, and the value
    returned is 0. *)
Theorem zpool_import_by_guid_early_exits {W : Type} {C : Collaborators W}
    {abi : ZfsAbi} (searchguid : Z) (s : state W) :
  let w1 := snd (libzfs_init (world s)) in
  (fst (libzfs_init (world s)) = false ->
   zpool_import_by_guid searchguid s
   = ([], Returned 1 {| world := w1; live := live s |})) /\
  (fst (libzfs_init (world s)) = true ->
   forall policy s2,
     ending_of
       (build_policy 18446744073709551615 ZPOOL_NO_REWIND
          {| world := w1; live := Res_libzfs_handle :: live s |})
     = Returned (policy, false) s2 ->
     zpool_import_by_guid searchguid s
     = ([], Returned 0 {| world := world s2; live := live s |})).
Proof.
  cbv zeta. unfold zpool_import_by_guid. split.
  - intros Hinit.
    rewrite (bind_silent _ _ _ _ _ (call_run libzfs_init s)), Hinit.
    reflexivity.
  - intros Hinit policy s2 Hbuilt.
    rewrite (bind_silent _ _ _ _ _ (call_run libzfs_init s)), Hinit.
    cbn [negb].
    rewrite (bind_silent (acquire Res_libzfs_handle) _
               {| world := snd (libzfs_init (world s)); live := live s |}
               {| world := snd (libzfs_init (world s));
                  live := Res_libzfs_handle :: live s |} tt eq_refl).
    destruct (build_policy_run _ _ _ _ Hbuilt) as [Hrun Hlive].
    rewrite (bind_silent _ _ _ _ _ Hrun). cbn [negb].
    destruct s2 as [w2 l2]. cbn [live world] in *. subst l2.
    destruct policy; reflexivity.
Qed.

(** A run of X14: memory runs short at the second allocating call. *)
Lemma zpool_import_by_guid_early_exits_witness :
  zpool_import_by_guid
    (C := Faults.faulty Faults.short_of_memory Replay.tank_fails)
    (abi := openzfs) 1111 Faults.start
  = ([], Returned 0 {| world := 2%nat; live := [] |}).
Proof.
  exact (proj2 (zpool_import_by_guid_early_exits
                  (C := Faults.faulty Faults.short_of_memory Replay.tank_fails)
                  (abi := openzfs) 1111 Faults.start)
           eq_refl (Some [])
           {| world := 2%nat; live := [Res_policy; Res_libzfs_handle] |}
           eq_refl).
Defined.

(** X15: [zpool_import_by_guid] calls the import entry point only with the
    flags [ZFS_IMPORT_NORMAL] and with a configuration made of a candidate
    that the library found for the GUID searched for, that is not
    destroyed, to which the no-rewind policy has been attached, and whose
    pool GUID is the one searched for. *)
Theorem zpool_import_by_guid_imports_candidate {W : Type}
    {C : Collaborators W} {abi : ZfsAbi} (searchguid : Z) (s : state W)
    (config : nvlist) (flags : Z) :
  In (Import_props config flags) (events (zpool_import_by_guid searchguid s)) ->
  flags = ZFS_IMPORT_NORMAL /\
  exists pools w,
    fst (fst (zpool_search_import searchguid w)) = Some pools /\
    candidate_for searchguid no_rewind_policy pools config.
Proof.
  destruct (observes_zpool_import_by_guid searchguid s) as [HP _].
  intros Hin. rewrite Forall_forall in HP. exact (HP _ Hin).
Qed.

(** A run of X15: the import of [vault]. *)
Lemma zpool_import_by_guid_imports_candidate_witness :
  exists pools w,
    fst (fst (zpool_search_import
                (Collaborators := Replay.scripted Replay.tank_fails)
                2222 w)) = Some pools /\
    candidate_for (abi := openzfs) 2222 (no_rewind_policy (abi := openzfs))
      pools
      (nvlist_add (Replay.pool_config "vault" 2222 0 7) "rewind-policy"
         (NvNvlist (no_rewind_policy (abi := openzfs)))).
Proof.
  apply (zpool_import_by_guid_imports_candidate
           (C := Replay.scripted Replay.tank_fails) (abi := openzfs)
           2222 Replay.start
           (nvlist_add (Replay.pool_config "vault" 2222 0 7) "rewind-policy"
              (NvNvlist (no_rewind_policy (abi := openzfs))))
           0).
  vm_compute. now left.
Defined.

(** X16: [zpool_import_by_guid] returns 0 or 1; on return it holds what it
    held when called, or the library handle on top of that, and then the
    value is 1.  When no allocating call fails, it returns 0 only after a
    call of the import entry point.  The only other ending is a failed
    assertion, which needs a failing allocation or a candidate without one
    of the asserted entries. *)
Theorem zpool_import_by_guid_status {W : Type} {C : Collaborators W}
    {abi : ZfsAbi} (searchguid : Z) (s : state W) :
  let run := zpool_import_by_guid searchguid s in
  match ending_of run with
  | Returned rc s' =>
      (rc = 0 \/ rc = 1) /\
      (live s' = live s \/
       (live s' = Res_libzfs_handle :: live s /\ rc = 1)) /\
      ((forall w, fst (nv_alloc w) = 0) -> rc = 0 ->
       exists config, In (Import_props config ZFS_IMPORT_NORMAL) (events run))
  | Aborted => ~ assertions_hold
  end.
Proof.
  cbv zeta.
  destruct (observes_zpool_import_by_guid searchguid s) as [_ HR].
  pose proof (shifts_zpool_import_by_guid [] searchguid s (live s) eq_refl)
    as Hk.
  destruct (ending_of (zpool_import_by_guid searchguid s)) as [rc s'|] eqn:E.
  - destruct (HR rc s' eq_refl) as [Hrc Hin].
    split; [exact Hrc|]. split; [|exact Hin].
    destruct Hk as [Hk | (a & s'' & post & Hk & Hlive & Hpost)];
      [discriminate|].
    injection Hk as <- <-. rewrite Hlive.
    destruct Hpost as [-> | [-> ->]]; [now left | right; now split].
  - intros Hok.
    destruct (zpool_import_by_guid_returns searchguid Hok s)
      as (a & s' & Hret & _).
    rewrite E in Hret. discriminate.
Qed.

(** ** [zpool_read_cachefile] *)

Section CacheReaderFacts.
Context {W : Type} {C : Collaborators W} {abi : ZfsAbi}.

(** The run of the cache reader, from the reading of the file and the walk
    over what it holds. *)
Lemma zpool_read_cachefile_run (s : state W) :
  zpool_read_cachefile s =
  match fst (read_cache (world s)) with
  | None =>
      ([Log Msg_reading_cachefile],
       Returned tt {| world := snd (read_cache (world s)); live := live s |})
  | Some manifest =>
      let walk :=
        cachefile_walk manifest
          {| world := snd (read_cache (world s));
             live := Res_manifest :: Res_cache_buf :: Res_cache_fd :: live s |}
      in
      (Log Msg_reading_cachefile :: events walk,
       match ending_of walk with
       | Returned _ s' =>
           Returned tt
             {| world := world s';
                live := remove_one Res_cache_buf
                          (remove_one Res_cache_fd
                             (remove_one Res_manifest (live s'))) |}
       | Aborted => Aborted
       end)
  end.
Proof.
  destruct s as [w l].
  unfold zpool_read_cachefile, read_cache, log, bind, call, emit, acquire,
    release, ret.
  cbn [world live app].
  destruct (open_cache w) as [fd w1]. cbn [world live app].
  destruct (fd <? 0); [reflexivity|]. cbn [world live app].
  destruct (fstat w1) as [[rc size] w2]. cbn [world live app].
  destruct (negb (rc =? 0) || (size =? 0)); [reflexivity|].
  cbn [world live app].
  destruct (kmem_alloc size w2) as [buf w3]. cbn [world live app].
  destruct buf; cbn [negb world live app]; [|reflexivity].
  destruct (read size w3) as [n w4]. cbn [world live app].
  destruct (negb (n =? size)); [reflexivity|]. cbn [world live app].
  destruct (nvlist_unpack w4) as [[urc manifest] w5]. cbn [world live app].
  destruct (negb (urc =? 0)); [reflexivity|].
  cbn [fst snd world live app].
  destruct (cachefile_walk manifest _) as [evs [[] s'|]];
    cbn [events ending_of fst snd app world live]; [|reflexivity].
  now rewrite !app_nil_r.
Qed.

Lemma remove_one_past_handles (r : resource) (n : nat) (l : list resource) :
  r <> Res_libzfs_handle ->
  remove_one r (repeat Res_libzfs_handle n ++ r :: l)%list
  = (repeat Res_libzfs_handle n ++ l)%list.
Proof.
  intros Hr. induction n as [|n IH]; cbn [repeat app remove_one].
  - now rewrite resource_eqb_refl.
  - rewrite IH. destruct r; try reflexivity. now contradiction Hr.
Qed.

Lemma remove_one_handles_only (r : resource) (n : nat) (l : list resource) :
  r <> Res_libzfs_handle ->
  remove_one r (repeat Res_libzfs_handle n ++ l)%list
  = (repeat Res_libzfs_handle n ++ remove_one r l)%list.
Proof.
  intros Hr. induction n as [|n IH]; cbn [repeat app remove_one].
  - reflexivity.
  - rewrite IH. destruct r; try reflexivity. now contradiction Hr.
Qed.

(** The walk gives back all it acquires but the library handles that the
    importer leaves held. *)
Lemma shifts_cachefile_walk (pre : list resource) (manifest : nvlist) :
  shifts pre
    (fun _ post => exists n, post = (repeat Res_libzfs_handle n ++ pre)%list)
    (cachefile_walk manifest).
Proof.
  revert pre. induction manifest as [|nvp rest IH]; intros pre;
    cbn [cachefile_walk].
  { apply shifts_ret_with. now exists 0%nat. }
  eapply shifts_bind with
    (Q := fun _ post => post = pre \/ post = Res_libzfs_handle :: pre).
  - unfold cachefile_entry.
    destruct (negb _); [apply shifts_ret_with; now left|].
    eapply shifts_bind; [apply shifts_verify_lookup|]. intros child ? ->.
    eapply shifts_bind; [apply shifts_emit|]. intros ? ? ->.
    destruct (nvlist_lookup_uint64 child ZPOOL_CONFIG_POOL_GUID) as [guid|];
      [|apply shifts_ret_with; now left].
    eapply shifts_bind; [apply shifts_emit|]. intros ? ? ->.
    eapply shifts_bind; [apply shifts_emit|]. intros ? ? ->.
    eapply shifts_bind; [apply shifts_zpool_import_by_guid|].
    intros rc post Hpost.
    eapply shifts_weaken; [apply shifts_emit|].
    intros ? ? ->. destruct Hpost as [-> | [-> _]]; [now left | now right].
  - intros ? post Hpost.
    eapply shifts_weaken; [apply IH|].
    intros ? post' (n & ->).
    destruct Hpost as [-> | ->]; [now exists n|].
    exists (S n). cbn [repeat].
    rewrite (repeat_cons n Res_libzfs_handle).
    now rewrite <- app_assoc.
Qed.

End CacheReaderFacts.

(** X17: when the cache file does not open, cannot be examined, is empty,
    or is not read and unpacked in full, the cache reader logs its first
    line and returns: no import is tried, and the descriptor and the buffer
    it took have been given back. *)
Theorem zpool_read_cachefile_unreadable {W : Type} {C : Collaborators W}
    {abi : ZfsAbi} (s : state W) :
  fst (read_cache (world s)) = None ->
  zpool_read_cachefile s
  = ([Log Msg_reading_cachefile],
     Returned tt {| world := snd (read_cache (world s)); live := live s |}).
Proof. intros Hnone. now rewrite zpool_read_cachefile_run, Hnone. Qed.

(** A run of X17: the cache file is cut short while it is read. *)
Lemma zpool_read_cachefile_unreadable_witness :
  zpool_read_cachefile
    (C := Faults.faulty Faults.short_read Replay.tank_fails) (abi := openzfs)
    Faults.start
  = ([Log Msg_reading_cachefile], Returned tt Faults.start).
Proof.
  exact (zpool_read_cachefile_unreadable
           (C := Faults.faulty Faults.short_read Replay.tank_fails)
           (abi := openzfs) Faults.start eq_refl).
Defined.

(** X18: when the cache file is read and unpacked, the import attempts of
    the cache reader are, in order, a prefix of the GUIDs of the entries of
    the unpacked list that are nested records with a pool GUID; they are
    all of them when the reader returns, which it does whenever no
    assertion of the import path fails. *)
Theorem zpool_read_cachefile_attempts {W : Type} {C : Collaborators W}
    {abi : ZfsAbi} (s : state W) (manifest : nvlist) :
  fst (read_cache (world s)) = Some manifest ->
  let run := zpool_read_cachefile s in
  (exists rest,
     manifest_guids manifest = (attempts (events run) ++ rest)%list) /\
  (forall s', ending_of run = Returned tt s' ->
              attempts (events run) = manifest_guids manifest) /\
  (assertions_hold ->
   exists s', ending_of run = Returned tt s' /\
              attempts (events run) = manifest_guids manifest).
Proof.
  intros Hsome. cbv zeta. rewrite zpool_read_cachefile_run, Hsome. cbv zeta.
  cbn [events ending_of fst snd attempts flat_map app].
  set (s4 := {| world := snd (read_cache (world s));
                live := Res_manifest :: Res_cache_buf :: Res_cache_fd ::
                        live s |}).
  change (flat_map _ (events (cachefile_walk manifest s4)))
    with (attempts (events (cachefile_walk manifest s4))).
  split; [apply cachefile_walk_prefix|]. split.
  - intros s' Hret.
    destruct (ending_of (cachefile_walk manifest s4)) as [[] s5|] eqn:E;
      [|discriminate].
    now apply (cachefile_walk_complete manifest s4 s5).
  - intros Hok.
    destruct (cachefile_walk_returns manifest Hok s4) as ([] & s5 & E & _).
    rewrite E. eexists. split; [reflexivity|].
    now apply (cachefile_walk_complete manifest s4 s5).
Qed.

(** A run of X18 on the cache file with [tank] and [vault]. *)
Lemma zpool_read_cachefile_attempts_witness :
  exists rest,
    manifest_guids (abi := openzfs) Replay.two_pools =
    (attempts
       (events
          (zpool_read_cachefile (C := Replay.scripted Replay.tank_fails)
             (abi := openzfs) Replay.start)) ++ rest)%list.
Proof.
  exact (proj1 (zpool_read_cachefile_attempts
                  (C := Replay.scripted Replay.tank_fails) (abi := openzfs)
                  Replay.start Replay.two_pools eq_refl)).
Defined.

(** X19: when the cache reader returns, the descriptor, the buffer and the
    unpacked list have been given back: what it holds more than when it was
    called are library handles that imports have left held, and nothing
    else. *)
Theorem zpool_read_cachefile_gives_back {W : Type} {C : Collaborators W}
    {abi : ZfsAbi} (s : state W) (s' : state W) :
  ending_of (zpool_read_cachefile s) = Returned tt s' ->
  exists n, live s' = (repeat Res_libzfs_handle n ++ live s)%list.
Proof.
  rewrite zpool_read_cachefile_run.
  destruct (fst (read_cache (world s))) as [manifest|]; cbv zeta;
    cbn [ending_of snd].
  2:{ intros E. injection E as <-. now exists 0%nat. }
  set (s4 := {| world := snd (read_cache (world s));
                live := Res_manifest :: Res_cache_buf :: Res_cache_fd ::
                        live s |}).
  destruct (shifts_cachefile_walk [] manifest s4
              (Res_manifest :: Res_cache_buf :: Res_cache_fd :: live s)
              eq_refl)
    as [Hab | ([] & s5 & post & Hret & Hlive & (n & ->))].
  { rewrite Hab. discriminate. }
  rewrite Hret. intros E. injection E as <-. cbn [live].
  exists n. rewrite Hlive, app_nil_r.
  rewrite remove_one_past_handles by discriminate.
  rewrite remove_one_handles_only by discriminate.
  cbn [remove_one resource_eqb].
  rewrite remove_one_past_handles by discriminate.
  reflexivity.
Qed.

(** A run of X19: without the privilege each of the two imports leaves its
    library handle held, and nothing else is. *)
Lemma zpool_read_cachefile_gives_back_witness :
  exists n,
    [Res_libzfs_handle; Res_libzfs_handle]
    = (repeat Res_libzfs_handle n ++ [])%list.
Proof.
  exact (zpool_read_cachefile_gives_back
           (C := Replay.scripted Replay.unprivileged) (abi := openzfs)
           Replay.start
           {| world := tt; live := [Res_libzfs_handle; Res_libzfs_handle] |}
           eq_refl).
Defined.

(** X20: for a pool of a supported version that is exported, or imported
    with [ZFS_IMPORT_ANY_HOST], or that carries the identifier of the local
    host, [do_import] logs nothing and goes to the import: its first event
    is the call of the import entry point with the configuration and the
    flags it was given. *)
Theorem do_import_goes_to_import {W : Type} {C : Collaborators W}
    {abi : ZfsAbi} (config : nvlist) (newname mntopts : option string)
    (props : option nvlist) (flags : Z) (s : state W)
    (name : string) (pstate version : Z) :
  nvlist_lookup_string config ZPOOL_CONFIG_POOL_NAME = Some name ->
  nvlist_lookup_uint64 config ZPOOL_CONFIG_POOL_STATE = Some pstate ->
  nvlist_lookup_uint64 config ZPOOL_CONFIG_VERSION = Some version ->
  SPA_VERSION_IS_SUPPORTED version = true ->
  pstate = POOL_STATE_EXPORTED \/
  Z.land flags ZFS_IMPORT_ANY_HOST <> 0 \/
  local_host config (world s) ->
  exists tail,
    events (do_import config newname mntopts props flags s)
    = Import_props config flags :: tail.
Proof.
  intros Hname Hstate Hversion Hsup Hgate. unfold do_import.
  rewrite Hname, Hstate, Hversion. unfold verify_lookup.
  rewrite !bind_ret_l, Hsup. cbn [negb].
  pose proof (foreign_host_check_run config name pstate flags s) as Hchk.
  cbv zeta in Hchk. destruct Hchk as (_ & Hpass & _).
  destruct (Hpass Hgate) as (s' & Hrun & _).
  rewrite (bind_returned _ _ _ _ _ _ Hrun).
  cbn [app events fst]. unfold import_and_mount.
  rewrite events_emit_bind. eexists. reflexivity.
Qed.

(** A run of X20: [vault], last used by the local host 7. *)
Lemma do_import_goes_to_import_witness :
  exists tail,
    events
      (do_import (C := Replay.scripted Replay.tank_fails) (abi := openzfs)
         (Replay.pool_config "vault" 2222 0 7) None None None 0 Replay.start)
    = Import_props (Replay.pool_config "vault" 2222 0 7) 0 :: tail.
Proof.
  apply (do_import_goes_to_import (C := Replay.scripted Replay.tank_fails)
           (abi := openzfs) (Replay.pool_config "vault" 2222 0 7)
           None None None 0 Replay.start "vault" 0 5000
           eq_refl eq_refl eq_refl eq_refl).
  right. right. exists 7. split; reflexivity.
Defined.
